(** * A2A server and relay client: a shallow embedding and its properties

    The development follows [src/a2a-server.ts] (the JSON-RPC task
    service), [src/a2a-types.ts] (its types and constants) and
    [src/relay-client.ts] (the WebSocket relay client); of
    [src/test-relay-agent.ts], the echo agent behind the relay, it has
    the two handlers that make and cancel a task.

    Modelling conventions.
    - JavaScript values that arrive over the wire are [json] values; a
      property that is absent reads as [None] (JavaScript [undefined]).
      JSON numbers are integers ([Z]); fractional numbers are outside the
      embedding.  A JavaScript number holds an integer exactly up to
      [MAX_SAFE_INTEGER] in absolute value; where a number read from the
      wire is given back or computed with, a statement bounds it by that.
    - Task objects live in a heap ([list Task] addressed by position), and
      the [Map<string, Task>] of the server is an association list from
      task id to heap address, kept in insertion order as a JavaScript Map
      iterates.  Responses that hand out a task carry its address, so that
      an alias and a copy are different things.
    - [randomUUID()] and [new Date()] are read from a [Runtime]: the k-th
      call returns [uuid_at k], respectively the instant [now_at k]
      (milliseconds since the epoch; [toISOString] and [new Date(string)]
      are inverse to each other at that resolution, so a timestamp is
      represented by the instant it denotes).
    - [await this.config.onMessage(...)] is a suspension point: the code up
      to the call and the code after it are separate transitions, and other
      requests and the callbacks [sendStatus] / [sendArtifact] may run in
      between. *)

From Stdlib Require Import ZArith Lia Ascii String.
From stdpp Require Import base decidable option list strings sorting.

Set Warnings "-register-all".

Local Open Scope string_scope.
Local Open Scope list_scope.

(** ** JSON values and the JavaScript operators applied to them *)

Inductive json : Type :=
  | JNull
  | JBool (b : bool)
  | JNum (n : Z)
  | JStr (s : string)
  | JArr (items : list json)
  | JObj (fields : list (string * json)).

(** [Number.MAX_SAFE_INTEGER], 2^53 - 1.  The integers of at most this
    absolute value are held exactly by a JavaScript number, and
    [JSON.parse], [JSON.stringify], [parseInt] and [String] read and write
    them digit by digit; a larger one is rounded to a double, which [JNum]
    and the numerals below do not model. *)
Definition MAX_SAFE_INTEGER : Z := 9007199254740991.

Fixpoint assoc {A : Type} (k : string) (l : list (string * A)) : option A :=
  match l with
  | [] => None
  | (k', v) :: rest => if decide (k' = k) then Some v else assoc k rest
  end.

(** [v.k] for a value [v] that is not [undefined]; only plain objects carry
    the property names the server reads. *)
Definition prop (v : json) (k : string) : option json :=
  match v with
  | JObj fields => assoc k fields
  | _ => None
  end.

(** [v?.k] *)
Definition prop_opt (v : option json) (k : string) : option json :=
  match v with
  | Some (JObj fields) => assoc k fields
  | _ => None
  end.

(** ToBoolean *)
Definition truthy (v : option json) : bool :=
  match v with
  | None => false
  | Some JNull => false
  | Some (JBool b) => b
  | Some (JNum n) => negb (n =? 0)%Z
  | Some (JStr s) => negb (bool_decide (s = ""))
  | Some (JArr _) => true
  | Some (JObj _) => true
  end.

Definition typeof (v : option json) : string :=
  match v with
  | None => "undefined"
  | Some JNull => "object"
  | Some (JBool _) => "boolean"
  | Some (JNum _) => "number"
  | Some (JStr _) => "string"
  | Some (JArr _) => "object"
  | Some (JObj _) => "object"
  end.

Definition isArray (v : option json) : bool :=
  match v with
  | Some (JArr _) => true
  | _ => false
  end.

(** [a === b] where [b] was parsed from the current request: two objects
    or arrays are never the same reference, primitives compare by value. *)
Definition strict_eq (a b : option json) : bool :=
  match a, b with
  | None, None => true
  | Some JNull, Some JNull => true
  | Some (JBool x), Some (JBool y) => bool_decide (x = y)
  | Some (JNum x), Some (JNum y) => (x =? y)%Z
  | Some (JStr x), Some (JStr y) => bool_decide (x = y)
  | _, _ => false
  end.

(** [Array.prototype.slice]: a negative index counts from the end. *)
Definition rel_index (len : nat) (i : Z) : nat :=
  if (i <? 0)%Z then Z.to_nat (Z.max (Z.of_nat len + i) 0)
  else Z.to_nat (Z.min i (Z.of_nat len)).

Definition slice {A : Type} (l : list A) (start : Z) (stop : option Z) : list A :=
  let k := rel_index (length l) start in
  let final := match stop with
               | None => length l
               | Some e => rel_index (length l) e
               end in
  take (final - k) (drop k l).

(** ** Decimal numerals: [String(n)] and [parseInt(s, 10)] *)

Definition digit_char (d : Z) : ascii :=
  ascii_of_nat (48 + Z.to_nat d).

Definition digit_val (c : ascii) : option Z :=
  let n := nat_of_ascii c in
  if bool_decide (48 ≤ n ∧ n ≤ 57)%nat then Some (Z.of_nat (n - 48)) else None.

Fixpoint digits (fuel : nat) (n : Z) (acc : string) : string :=
  match fuel with
  | O => acc
  | S fuel' =>
      let acc' := String (digit_char (n mod 10)) acc in
      if (n <? 10)%Z then acc' else digits fuel' (n / 10) acc'
  end.

(** [String(n)] for an integer [n] *)
Definition String_of_number (n : Z) : string :=
  if (n <? 0)%Z then String "-" (digits (S (Z.to_nat (- n))) (- n) "")
  else digits (S (Z.to_nat n)) n "".

(** WhiteSpace and LineTerminator code points below 128 *)
Definition is_space (c : ascii) : bool :=
  let n := nat_of_ascii c in
  bool_decide (n = 32 ∨ (9 ≤ n ∧ n ≤ 13))%nat.

Fixpoint skip_space (s : string) : string :=
  match s with
  | String c rest => if is_space c then skip_space rest else s
  | EmptyString => s
  end.

Fixpoint parse_digits (acc : Z) (s : string) : Z :=
  match s with
  | String c rest =>
      match digit_val c with
      | Some d => parse_digits (10 * acc + d) rest
      | None => acc
      end
  | EmptyString => acc
  end.

Definition starts_with_digit (s : string) : bool :=
  match s with
  | String c _ => bool_decide (is_Some (digit_val c))
  | EmptyString => false
  end.

Definition strip_sign (s : string) : bool * string :=
  match s with
  | String "-" rest => (true, rest)
  | String "+" rest => (false, rest)
  | _ => (false, s)
  end.

(** [parseInt(s, 10)]; [None] is NaN.  The result is the exact integer,
    as JavaScript gives it up to [MAX_SAFE_INTEGER]; leading white space
    is skipped where it is ASCII. *)
Definition parseInt (s : string) : option Z :=
  let '(neg, s2) := strip_sign (skip_space s) in
  if starts_with_digit s2
  then Some (if neg : bool then - parse_digits 0 s2 else parse_digits 0 s2)%Z
  else None.

(** The test [/^\d{4}-\d{2}-\d{2}/] *)
Definition is_digit (c : ascii) : bool := bool_decide (is_Some (digit_val c)).

Definition looksLikeDate (s : string) : bool :=
  match s with
  | String y1 (String y2 (String y3 (String y4 (String d1
      (String m1 (String m2 (String d2 (String a1 (String a2 _))))))))) =>
      is_digit y1 && is_digit y2 && is_digit y3 && is_digit y4
      && bool_decide (d1 = "-"%char)
      && is_digit m1 && is_digit m2
      && bool_decide (d2 = "-"%char)
      && is_digit a1 && is_digit a2
  | _ => false
  end.

(** ** Protocol types and constants ([a2a-types.ts]) *)

(** [TaskState]: the seven v1.0 names and their seven v0.3 spellings. *)
Inductive TaskState : Set :=
  | TASK_STATE_SUBMITTED
  | TASK_STATE_WORKING
  | TASK_STATE_INPUT_REQUIRED
  | TASK_STATE_COMPLETED
  | TASK_STATE_FAILED
  | TASK_STATE_CANCELED
  | TASK_STATE_REJECTED
  | v03_submitted
  | v03_working
  | v03_input_required
  | v03_completed
  | v03_failed
  | v03_canceled
  | v03_rejected.

#[global] Instance TaskState_eq_dec : EqDecision TaskState.
Proof. solve_decision. Defined.

(** The string a state is on the wire. *)
Definition TaskState_string (s : TaskState) : string :=
  match s with
  | TASK_STATE_SUBMITTED => "TASK_STATE_SUBMITTED"
  | TASK_STATE_WORKING => "TASK_STATE_WORKING"
  | TASK_STATE_INPUT_REQUIRED => "TASK_STATE_INPUT_REQUIRED"
  | TASK_STATE_COMPLETED => "TASK_STATE_COMPLETED"
  | TASK_STATE_FAILED => "TASK_STATE_FAILED"
  | TASK_STATE_CANCELED => "TASK_STATE_CANCELED"
  | TASK_STATE_REJECTED => "TASK_STATE_REJECTED"
  | v03_submitted => "submitted"
  | v03_working => "working"
  | v03_input_required => "input-required"
  | v03_completed => "completed"
  | v03_failed => "failed"
  | v03_canceled => "canceled"
  | v03_rejected => "rejected"
  end.

Module TASK_STATES.
Definition SUBMITTED := TASK_STATE_SUBMITTED.
Definition WORKING := TASK_STATE_WORKING.
Definition INPUT_REQUIRED := TASK_STATE_INPUT_REQUIRED.
Definition COMPLETED := TASK_STATE_COMPLETED.
Definition FAILED := TASK_STATE_FAILED.
Definition CANCELED := TASK_STATE_CANCELED.
Definition REJECTED := TASK_STATE_REJECTED.
End TASK_STATES.

Definition VALID_TASK_STATES : list string :=
  [ "TASK_STATE_SUBMITTED"; "TASK_STATE_WORKING"; "TASK_STATE_INPUT_REQUIRED";
    "TASK_STATE_COMPLETED"; "TASK_STATE_FAILED"; "TASK_STATE_CANCELED";
    "TASK_STATE_REJECTED";
    "submitted"; "working"; "input-required"; "completed"; "failed";
    "canceled"; "rejected" ].

Module A2A_ERROR_CODES.
Definition TASK_NOT_FOUND : Z := -32001.
Definition TASK_NOT_CANCELABLE : Z := -32002.
Definition PUSH_NOTIFICATION_NOT_SUPPORTED : Z := -32003.
Definition UNSUPPORTED_OPERATION : Z := -32004.
End A2A_ERROR_CODES.

Module JSONRPC_ERROR_CODES.
Definition PARSE_ERROR : Z := -32700.
Definition INVALID_REQUEST : Z := -32600.
Definition METHOD_NOT_FOUND : Z := -32601.
Definition INVALID_PARAMS : Z := -32602.
Definition INTERNAL_ERROR : Z := -32603.
End JSONRPC_ERROR_CODES.

(** A [Message], a [Part] and an [Artifact] are kept as the JSON they are:
    the server stores and returns them and reads only a few properties of
    an incoming message. *)

Record TaskStatus : Type := mkTaskStatus {
  state : TaskState;
  message : option json;
  timestamp : option Z
}.

Record Task : Type := mkTask {
  id : string;
  contextId : option json;
  status : TaskStatus;
  artifacts : option (list json);
  history : option (list json);
  metadata : option json
}.

Definition with_status (st : TaskStatus) (t : Task) : Task :=
  mkTask (id t) (contextId t) st (artifacts t) (history t) (metadata t).

Definition with_history (h : option (list json)) (t : Task) : Task :=
  mkTask (id t) (contextId t) (status t) (artifacts t) h (metadata t).

Definition with_artifacts (a : option (list json)) (t : Task) : Task :=
  mkTask (id t) (contextId t) (status t) a (history t) (metadata t).

(** [arr = arr || []; arr.push(x)] *)
Definition push (arr : option (list json)) (x : json) : option (list json) :=
  Some (default [] arr ++ [x]).

(** The id of a JSON-RPC request or response: a string or a number. *)
Inductive RpcId : Type :=
  | IdStr (s : string)
  | IdNum (n : Z).

Record JsonRpcError : Type := mkJsonRpcError {
  code : Z;
  error_message : string
}.

(** A task object is referred to by its address in the heap. *)
Abbreviation ref := nat (only parsing).

(** What a [result] holds: [SendMessageResponse] ([{ task }]), a [Task]
    given directly, a [ListTasksResponse], or the agent card. *)
Inductive Result : Type :=
  | SendMessageResponse (task : ref)
  | TaskResult (task : ref)
  | ListTasksResponse (tasks : list ref) (nextPageToken : string)
      (pageSize : nat) (totalSize : nat)
  | AgentCardResult.

Record JsonRpcResponse : Type := mkJsonRpcResponse {
  response_id : option RpcId;
  result : option Result;
  error : option JsonRpcError
}.

(** ** The runtime and the state of the server *)

Class Runtime : Type := {
  (** the value of the k-th call of [randomUUID()] *)
  uuid_at : nat -> string;
  (** the instant read by the k-th [new Date()] *)
  now_at : nat -> Z;
  (** [new Date(s).getTime()], [None] for an invalid date *)
  Date_parse : string -> option Z;
  (** ToNumber of a string, [None] for NaN *)
  StringToNumber : string -> option Z;
  (** ToPrimitive of an array or an object *)
  ObjectToString : json -> string
}.

Record World : Type := mkWorld {
  (** [this.tasks], in insertion order *)
  tasks : list (string * ref);
  heap : list Task;
  (** calls of [randomUUID()] so far *)
  uuids : nat;
  (** clock reads so far *)
  ticks : nat
}.

Definition empty_world : World := mkWorld [] [] 0 0.

Definition with_tasks (m : list (string * ref)) (w : World) : World :=
  mkWorld m (heap w) (uuids w) (ticks w).

Definition with_heap (h : list Task) (w : World) : World :=
  mkWorld (tasks w) h (uuids w) (ticks w).

(** [new T{...}]: the object gets the next free address. *)
Definition alloc (t : Task) (w : World) : ref * World :=
  (length (heap w), with_heap (heap w ++ [t]) w).

(** A write to a field of the object at [r]. *)
Definition modify (r : ref) (f : Task -> Task) (w : World) : World :=
  with_heap (alter f r (heap w)) w.

(** [Map.prototype.set]: an existing key keeps its place. *)
Fixpoint map_set (k : string) (r : ref) (m : list (string * ref))
  : list (string * ref) :=
  match m with
  | [] => [(k, r)]
  | (k', r') :: rest =>
      if decide (k' = k) then (k, r) :: rest else (k', r') :: map_set k r rest
  end.

(** [this.tasks.get(key)]: only a string can be a key of the map. *)
Definition tasks_get (w : World) (key : option json) : option (string * ref * Task) :=
  match key with
  | Some (JStr k) =>
      match assoc k (tasks w) with
      | Some r =>
          match heap w !! r with
          | Some t => Some (k, r, t)
          | None => None
          end
      | None => None
      end
  | _ => None
  end.

(** [Array.from(this.tasks.values())], each task as it is now *)
Definition tasks_values (w : World) : list Task :=
  omap (fun kr => heap w !! (snd kr)) (tasks w).

Section Server.
Context {R : Runtime}.

Definition randomUUID (w : World) : string * World :=
  (uuid_at (uuids w), mkWorld (tasks w) (heap w) (S (uuids w)) (ticks w)).

(** [new Date().toISOString()] *)
Definition Date_now (w : World) : Z * World :=
  (now_at (ticks w), mkWorld (tasks w) (heap w) (uuids w) (S (ticks w))).

(** ToNumber *)
Definition ToNumber (v : json) : option Z :=
  match v with
  | JNull => Some 0%Z
  | JBool b => Some (if b then 1 else 0)%Z
  | JNum n => Some n
  | JStr s => StringToNumber s
  | JArr _ | JObj _ => StringToNumber (ObjectToString v)
  end.

Definition TERMINAL_STATES : list TaskState :=
  [ TASK_STATE_COMPLETED; TASK_STATE_FAILED; TASK_STATE_CANCELED;
    TASK_STATE_REJECTED;
    v03_completed; v03_failed; v03_canceled; v03_rejected ].

Definition is_terminal (s : TaskState) : bool :=
  bool_decide (s ∈ TERMINAL_STATES).

(** *** Helpers of the server *)

(** [{ jsonrpc: '2.0', id: id ?? randomUUID(), result }]: an id that is
    [null] or [undefined] ([None]) is replaced by a UUID. *)
Definition jsonRpcSuccess (rid : option RpcId) (res : Result) (w : World)
  : JsonRpcResponse * World :=
  match rid with
  | Some i => (mkJsonRpcResponse (Some i) (Some res) None, w)
  | None =>
      let '(u, w') := randomUUID w in
      (mkJsonRpcResponse (Some (IdStr u)) (Some res) None, w')
  end.

(** [{ jsonrpc: '2.0', id: id ?? randomUUID(), error }]; no caller
    passes the optional [data]. *)
Definition jsonRpcError (rid : option RpcId) (c : Z) (msg : string) (w : World)
  : JsonRpcResponse * World :=
  match rid with
  | Some i => (mkJsonRpcResponse (Some i) None (Some (mkJsonRpcError c msg)), w)
  | None =>
      let '(u, w') := randomUUID w in
      (mkJsonRpcResponse (Some (IdStr u)) None (Some (mkJsonRpcError c msg)), w')
  end.

Definition methodMap : list (string * string) :=
  [ ("SendMessage", "message/send"); ("sendMessage", "message/send");
    ("message.send", "message/send");
    ("GetTask", "tasks/get"); ("getTask", "tasks/get");
    ("tasks.get", "tasks/get");
    ("CancelTask", "tasks/cancel"); ("cancelTask", "tasks/cancel");
    ("tasks.cancel", "tasks/cancel");
    ("ListTasks", "tasks/list"); ("listTasks", "tasks/list");
    ("tasks.list", "tasks/list");
    ("GetAgentCard", "agent/card"); ("getAgentCard", "agent/card");
    ("agent.card", "agent/card") ].

(** The property names that the object literal [methodMap] inherits from
    [Object.prototype]: for these [methodMap[method]] is a function or an
    object, not [undefined]. *)
Definition Object_prototype_names : list string :=
  [ "constructor"; "hasOwnProperty"; "isPrototypeOf"; "propertyIsEnumerable";
    "toLocaleString"; "toString"; "valueOf"; "__proto__";
    "__defineGetter__"; "__defineSetter__";
    "__lookupGetter__"; "__lookupSetter__" ].

(** [methodMap[method] || method], for a [method] that is none of the
    [Object_prototype_names].  For one of those the source returns the
    inherited function or object, where this definition returns the name;
    [routeMethod] treats the two alike: no [case] matches either, and the
    error message is made from the method of the request. *)
Definition normalizeMethodName (method : string) : string :=
  default method (assoc method methodMap).

(** The character [U+0022] *)
Definition quote : string := String (ascii_of_nat 34) EmptyString.

Record Validation : Type := mkValidation {
  valid : bool;
  validation_id : option RpcId;
  validation_code : Z;
  validation_message : string
}.

Definition validateJsonRpcRequestDetailed (req : json) : Validation :=
  if negb (truthy (Some req)) || negb (bool_decide (typeof (Some req) = "object"))
  then mkValidation false None JSONRPC_ERROR_CODES.INVALID_REQUEST "Invalid Request"
  else
    let rid := match prop req "id" with
               | Some (JStr s) => inl (Some (IdStr s))
               | Some (JNum n) => inl (Some (IdNum n))
               | None | Some JNull => inl None
               | Some _ => inr tt
               end in
    match rid with
    | inr _ =>
        mkValidation false None JSONRPC_ERROR_CODES.INVALID_REQUEST
          "Invalid Request: id must be string or number"
    | inl i =>
        if negb (strict_eq (prop req "jsonrpc") (Some (JStr "2.0")))
        then mkValidation false i JSONRPC_ERROR_CODES.INVALID_REQUEST
               (String.append "Invalid Request: jsonrpc must be "
                  (String.append quote (String.append "2.0" quote)))
        else if negb (bool_decide (typeof (prop req "method") = "string"))
        then mkValidation false i JSONRPC_ERROR_CODES.INVALID_REQUEST
               "Invalid Request: method must be a string"
        else if negb (strict_eq (prop req "params") None)
                && negb (strict_eq (prop req "params") (Some JNull))
                && negb (bool_decide (typeof (prop req "params") = "object"))
        then mkValidation false i JSONRPC_ERROR_CODES.INVALID_PARAMS
               "Invalid params: must be object or array"
        else mkValidation true i 0%Z ""
    end.

(** *** message/send *)

(** What the handler callback is given: [taskId], [contextId], and the two
    closures [sendStatus] and [sendArtifact], which hold on to the task
    object ([target]). *)
Record MessageContext : Type := mkMessageContext {
  taskId : string;
  context_contextId : option json;
  target : ref
}.

(** A call of [handleMessageSend] suspended at
    [await this.config.onMessage(params.message, context)]. *)
Record Pending : Type := mkPending {
  pending_id : option RpcId;
  pending_message : json;
  pending_context : MessageContext
}.

(** How the awaited callback ends: one of the three [MessageResult]
    shapes, or an exception [err], of which the server keeps
    [String(err)]. *)
Inductive HandlerReturn : Type :=
  | ReturnsMessage (msg : json)
  | ReturnsTask (task : Task)
  | ReturnsWorking
  | Throws (err : string).

(** A request either is answered at once or waits for the callback. *)
Inductive Outcome : Type :=
  | Responds (response : JsonRpcResponse)
  | Awaits (p : Pending).

Definition respond (rw : JsonRpcResponse * World) : Outcome * World :=
  (Responds (fst rw), snd rw).

(** The part of [handleMessageSend] from the continuation check on, once
    [params.message] is known to be well formed. *)
Definition acceptMessage (rid : option RpcId) (msg : json) (w : World)
  : Outcome * World :=
  let messageTaskId := prop msg "taskId" in
  let messageContextId := prop msg "contextId" in
  let existing :=
    if truthy messageTaskId then
      match tasks_get w messageTaskId with
      | None => inr (A2A_ERROR_CODES.TASK_NOT_FOUND, "Task not found")
      | Some (k, r, existingTask) =>
          if is_terminal (state (status existingTask))
          then inr (A2A_ERROR_CODES.UNSUPPORTED_OPERATION,
                    "Task is in terminal state")
          else if truthy messageContextId
                  && negb (strict_eq (contextId existingTask) messageContextId)
          then inr (JSONRPC_ERROR_CODES.INVALID_PARAMS,
                    "contextId does not match task")
          else inl (Some (k, r, existingTask))
      end
    else inl None in
  match existing with
  | inr (c, m) => respond (jsonRpcError rid c m w)
  | inl existingTask =>
      (* const taskId = messageTaskId || randomUUID() *)
      let '(tid, w) :=
        match existingTask with
        | Some (k, _, _) => (k, w)
        | None => randomUUID w
        end in
      (* const contextId = messageContextId || existingTask?.contextId || randomUUID() *)
      let '(cid, w) :=
        if truthy messageContextId then (messageContextId, w)
        else
          match existingTask with
          | Some (_, _, t) =>
              if truthy (contextId t) then (contextId t, w)
              else let '(u, w') := randomUUID w in (Some (JStr u), w')
          | None => let '(u, w') := randomUUID w in (Some (JStr u), w')
          end in
      (* const task = existingTask || { ... } *)
      let '(r, w) :=
        match existingTask with
        | Some (_, r, _) => (r, w)
        | None =>
            let '(now, w') := Date_now w in
            alloc (mkTask tid cid
                     (mkTaskStatus TASK_STATES.WORKING None (Some now))
                     (Some []) (Some []) None) w'
        end in
      let '(now, w) := Date_now w in
      let w := modify r (with_status
                           (mkTaskStatus TASK_STATES.WORKING None (Some now))) w in
      let w := modify r (fun t => with_history (push (history t) msg) t) w in
      let w := with_tasks (map_set tid r (tasks w)) w in
      (Awaits (mkPending rid msg (mkMessageContext tid cid r)), w)
  end.

(** The structural checks of [params], in the order of the source; the
    result is the reason for INVALID_PARAMS, or the message. *)
Definition validateSendParams (params : option json) : string + json :=
  if negb (truthy params) || negb (bool_decide (typeof params = "object"))
  then inl "Invalid params"
  else
    let msg := prop_opt params "message" in
    if negb (truthy msg) then inl "Missing message"
    else if negb (bool_decide (typeof msg = "object"))
    then inl "Invalid message structure"
    else
      let parts := prop_opt msg "parts" in
      if negb (truthy parts) || negb (isArray parts)
      then inl "Missing or invalid message.parts"
      else if match parts with Some (JArr []) => true | _ => false end
      then inl "Message parts array must not be empty"
      else if negb (truthy (prop_opt msg "role")) then inl "Missing message.role"
      else if negb (truthy (prop_opt msg "messageId"))
      then inl "Missing message.messageId"
      else match msg with
           | Some m => inr m
           | None => inl "Missing message"
           end.

(** [handleMessageSend], up to the call of the handler callback. *)
Definition handleMessageSend (rid : option RpcId) (params : option json)
  (w : World) : Outcome * World :=
  match validateSendParams params with
  | inl reason =>
      respond (jsonRpcError rid JSONRPC_ERROR_CODES.INVALID_PARAMS reason w)
  | inr msg => acceptMessage rid msg w
  end.

(** [context.sendStatus(status)] *)
Definition sendStatus (ctx : MessageContext) (st : TaskStatus) (w : World)
  : World :=
  let '(now, w) := Date_now w in
  modify (target ctx)
    (with_status (mkTaskStatus (state st) (message st) (Some now))) w.

(** [context.sendArtifact(artifact)] *)
Definition sendArtifact (ctx : MessageContext) (artifact : json) (w : World)
  : World :=
  modify (target ctx) (fun t => with_artifacts (push (artifacts t) artifact) t) w.

(** The message of the status of a task whose handler threw:
    [{ role: 'agent', parts: [{ type: 'text', text: String(err) }] }] *)
Definition failureMessage (err : string) : json :=
  JObj [ ("role", JStr "agent");
         ("parts", JArr [ JObj [ ("type", JStr "text"); ("text", JStr err) ] ]) ].

(** [handleMessageSend] from the point where the awaited callback has
    returned or thrown. *)
Definition resumeMessageSend (p : Pending) (ret : HandlerReturn) (w : World)
  : JsonRpcResponse * World :=
  let r := target (pending_context p) in
  match ret with
  | ReturnsMessage msg =>
      let '(now, w) := Date_now w in
      let w := modify r (with_status
                 (mkTaskStatus TASK_STATES.COMPLETED (Some msg) (Some now))) w in
      let w := modify r (fun t => with_history (push (history t) msg) t) w in
      jsonRpcSuccess (pending_id p) (SendMessageResponse r) w
  | ReturnsWorking =>
      jsonRpcSuccess (pending_id p) (SendMessageResponse r) w
  | ReturnsTask t =>
      let '(r', w) := alloc t w in
      jsonRpcSuccess (pending_id p) (SendMessageResponse r') w
  | Throws err =>
      let '(now, w) := Date_now w in
      let w := modify r (with_status
                 (mkTaskStatus TASK_STATES.FAILED (Some (failureMessage err))
                    (Some now))) w in
      jsonRpcSuccess (pending_id p) (SendMessageResponse r) w
  end.

(** *** tasks/get *)

Definition lt_zero (v : json) : bool :=
  match ToNumber v with
  | Some n => (n <? 0)%Z
  | None => false
  end.

Definition ge_zero (v : json) : bool :=
  match ToNumber v with
  | Some n => (0 <=? n)%Z
  | None => false
  end.

(** [-v] as the argument of [slice]; NaN is taken as 0 there. *)
Definition negated (v : json) : Z :=
  match ToNumber v with
  | Some n => (- n)%Z
  | None => 0%Z
  end.

Definition handleTasksGet (rid : option RpcId) (params : option json)
  (w : World) : JsonRpcResponse * World :=
  if negb (truthy (prop_opt params "id"))
  then jsonRpcError rid JSONRPC_ERROR_CODES.INVALID_PARAMS "Missing task id" w
  else
    let historyLength := prop_opt params "historyLength" in
    if match historyLength with Some v => lt_zero v | None => false end
    then jsonRpcError rid JSONRPC_ERROR_CODES.INVALID_PARAMS
           "historyLength must be non-negative" w
    else
      match tasks_get w (prop_opt params "id") with
      | None => jsonRpcError rid A2A_ERROR_CODES.TASK_NOT_FOUND "Task not found" w
      | Some (_, r, task) =>
          let '(responseTask, w) :=
            match historyLength with
            | Some v =>
                if ge_zero v then
                  (* responseTask = { ...task } *)
                  let '(c, w) := alloc task w in
                  if strict_eq (Some v) (Some (JNum 0))
                  then (c, modify c (with_history None) w)
                  else
                    match history task with
                    | Some h =>
                        (c, modify c
                              (with_history (Some (slice h (negated v) None))) w)
                    | None => (c, w)
                    end
                else (r, w)
            | None => (r, w)
            end in
          jsonRpcSuccess rid (TaskResult responseTask) w
      end.

(** *** tasks/cancel *)

Definition handleTasksCancel (rid : option RpcId) (params : option json)
  (w : World) : JsonRpcResponse * World :=
  if negb (truthy (prop_opt params "id"))
  then jsonRpcError rid JSONRPC_ERROR_CODES.INVALID_PARAMS "Missing task id" w
  else
    match tasks_get w (prop_opt params "id") with
    | None => jsonRpcError rid A2A_ERROR_CODES.TASK_NOT_FOUND "Task not found" w
    | Some (_, r, task) =>
        if is_terminal (state (status task))
        then jsonRpcError rid A2A_ERROR_CODES.TASK_NOT_CANCELABLE
               "Task already in terminal state" w
        else
          let '(now, w) := Date_now w in
          let w := modify r (with_status
                     (mkTaskStatus TASK_STATES.CANCELED None (Some now))) w in
          jsonRpcSuccess rid (TaskResult r) w
    end.

(** *** tasks/list *)

(** [t.status.timestamp ? new Date(t.status.timestamp).getTime() : 0] *)
Definition status_time (t : Task) : Z :=
  match timestamp (status t) with
  | Some ms => ms
  | None => 0%Z
  end.

(** The comparator given to [tasks.sort]. *)
Definition compareFn (a b : Task) : Z := (status_time b - status_time a)%Z.

(** [Array.prototype.sort] is a stable sort: an element moves in front of
    another only when the comparator orders them strictly.  Elements are
    inserted from the right, each one in front of the part already sorted
    unless an element there has to come first. *)
Fixpoint sort_insert {A : Type} (cmp : A -> A -> Z) (x : A) (l : list A)
  : list A :=
  match l with
  | [] => [x]
  | y :: rest =>
      if (cmp y x <? 0)%Z then y :: sort_insert cmp x rest else x :: y :: rest
  end.

Definition Array_sort {A : Type} (cmp : A -> A -> Z) (l : list A) : list A :=
  foldr (sort_insert cmp) [] l.

(** The three tests of the filters of [handleTasksList]. *)
Definition hasContextId (c : string) (t : Task) : bool :=
  strict_eq (contextId t) (Some (JStr c)).

Definition hasState (s : string) (t : Task) : bool :=
  bool_decide (TaskState_string (state (status t)) = s).

Definition notBefore (after : Z) (t : Task) : bool :=
  match timestamp (status t) with
  | Some ms => (after <=? ms)%Z
  | None => false
  end.

(** The filters, applied in the order of the source; an empty string is
    falsy, so [if (contextId)] and [if (status)] skip it. *)
Definition filterTasks (contextId_ : option string) (status_ : option string)
  (timestampFilter : option Z) (l : list Task) : list Task :=
  let l := match contextId_ with
           | Some c =>
               if bool_decide (c = "") then l
               else filter (fun t => hasContextId c t = true) l
           | None => l
           end in
  let l := match status_ with
           | Some s =>
               if bool_decide (s = "") then l
               else filter (fun t => hasState s t = true) l
           | None => l
           end in
  match timestampFilter with
  | Some after => filter (fun t => notBefore after t = true) l
  | None => l
  end.

(** The object built for one task of the page. *)
Definition projectTask (historyLength : option Z) (includeArtifacts : bool)
  (t : Task) : Task :=
  let task := mkTask (id t) (contextId t) (status t) None None (metadata t) in
  let task :=
    match historyLength, history t with
    | Some 0%Z, _ => task
    | Some n, Some h => with_history (Some (slice h (- n) None)) task
    | None, Some h => with_history (Some h) task
    | _, None => task
    end in
  match includeArtifacts, artifacts t with
  | true, Some a => with_artifacts (Some a) task
  | _, _ => task
  end.

Fixpoint alloc_all (ts : list Task) (w : World) : list ref * World :=
  match ts with
  | [] => ([], w)
  | t :: rest =>
      let '(r, w) := alloc t w in
      let '(rs, w) := alloc_all rest w in
      (r :: rs, w)
  end.

(** The parameters of [tasks/list] after the [typeof] tests. *)
Record ListParams : Type := mkListParams {
  list_pageSize : Z;
  list_pageToken : option string;
  list_contextId : option string;
  list_status : option string;
  list_historyLength : option Z;
  list_statusTimestampAfter : option string;
  list_includeArtifacts : bool
}.

Definition as_number (v : option json) : option Z :=
  match v with
  | Some (JNum n) => Some n
  | _ => None
  end.

Definition as_string (v : option json) : option string :=
  match v with
  | Some (JStr s) => Some s
  | _ => None
  end.

Definition readListParams (params : option json) : ListParams :=
  let params := if truthy params then params else Some (JObj []) in
  mkListParams
    (default 50%Z (as_number (prop_opt params "pageSize")))
    (as_string (prop_opt params "pageToken"))
    (as_string (prop_opt params "contextId"))
    (as_string (prop_opt params "status"))
    (as_number (prop_opt params "historyLength"))
    (as_string (prop_opt params "statusTimestampAfter"))
    (strict_eq (prop_opt params "includeArtifacts") (Some (JBool true))).

(** The checks of [handleTasksList] that end in INVALID_PARAMS before any
    task is read; otherwise the parsed [statusTimestampAfter]. *)
Definition validateListParams (p : ListParams) : string + option Z :=
  if (list_pageSize p <? 1)%Z || (100 <? list_pageSize p)%Z
  then inl "pageSize must be between 1 and 100"
  else if match list_historyLength p with
          | Some n => (n <? 0)%Z
          | None => false
          end
  then inl "historyLength must be non-negative"
  else if match list_status p with
          | Some s => negb (bool_decide (s ∈ VALID_TASK_STATES))
          | None => false
          end
  then inl (String.append "Invalid status: " (default "" (list_status p)))
  else
    match list_statusTimestampAfter p with
    | Some s =>
        if negb (looksLikeDate s)
        then inl "Invalid statusTimestampAfter: must be ISO 8601 format"
        else
          match Date_parse s with
          | Some ms => inr (Some ms)
          | None => inl "Invalid statusTimestampAfter timestamp"
          end
    | None => inr None
    end.

(** The offset a page token stands for: [0] without a token, [None] for
    a token that is refused. *)
Definition decodePageToken (pageToken : option string) : option Z :=
  match pageToken with
  | Some tok =>
      if bool_decide (tok = "") then Some 0%Z
      else
        match parseInt tok with
        | Some decoded => if (decoded <? 0)%Z then None else Some decoded
        | None => None
        end
  | None => Some 0%Z
  end.

(** The body of [handleTasksList] once the parameters are read. *)
Definition listTasks (rid : option RpcId) (p : ListParams) (w : World)
  : JsonRpcResponse * World :=
  match validateListParams p with
  | inl reason => jsonRpcError rid JSONRPC_ERROR_CODES.INVALID_PARAMS reason w
  | inr timestampFilter =>
      let all := filterTasks (list_contextId p) (list_status p) timestampFilter
                   (tasks_values w) in
      let sorted := Array_sort compareFn all in
      let totalSize := length sorted in
      match decodePageToken (list_pageToken p) with
      | None =>
          jsonRpcError rid JSONRPC_ERROR_CODES.INVALID_PARAMS "Invalid pageToken" w
      | Some startIndex =>
          let pageTasks :=
            slice sorted startIndex (Some (startIndex + list_pageSize p)%Z) in
          let '(resultTasks, w) :=
            alloc_all (map (projectTask (list_historyLength p)
                              (list_includeArtifacts p)) pageTasks) w in
          let nextStartIndex := (startIndex + list_pageSize p)%Z in
          let nextPageToken :=
            if (nextStartIndex <? Z.of_nat totalSize)%Z
            then String_of_number nextStartIndex else "" in
          jsonRpcSuccess rid
            (ListTasksResponse resultTasks nextPageToken (length resultTasks)
               totalSize) w
      end
  end.

Definition handleTasksList (rid : option RpcId) (params : option json)
  (w : World) : JsonRpcResponse * World :=
  listTasks rid (readListParams params) w.

(** A caller that reads the whole listing: it asks for the first page and
    then, as long as [nextPageToken] is not empty, for the page that the
    token names, with the other parameters unchanged.  The result is the
    ids of the tasks received, in the order received; [None] when a
    request is refused or [fuel] requests were not enough. *)
Definition with_pageToken (tok : string) (p : ListParams) : ListParams :=
  mkListParams (list_pageSize p) (Some tok) (list_contextId p) (list_status p)
    (list_historyLength p) (list_statusTimestampAfter p)
    (list_includeArtifacts p).

Definition read_tasks (w : World) (refs : list ref) : option (list Task) :=
  mapM (fun r => heap w !! r) refs.

Fixpoint followPages (fuel : nat) (rid : option RpcId) (p : ListParams)
  (tok : string) (w : World) : option (list string) :=
  match fuel with
  | O => None
  | S fuel' =>
      let '(resp, w') := listTasks rid (with_pageToken tok p) w in
      match result resp with
      | Some (ListTasksResponse refs next _ _) =>
          match read_tasks w' refs with
          | Some page =>
              if bool_decide (next = "") then Some (map id page)
              else
                match followPages fuel' rid p next w' with
                | Some more => Some (map id page ++ more)
                | None => None
                end
          | None => None
          end
      | _ => None
      end
  end.

(** *** Routing *)

Record JsonRpcRequest : Type := mkJsonRpcRequest {
  request_id : option RpcId;
  method : string;
  params : option json
}.

(** [routeMethod].  None of the handlers below has a statement that can
    throw, so the [catch] that answers INTERNAL_ERROR is never entered;
    the promise of [handleMessageSend] is returned without being awaited
    inside the [try]. *)
Definition routeMethod (request : JsonRpcRequest) (w : World)
  : Outcome * World :=
  let rid := request_id request in
  let normalizedMethod := normalizeMethodName (method request) in
  if bool_decide (normalizedMethod = "message/send")
  then handleMessageSend rid (params request) w
  else if bool_decide (normalizedMethod = "tasks/get")
  then respond (handleTasksGet rid (params request) w)
  else if bool_decide (normalizedMethod = "tasks/cancel")
  then respond (handleTasksCancel rid (params request) w)
  else if bool_decide (normalizedMethod = "tasks/list")
  then respond (handleTasksList rid (params request) w)
  else if bool_decide (normalizedMethod = "agent/card")
  then respond (jsonRpcSuccess rid AgentCardResult w)
  else respond (jsonRpcError rid JSONRPC_ERROR_CODES.METHOD_NOT_FOUND
                  (String.append "Method not found: " (method request)) w).

(** [handleJsonRpc]: [authorized] is the verdict of [validateAuth],
    [parsed] the outcome of [JSON.parse(body)] ([None] when it throws).
    The first component of an immediate answer is the HTTP status. *)
Definition handleJsonRpc (authorized : bool) (parsed : option json) (w : World)
  : (Z * JsonRpcResponse + Pending) * World :=
  if negb authorized then
    let '(resp, w) :=
      jsonRpcError None JSONRPC_ERROR_CODES.INTERNAL_ERROR "Unauthorized" w in
    (inl (401%Z, resp), w)
  else
    match parsed with
    | None =>
        let '(resp, w) :=
          jsonRpcError None JSONRPC_ERROR_CODES.PARSE_ERROR "Parse error" w in
        (inl (200%Z, resp), w)
    | Some req =>
        let validation := validateJsonRpcRequestDetailed req in
        if negb (valid validation) then
          let '(resp, w) :=
            jsonRpcError (validation_id validation) (validation_code validation)
              (validation_message validation) w in
          (inl (200%Z, resp), w)
        else
          let request :=
            mkJsonRpcRequest (validation_id validation)
              (default "" (as_string (prop req "method")))
              (prop req "params") in
          match routeMethod request w with
          | (Responds resp, w) => (inl (200%Z, resp), w)
          | (Awaits p, w) => (inr p, w)
          end
    end.

(** *** The server as a transition system

    One event is one run of server code between two suspension points. *)
Inductive Event : Type :=
  | Request (request : JsonRpcRequest)
  | CallbackReturn (p : Pending) (ret : HandlerReturn)
  | SendStatus (ctx : MessageContext) (st : TaskStatus)
  | SendArtifact (ctx : MessageContext) (artifact : json)
  | ClearTasks.

Definition step (w : World) (e : Event) : World :=
  match e with
  | Request request => snd (routeMethod request w)
  | CallbackReturn p ret => snd (resumeMessageSend p ret w)
  | SendStatus ctx st => sendStatus ctx st w
  | SendArtifact ctx artifact => sendArtifact ctx artifact w
  | ClearTasks => with_tasks [] w
  end.

Definition run (w : World) (trace : list Event) : World := foldl step w trace.

End Server.

(** ** The HTTP entry point ([handleRequest]) *)

(** What [handleRequest] writes to the response: the status given to
    [writeHead] and the value whose JSON text is given to [end]. *)
Inductive HttpBody : Type :=
  | EmptyBody
  | AgentCardBody
  | JsonRpcBody (response : JsonRpcResponse)
  | HealthBody (size : nat)
  | ErrorBody (error_text : string).

Record HttpResponse : Type := mkHttpResponse {
  statusCode : Z;
  body : HttpBody
}.

(** What becomes of a request: [handleRequest] writes a response, or it
    is suspended at the call of the handler callback inside
    [handleJsonRpc], or, when [new URL] throws before the [try] is
    entered, its promise is rejected and nothing is written. *)
Inductive HttpOutcome : Type :=
  | Answered (response : HttpResponse)
  | Suspended (p : Pending)
  | Unanswered.

(** [handleRequest] for a request with method [httpMethod].  [pathname] is
    [url.pathname] of [new URL(req.url || '/', `http://${req.headers.host}`)],
    and [None] when that constructor throws (a request target or a Host
    header that is no URL); [authorized] and [parsed] are what
    [handleJsonRpc] gets from [validateAuth] and from the body.  The
    [catch] that answers 500 is entered only when [validateAuth], the
    reading of the body or [JSON.stringify] throws, which is left out
    here. *)
Definition handleRequest {R : Runtime} (httpMethod : string)
  (pathname : option string) (authorized : bool) (parsed : option json)
  (w : World) : HttpOutcome * World :=
  if bool_decide (httpMethod = "OPTIONS")
  then (Answered (mkHttpResponse 204 EmptyBody), w)
  else
    match pathname with
    | None => (Unanswered, w)
    | Some pathname =>
        if (bool_decide (pathname = "/.well-known/agent-card.json")
            || bool_decide (pathname = "/.well-known/agent.json"))
           && bool_decide (httpMethod = "GET")
        then (Answered (mkHttpResponse 200 AgentCardBody), w)
        else if (bool_decide (pathname = "/") || bool_decide (pathname = "/rpc"))
                && bool_decide (httpMethod = "POST")
        then
          match handleJsonRpc authorized parsed w with
          | (inl (st, resp), w) =>
              (Answered (mkHttpResponse st (JsonRpcBody resp)), w)
          | (inr p, w) => (Suspended p, w)
          end
        else if bool_decide (pathname = "/health")
                && bool_decide (httpMethod = "GET")
        then (Answered (mkHttpResponse 200 (HealthBody (length (tasks w)))), w)
        else (Answered (mkHttpResponse 404 (ErrorBody "Not found")), w)
    end.

(** ** The echo agent behind the relay ([test-relay-agent.ts]) *)

(** The agent that [test-relay-agent.ts] connects to the relay keeps a
    map of tasks of its own; its state is a [World] of its own.  Of its
    request handlers, message/send and tasks/cancel are embedded. *)
Module RelayAgent.

(** What an element contributes to [Array.prototype.join]: nothing for
    [null] and [undefined], its ToString otherwise; the ToString of an
    array is the join of its elements with a comma. *)
Fixpoint joinText (v : json) : string :=
  match v with
  | JNull => ""
  | JBool true => "true"
  | JBool false => "false"
  | JNum n => String_of_number n
  | JStr s => s
  | JArr items =>
      String.concat ","
        ((fix each (l : list json) : list string :=
            match l with
            | [] => []
            | x :: rest => joinText x :: each rest
            end) items)
  | JObj _ => "[object Object]"
  end.

(** [p.type === 'text' || p.text] as a filter test; reading a property
    of [null] throws ([None]). *)
Definition isTextPart (p : json) : option bool :=
  match p with
  | JNull => None
  | _ => Some (strict_eq (prop p "type") (Some (JStr "text"))
               || truthy (prop p "text"))
  end.

(** [parts.filter(...).map(p => p.text).join(' ')]; [None] when it
    throws: [parts] is not an array, or one of its elements is [null]. *)
Definition extractText (parts : json) : option string :=
  match parts with
  | JArr items =>
      match mapM isTextPart items with
      | Some _ =>
          Some (String.concat " "
                  (map (fun p => match prop p "text" with
                                 | Some v => joinText v
                                 | None => ""
                                 end)
                     (filter (fun p => isTextPart p = Some true) items)))
      | None => None
      end
  | _ => None
  end.

(** The [JsonRpcResponse] objects the agent builds: the [id] is the one
    of the request, whatever it is. *)
Record AgentResponse : Type := mkAgentResponse {
  agent_id : option json;
  agent_result : option Result;
  agent_error : option JsonRpcError
}.

(** [{ role: 'agent', parts: [{ type: 'text', text: `Echo: ${text}` }] }] *)
Definition echoMessage (text : string) : json :=
  JObj [ ("role", JStr "agent");
         ("parts", JArr [ JObj [ ("type", JStr "text");
                                 ("text", JStr (String.append "Echo: " text)) ] ]) ].

Section Agent.
Context {R : Runtime}.

(** [handleMessageSend]; [None] when it throws.  The task is always a
    new one: a [taskId] of the message is not looked at. *)
Definition handleMessageSend (rid : option json) (params : option json)
  (w : World) : option (AgentResponse * World) :=
  let message := prop_opt params "message" in
  let missing :=
    Some (mkAgentResponse rid None
            (Some (mkJsonRpcError JSONRPC_ERROR_CODES.INVALID_PARAMS
                     "Missing message.parts")), w) in
  match message with
  | Some msg =>
      match prop msg "parts" with
      | Some parts =>
          if negb (truthy message) || negb (truthy (Some parts)) then missing
          else
            match extractText parts with
            | Some text =>
                let '(taskId, w) := randomUUID w in
                let '(contextId, w) :=
                  if truthy (prop msg "contextId") then (prop msg "contextId", w)
                  else let '(u, w') := randomUUID w in (Some (JStr u), w') in
                let responseMessage := echoMessage text in
                let '(now, w) := Date_now w in
                let '(r, w) :=
                  alloc (mkTask taskId contextId
                           (mkTaskStatus TASK_STATES.COMPLETED
                              (Some responseMessage) (Some now))
                           (Some []) (Some [msg; responseMessage]) None) w in
                let w := with_tasks (map_set taskId r (tasks w)) w in
                Some (mkAgentResponse rid (Some (SendMessageResponse r)) None, w)
            | None => None
            end
      | None => missing
      end
  | None => missing
  end.

(** [handleTasksCancel]: no state is looked at. *)
Definition handleTasksCancel (rid : option json) (params : option json)
  (w : World) : AgentResponse * World :=
  match tasks_get w (prop_opt params "id") with
  | None =>
      (mkAgentResponse rid None
         (Some (mkJsonRpcError A2A_ERROR_CODES.TASK_NOT_FOUND
                  "Task not found")), w)
  | Some (_, r, _) =>
      let '(now, w) := Date_now w in
      let w := modify r (with_status
                 (mkTaskStatus TASK_STATES.CANCELED None (Some now))) w in
      (mkAgentResponse rid (Some (TaskResult r)) None, w)
  end.

End Agent.

End RelayAgent.

(** ** The relay client ([relay-client.ts]) *)

Module RelayClient.

(** [WebSocket.readyState] *)
Inductive ReadyState : Set := CONNECTING | OPEN | CLOSING | CLOSED.

(** The state of a promise. *)
Inductive Settlement : Set := Unsettled | Resolved | Rejected.

(** The promise made by one call of [doConnect]; [reconnecting] tells
    that the call came from the reconnect timer, which attaches a
    [catch] to it. *)
Record ConnectPromise : Set := mkConnectPromise {
  settlement : Settlement;
  reconnecting : bool
}.

Record RelayClientConfig : Type := mkRelayClientConfig {
  relayUrl : string;
  token : string;
  tenant : string;
  agentId : string;
  agentCard : json;
  (** the request handler: the [(result, error)] of its response, or the
      text of what it throws *)
  onRequest : json -> string + (option json * option json);
  autoReconnect : bool;
  reconnectDelay : Z
}.

(** The constructor's defaults: [autoReconnect: true],
    [reconnectDelay: 5000]. *)
Definition defaultConfig (url tok ten agent : string) (card : json)
  (handler : json -> string + (option json * option json))
  : RelayClientConfig :=
  mkRelayClientConfig url tok ten agent card handler true 5000.

(** The fields of the client, then what the runtime holds for it: every
    socket it has created (a socket is named by its position), the
    promise of the [doConnect] that created it, the frames sent, and the
    number of timers started. *)
Record Client : Type := mkClient {
  config : RelayClientConfig;
  ws : option nat;
  reconnectTimer : option nat;
  isConnected : bool;
  isStopping : bool;
  sockets : list ReadyState;
  promises : list ConnectPromise;
  sent : list (nat * json);
  timers : nat
}.

Definition create (cfg : RelayClientConfig) : Client :=
  mkClient cfg None None false false [] [] [] 0.

Definition set_ws (v : option nat) (c : Client) : Client :=
  mkClient (config c) v (reconnectTimer c) (isConnected c) (isStopping c)
    (sockets c) (promises c) (sent c) (timers c).

Definition set_isConnected (b : bool) (c : Client) : Client :=
  mkClient (config c) (ws c) (reconnectTimer c) b (isStopping c)
    (sockets c) (promises c) (sent c) (timers c).

Definition set_isStopping (b : bool) (c : Client) : Client :=
  mkClient (config c) (ws c) (reconnectTimer c) (isConnected c) b
    (sockets c) (promises c) (sent c) (timers c).

Definition set_reconnectTimer (t : option nat) (c : Client) : Client :=
  mkClient (config c) (ws c) t (isConnected c) (isStopping c)
    (sockets c) (promises c) (sent c) (timers c).

Definition set_sockets (l : list ReadyState) (c : Client) : Client :=
  mkClient (config c) (ws c) (reconnectTimer c) (isConnected c) (isStopping c)
    l (promises c) (sent c) (timers c).

Definition set_promises (l : list ConnectPromise) (c : Client) : Client :=
  mkClient (config c) (ws c) (reconnectTimer c) (isConnected c) (isStopping c)
    (sockets c) l (sent c) (timers c).

(** [socket.send(JSON.stringify(frame))] *)
Definition socket_send (s : nat) (frame : json) (c : Client) : Client :=
  mkClient (config c) (ws c) (reconnectTimer c) (isConnected c) (isStopping c)
    (sockets c) (promises c) (sent c ++ [(s, frame)]) (timers c).

(** [socket.close()]: the closing handshake starts; the ['close'] event
    comes later. *)
Definition socket_close (s : nat) (c : Client) : Client :=
  set_sockets
    (alter (fun st => match st with CLOSED => CLOSED | _ => CLOSING end) s
       (sockets c)) c.

(** [setTimeout(...)] in [scheduleReconnect] *)
Definition scheduleReconnect (c : Client) : Client :=
  match reconnectTimer c with
  | Some _ => c
  | None =>
      mkClient (config c) (ws c) (Some (timers c)) (isConnected c)
        (isStopping c) (sockets c) (promises c) (sent c) (S (timers c))
  end.

(** A promise settles once. *)
Definition resolve (p : nat) (c : Client) : Client :=
  set_promises
    (alter (fun cp => match settlement cp with
                      | Unsettled => mkConnectPromise Resolved (reconnecting cp)
                      | _ => cp
                      end) p (promises c)) c.

(** [reject(err)]; the promise of a reconnect attempt has the [catch]
    that schedules the next attempt. *)
Definition reject (p : nat) (c : Client) : Client :=
  match promises c !! p with
  | Some (mkConnectPromise Unsettled from_timer) =>
      let c := set_promises
                 (<[p := mkConnectPromise Rejected from_timer]> (promises c)) c in
      if from_timer && autoReconnect (config c) && negb (isStopping c)
      then scheduleReconnect c else c
  | _ => c
  end.

(** [doConnect]: a new promise and a new socket. *)
Definition doConnect (from_timer : bool) (c : Client) : Client :=
  let s := length (sockets c) in
  mkClient (config c) (Some s) (reconnectTimer c) (isConnected c)
    (isStopping c) (sockets c ++ [CONNECTING])
    (promises c ++ [mkConnectPromise Unsettled from_timer]) (sent c) (timers c).

Definition connect (c : Client) : Client :=
  doConnect false (set_isStopping false c).

Definition sendAuth (c : Client) : Client :=
  match ws c with
  | None => c
  | Some s =>
      socket_send s
        (JObj [ ("type", JStr "auth");
                ("token", JStr (token (config c)));
                ("tenant", JStr (tenant (config c)));
                ("agent_id", JStr (agentId (config c)));
                ("agent_card", agentCard (config c)) ]) c
  end.

Definition optional_field (k : string) (v : option json)
  : list (string * json) :=
  match v with
  | Some x => [(k, x)]
  | None => []
  end.

Definition sendResponse (relayRequestId : option json)
  (res err : option json) (c : Client) : Client :=
  match ws c with
  | Some s =>
      match sockets c !! s with
      | Some OPEN =>
          socket_send s
            (JObj [ ("type", JStr "a2a.response");
                    ("payload",
                     JObj (optional_field "id" relayRequestId
                           ++ optional_field "result" res
                           ++ optional_field "error" err)) ]) c
      | _ => c
      end
  | None => c
  end.

(** [handleMessage(msg, onConnected)], where [onConnected] resolves the
    promise [p]. *)
Definition handleMessage (msg : json) (p : nat) (c : Client) : Client :=
  if strict_eq (prop msg "type") (Some (JStr "auth_ok")) then
    resolve p (set_isConnected true c)
  else if strict_eq (prop msg "type") (Some (JStr "auth_error")) then
    match ws c with
    | Some s => socket_close s c
    | None => c
    end
  else if strict_eq (prop msg "type") (Some (JStr "a2a.request"))
          && truthy (prop msg "payload") then
    let requestId := prop_opt (prop msg "payload") "id" in
    match prop_opt (prop msg "payload") "params" with
    | None | Some JNull => c
    | Some jsonRpcRequest =>
        match onRequest (config c) jsonRpcRequest with
        | inr (res, err) => sendResponse requestId res err c
        | inl thrown =>
            sendResponse requestId None
              (Some (JObj [ ("code", JNum (-32603));
                            ("message", JStr thrown) ])) c
        end
    end
  else if strict_eq (prop msg "type") (Some (JStr "ping")) then
    match ws c with
    | Some s => socket_send s (JObj [ ("type", JStr "pong") ]) c
    | None => c
    end
  else c.

Definition disconnect (c : Client) : Client :=
  let c := set_isStopping true c in
  let c := set_reconnectTimer None c in
  let c := match ws c with
           | Some s => set_ws None (socket_close s c)
           | None => c
           end in
  set_isConnected false c.

(** What can happen to a client: a call of its interface, an event of the
    socket [s] (handled by the listeners that the [doConnect] which made
    [s] has registered), or the reconnect timer. *)
Inductive Event : Type :=
  | Connect
  | Disconnect
  | OnOpen (s : nat)
  | OnMessage (s : nat) (data : option json)
  | OnClose (s : nat)
  | OnError (s : nat)
  | TimerFired.

Definition step (c : Client) (e : Event) : Client :=
  match e with
  | Connect => connect c
  | Disconnect => disconnect c
  | OnOpen s => sendAuth (set_sockets (<[s := OPEN]> (sockets c)) c)
  | OnMessage s (Some msg) => handleMessage msg s c
  | OnMessage s None => c
  | OnClose s =>
      let c := set_sockets (<[s := CLOSED]> (sockets c)) c in
      let c := set_ws None (set_isConnected false c) in
      if negb (isStopping c) && autoReconnect (config c)
      then scheduleReconnect c else c
  | OnError s => if negb (isConnected c) then reject s c else c
  | TimerFired =>
      match reconnectTimer c with
      | Some _ => doConnect true (set_reconnectTimer None c)
      | None => c
      end
  end.

Definition run (c : Client) (trace : list Event) : Client :=
  foldl step c trace.

End RelayClient.

(** ** Vocabulary of the properties *)

(** The last [n] elements of a list, in their order. *)
Definition lastn {A : Type} (n : nat) (l : list A) : list A :=
  drop (length l - n) l.

(** A history (a field that may be absent) continues another one. *)
Definition history_extends (h h' : option (list json)) : Prop :=
  match h, h' with
  | Some a, Some b => a `prefix_of` b
  | None, _ => True
  | Some _, None => False
  end.

(** What stays of a task object whatever is done to it: its [id],
    [contextId] and [metadata]; its history may only grow at the end. *)
Definition task_evolves (t t' : Task) : Prop :=
  id t' = id t ∧ contextId t' = contextId t ∧ metadata t' = metadata t
  ∧ history_extends (history t) (history t').

Definition heap_evolves (h h' : list Task) : Prop :=
  forall r t, h !! r = Some t -> exists t', h' !! r = Some t' ∧ task_evolves t t'.

(** Objects that exist are left as they are. *)
Definition heap_preserved (h h' : list Task) : Prop :=
  forall r t, h !! r = Some t -> h' !! r = Some t.

(** The keys of the map, in insertion order. *)
Definition keys (w : World) : list string := map fst (tasks w).

(** The map is well formed: no key twice, and each key leads to an
    existing task object that carries the key as its [id]. *)
Definition store_wf (w : World) : Prop :=
  NoDup (keys w)
  ∧ forall k r, (k, r) ∈ tasks w -> exists t, heap w !! r = Some t ∧ id t = k.

(** Every key of the map came out of [randomUUID()]. *)
Definition keys_generated {R : Runtime} (w : World) : Prop :=
  forall k r, (k, r) ∈ tasks w -> exists i, i < uuids w ∧ k = uuid_at i.

(** [x] comes before [y] in [l]. *)
Definition precedes {A : Type} (x y : A) (l : list A) : Prop :=
  [x; y] `sublist_of` l.

(** The [contextId] of a task made for a message without [taskId]: the
    one of the message, or else the second UUID drawn. *)
Definition new_task_context {R : Runtime} (msg : json) (w : World)
  : option json :=
  if truthy (prop msg "contextId") then prop msg "contextId"
  else Some (JStr (uuid_at (S (uuids w)))).

(** The tasks that pass the filters of a [tasks/list] request, in the
    order of the map, and the same tasks in the order of the listing. *)
Definition selected (p : ListParams) (timestampFilter : option Z) (w : World)
  : list Task :=
  filterTasks (list_contextId p) (list_status p) timestampFilter
    (tasks_values w).

Definition listing (p : ListParams) (timestampFilter : option Z) (w : World)
  : list Task :=
  Array_sort compareFn (selected p timestampFilter w).

(** The tasks of the page that starts at [start]. *)
Definition page_of (p : ListParams) (timestampFilter : option Z) (w : World)
  (start : Z) : list Task :=
  slice (listing p timestampFilter w) start (Some (start + list_pageSize p)%Z).

(** How one run of server code can change the state: it leaves the map
    alone or empties it, while objects evolve and new ones appear; or it
    enters one new object under a UUID just drawn. *)
Definition step_shape {R : Runtime} (w w' : World) : Prop :=
  uuids w <= uuids w'
  ∧ (((tasks w' = tasks w ∨ tasks w' = [])
      ∧ heap_evolves (heap w) (heap w'))
     ∨ (tasks w' = map_set (uuid_at (uuids w)) (length (heap w)) (tasks w)
        ∧ uuids w < uuids w'
        ∧ exists t, heap w' = heap w ++ [t] ∧ id t = uuid_at (uuids w))).

(** The events that belong to message/send: the request itself and the
    return of its handler callback. *)
Definition is_message_send (e : Event) : bool :=
  match e with
  | Request request =>
      bool_decide (normalizeMethodName (method request) = "message/send")
  | CallbackReturn _ _ => true
  | _ => false
  end.

(** The requests that only read: tasks/get and tasks/list. *)
Definition is_read (e : Event) : bool :=
  match e with
  | Request request =>
      bool_decide (normalizeMethodName (method request) = "tasks/get")
      || bool_decide (normalizeMethodName (method request) = "tasks/list")
  | _ => false
  end.

(** A string that begins with a decimal digit. *)
Definition head_digit (s : string) : Prop :=
  match s with
  | String c _ => exists d, (0 <= d < 10)%Z ∧ c = digit_char d
  | EmptyString => False
  end.

(** The writes that server code makes to a task object once it exists:
    a new status stamped with the clock, one more message at the end of
    the history, one more artifact at the end of the artifacts. *)
Inductive touched : Task -> Task -> Prop :=
  | touched_refl t : touched t t
  | touched_status t t' s m z :
      touched t t' ->
      touched t (with_status (mkTaskStatus s m (Some z)) t')
  | touched_message t t' x :
      touched t t' ->
      touched t (with_history (push (history t') x) t')
  | touched_artifact t t' a :
      touched t t' ->
      touched t (with_artifacts (push (artifacts t') a) t').

Definition heap_touched (h h' : list Task) : Prop :=
  forall r t, h !! r = Some t -> exists t', h' !! r = Some t' ∧ touched t t'.

(** The task object that message/send makes for a message that names no
    task. *)
Definition fresh_task {R : Runtime} (msg : json) (w : World) : Task :=
  mkTask (uuid_at (uuids w)) (new_task_context msg w)
    (mkTaskStatus TASK_STATE_WORKING None (Some (now_at (S (ticks w)))))
    (Some []) (Some [msg]) None.

(** What one run of server code for a request or for the handler does to
    the state: the counters do not go back, and either the map stays and
    objects are only touched (new objects may appear beside them), or one
    new task enters the map. *)
Definition step_effect {R : Runtime} (w w' : World) : Prop :=
  uuids w <= uuids w' ∧ ticks w <= ticks w'
  ∧ ((tasks w' = tasks w ∧ heap_touched (heap w) (heap w'))
     ∨ (exists msg,
          tasks w' = map_set (uuid_at (uuids w)) (length (heap w)) (tasks w)
          ∧ heap w' = heap w ++ [fresh_task msg w]
          ∧ uuids w < uuids w')).

(** The requests that [routeMethod] hands to [handleMessageSend]. *)
Definition is_send_request (e : Event) : bool :=
  match e with
  | Request request =>
      bool_decide (normalizeMethodName (method request) = "message/send")
  | _ => false
  end.

(** A task object that message/send has made, with the writes made to it
    since; and a map all of whose tasks are such objects. *)
Definition made {R : Runtime} (t : Task) : Prop :=
  exists msg w0, touched (fresh_task msg w0) t.

Definition store_made {R : Runtime} (w : World) : Prop :=
  forall k r, (k, r) ∈ tasks w -> exists t, heap w !! r = Some t ∧ made t.

(** The calls of [connect()] among the events of a relay client. *)
Definition is_connect (e : RelayClient.Event) : bool :=
  match e with
  | RelayClient.Connect => true
  | _ => false
  end.

(** A text that begins as the test [/^\d{4}-\d{2}-\d{2}/] asks: four
    digits, a hyphen, two digits, a hyphen, two digits. *)
Definition decimal_digit (c : ascii) : Prop :=
  (48 <= nat_of_ascii c <= 57)%nat.

Definition begins_with_date (x : string) : Prop :=
  exists y1 y2 y3 y4 m1 m2 d1 d2 rest,
    x = String y1 (String y2 (String y3 (String y4 (String "-"
          (String m1 (String m2 (String "-"
             (String d1 (String d2 rest)))))))))
    ∧ Forall decimal_digit [y1; y2; y3; y4; m1; m2; d1; d2].

(** What a caller of tasks/list sends and reads.  [set_prop k v fields]
    is the object [{ ...fields, k: v }]; [page_request fields tok] is the
    [params] of the request for the page that the token [tok] names, or
    for the first page when there is no token. *)
Definition set_prop (k : string) (v : json) (fields : list (string * json))
  : list (string * json) :=
  (k, v) :: filter (fun kv => kv.1 ≠ k) fields.

Definition page_request (fields : list (string * json)) (tok : option string)
  : option json :=
  Some (JObj (match tok with
              | Some t => set_prop "pageToken" (JStr t) fields
              | None => fields
              end)).

(** A caller that reads the whole listing: it sends [fields] as [params],
    and then, as long as the [nextPageToken] it received is not empty,
    the same [params] with that token as [pageToken].  The result is the
    ids of the tasks received, in the order received; [None] when a
    request is refused or [fuel] requests were not enough. *)
Fixpoint collectPages {R : Runtime} (fuel : nat) (rid : option RpcId)
  (fields : list (string * json)) (tok : option string) (w : World)
  : option (list string) :=
  match fuel with
  | O => None
  | S fuel' =>
      let '(resp, w') := handleTasksList rid (page_request fields tok) w in
      match result resp with
      | Some (ListTasksResponse refs next _ _) =>
          match read_tasks w' refs with
          | Some page =>
              if bool_decide (next = "") then Some (map id page)
              else
                match collectPages fuel' rid fields (Some next) w' with
                | Some more => Some (map id page ++ more)
                | None => None
                end
          | None => None
          end
      | _ => None
      end
  end.

(** ** A sample runtime and sample requests, used to run the model *)

Definition sample_uuid (k : nat) : string :=
  String.append "uuid-" (String_of_number (Z.of_nat k)).

Definition sample_runtime : Runtime :=
  {| uuid_at := sample_uuid;
     now_at := fun k => (1700000000000 + 1000 * Z.of_nat k)%Z;
     Date_parse := fun s =>
       if bool_decide (s = "2023-11-14T22:13:21.000Z")
       then Some 1700000001000%Z else None;
     StringToNumber := parseInt;
     ObjectToString := fun _ => "[object Object]" |}.

Definition text_message (messageId text : string) : json :=
  JObj [ ("messageId", JStr messageId); ("role", JStr "user");
         ("parts", JArr [ JObj [ ("text", JStr text) ] ]) ].

Definition continuation (messageId text task : string) : json :=
  JObj [ ("messageId", JStr messageId); ("role", JStr "user");
         ("parts", JArr [ JObj [ ("text", JStr text) ] ]);
         ("taskId", JStr task) ].

Definition send_request (n : Z) (msg : json) : JsonRpcRequest :=
  mkJsonRpcRequest (Some (IdNum n)) "message/send"
    (Some (JObj [ ("message", msg) ])).

Definition task_request (n : Z) (method_ task : string) : JsonRpcRequest :=
  mkJsonRpcRequest (Some (IdNum n)) method_ (Some (JObj [ ("id", JStr task) ])).

(** A task that has received three messages and is still WORKING. *)
Definition sample_trace : list Event :=
  [ Request (send_request 1 (text_message "m1" "one"));
    Request (send_request 2 (continuation "m2" "two" "uuid-0"));
    Request (send_request 3 (continuation "m3" "three" "uuid-0")) ].

Definition sample_world : World := @run sample_runtime empty_world sample_trace.

(** What the first request of [sample_trace] leaves waiting. *)
Definition sample_context : MessageContext :=
  mkMessageContext "uuid-0" (Some (JStr "uuid-1")) 0.

Definition sample_pending : Pending :=
  mkPending (Some (IdNum 1)) (text_message "m1" "one") sample_context.

(** The state in which the first request of [sample_trace] leaves the
    server. *)
Definition sample_started : World :=
  @step sample_runtime empty_world
    (Request (send_request 1 (text_message "m1" "one"))).

(** The same task after a tasks/cancel. *)
Definition sample_canceled : World :=
  @step sample_runtime sample_world
    (Request (task_request 4 "tasks/cancel" "uuid-0")).

(** Three tasks, one per message. *)
Definition sample_three : World :=
  @run sample_runtime empty_world
    [ Request (send_request 1 (text_message "m1" "one"));
      Request (send_request 2 (text_message "m2" "two"));
      Request (send_request 3 (text_message "m3" "three")) ].

Definition task_state_at (w : World) (r : nat) : option TaskState :=
  (fun t => state (status t)) <$> heap w !! r.

(** The frame [{ type: 'auth_error', error }] and the events of a
    connection attempt that the relay refuses: the call of [connect], the
    socket opening, the frame, and the socket closing after
    [this.ws.close()]. *)
Definition auth_error_frame (e : json) : json :=
  JObj [ ("type", JStr "auth_error"); ("error", e) ].

Definition refused_connection (e : json) : list RelayClient.Event :=
  [ RelayClient.Connect; RelayClient.OnOpen 0;
    RelayClient.OnMessage 0 (Some (auth_error_frame e));
    RelayClient.OnClose 0 ].

(** A relay client configuration with the defaults, one that does not
    reconnect, and a client whose first socket has opened. *)
Definition sample_config : RelayClient.RelayClientConfig :=
  RelayClient.defaultConfig "wss://relay.example.com/agent" "token" "tenant"
    "agent-1" (JObj [ ("name", JStr "Echo") ])
    (fun _ => inr (Some (JObj []), None)).

Definition sample_config_once : RelayClient.RelayClientConfig :=
  RelayClient.mkRelayClientConfig "wss://relay.example.com/agent" "token"
    "tenant" "agent-1" (JObj [ ("name", JStr "Echo") ])
    (fun _ => inr (Some (JObj []), None)) false 5000.

Definition sample_client : RelayClient.Client :=
  RelayClient.run (RelayClient.create sample_config)
    [ RelayClient.Connect; RelayClient.OnOpen 0 ].

(** The three tasks of [sample_three] after the second has been canceled:
    the canceled task carries the latest status time. *)
Definition sample_mixed : World :=
  @step sample_runtime sample_three
    (Request (task_request 4 "tasks/cancel" "uuid-2")).

(** ** Properties of the server *)

Section ServerProperties.
Context {R : Runtime}.

(** *** The response helpers *)

Lemma jsonRpcSuccess_fst rid res w :
  result (fst (jsonRpcSuccess rid res w)) = Some res
  ∧ error (fst (jsonRpcSuccess rid res w)) = None
  ∧ response_id (fst (jsonRpcSuccess rid res w))
    = Some (default (IdStr (uuid_at (uuids w))) rid).
Proof. destruct rid; simpl; auto. Qed.

Lemma jsonRpcSuccess_snd rid res w :
  tasks (snd (jsonRpcSuccess rid res w)) = tasks w
  ∧ heap (snd (jsonRpcSuccess rid res w)) = heap w
  ∧ ticks (snd (jsonRpcSuccess rid res w)) = ticks w
  ∧ uuids w <= uuids (snd (jsonRpcSuccess rid res w)).
Proof. destruct rid; simpl; auto with lia. Qed.

Lemma jsonRpcError_fst rid c msg w :
  result (fst (jsonRpcError rid c msg w)) = None
  ∧ error (fst (jsonRpcError rid c msg w)) = Some (mkJsonRpcError c msg)
  ∧ response_id (fst (jsonRpcError rid c msg w))
    = Some (default (IdStr (uuid_at (uuids w))) rid).
Proof. destruct rid; simpl; auto. Qed.

Lemma jsonRpcError_snd rid c msg w :
  tasks (snd (jsonRpcError rid c msg w)) = tasks w
  ∧ heap (snd (jsonRpcError rid c msg w)) = heap w
  ∧ ticks (snd (jsonRpcError rid c msg w)) = ticks w
  ∧ uuids w <= uuids (snd (jsonRpcError rid c msg w)).
Proof. destruct rid; simpl; auto with lia. Qed.

(** *** Objects and their evolution *)

Lemma history_extends_refl h : history_extends h h.
Proof. destruct h; simpl; auto. Qed.

Lemma history_extends_trans h1 h2 h3 :
  history_extends h1 h2 -> history_extends h2 h3 -> history_extends h1 h3.
Proof.
  destruct h1, h2, h3; simpl; try tauto.
  intros H1 H2. by etrans.
Qed.

Lemma history_extends_push h x : history_extends h (push h x).
Proof. destruct h; simpl; [by apply prefix_app_r | done]. Qed.

Lemma task_evolves_refl t : task_evolves t t.
Proof. repeat split; apply history_extends_refl. Qed.

Lemma task_evolves_trans t1 t2 t3 :
  task_evolves t1 t2 -> task_evolves t2 t3 -> task_evolves t1 t3.
Proof.
  intros (? & ? & ? & ?) (? & ? & ? & ?).
  repeat split; try congruence. by eapply history_extends_trans.
Qed.

Lemma heap_evolves_refl h : heap_evolves h h.
Proof. intros r t Hr. exists t. split; [done | apply task_evolves_refl]. Qed.

Lemma heap_evolves_trans h1 h2 h3 :
  heap_evolves h1 h2 -> heap_evolves h2 h3 -> heap_evolves h1 h3.
Proof.
  intros H12 H23 r t Hr.
  destruct (H12 r t Hr) as (t2 & Hr2 & E12).
  destruct (H23 r t2 Hr2) as (t3 & Hr3 & E23).
  exists t3. split; [done | by eapply task_evolves_trans].
Qed.

Lemma heap_evolves_app h ts : heap_evolves h (h ++ ts).
Proof.
  intros r t Hr. exists t. split; [| apply task_evolves_refl].
  by apply lookup_app_l_Some.
Qed.

Lemma heap_evolves_alter h r f :
  (forall t, task_evolves t (f t)) -> heap_evolves h (alter f r h).
Proof.
  intros Hf r' t Hr'. destruct (decide (r = r')) as [-> | Hne].
  - exists (f t). split; [| apply Hf].
    by rewrite list_lookup_alter_eq, Hr'.
  - exists t. split; [| apply task_evolves_refl].
    by rewrite list_lookup_alter_ne.
Qed.

Lemma heap_evolves_length h h' : heap_evolves h h' -> length h <= length h'.
Proof.
  intros H. destruct (decide (length h <= length h')) as [|Hn]; [done|].
  destruct h as [|t h0 _] using rev_ind; [simpl; lia|].
  rewrite length_app in *. simpl in *.
  destruct (H (length h0) t) as (t' & Ht' & _).
  { by rewrite lookup_app_r, Nat.sub_diag by lia. }
  apply lookup_lt_Some in Ht'. lia.
Qed.

Lemma heap_preserved_evolves h h' : heap_preserved h h' -> heap_evolves h h'.
Proof.
  intros H r t Hr. exists t. split; [by apply H | apply task_evolves_refl].
Qed.

Lemma with_status_evolves st t : task_evolves t (with_status st t).
Proof. repeat split; simpl; apply history_extends_refl. Qed.

Lemma with_artifacts_evolves a t : task_evolves t (with_artifacts a t).
Proof. repeat split; simpl; apply history_extends_refl. Qed.

Lemma push_history_evolves x t :
  task_evolves t (with_history (push (history t) x) t).
Proof. repeat split; simpl; apply history_extends_push. Qed.

(** *** message/send, case by case *)

Lemma acceptMessage_new rid msg w :
  truthy (prop msg "taskId") = false ->
  acceptMessage rid msg w =
    (Awaits (mkPending rid msg
               (mkMessageContext (uuid_at (uuids w)) (new_task_context msg w)
                  (length (heap w)))),
     mkWorld (map_set (uuid_at (uuids w)) (length (heap w)) (tasks w))
       (heap w ++ [mkTask (uuid_at (uuids w)) (new_task_context msg w)
                     (mkTaskStatus TASK_STATE_WORKING None
                        (Some (now_at (S (ticks w)))))
                     (Some []) (Some [msg]) None])
       (if truthy (prop msg "contextId") then S (uuids w) else S (S (uuids w)))
       (S (S (ticks w)))).
Proof.
  intros Ht. unfold acceptMessage, new_task_context. rewrite Ht. simpl.
  destruct (truthy (prop msg "contextId")); simpl;
    unfold modify, with_heap, with_tasks; simpl;
    rewrite !(alter_app_r_alt _ (heap w)) by lia;
    rewrite Nat.sub_diag; reflexivity.
Qed.

Lemma acceptMessage_existing rid msg w k r t :
  truthy (prop msg "taskId") = true ->
  tasks_get w (prop msg "taskId") = Some (k, r, t) ->
  is_terminal (state (status t)) = false ->
  truthy (prop msg "contextId")
    && negb (strict_eq (contextId t) (prop msg "contextId")) = false ->
  exists cid n,
    acceptMessage rid msg w =
      (Awaits (mkPending rid msg (mkMessageContext k cid r)),
       mkWorld (map_set k r (tasks w))
         (alter (fun t => with_history (push (history t) msg) t) r
            (alter (with_status
                      (mkTaskStatus TASK_STATE_WORKING None
                         (Some (now_at (ticks w))))) r (heap w)))
         n (S (ticks w)))
    ∧ uuids w <= n.
Proof.
  intros Ht Hg Hterm Hctx. unfold acceptMessage. rewrite Ht, Hg, Hterm, Hctx.
  destruct (truthy (prop msg "contextId")); [|destruct (truthy (contextId t))];
    simpl; eexists _, _; (split; [reflexivity | simpl; lia]).
Qed.

Lemma acceptMessage_refused rid msg w resp w' :
  acceptMessage rid msg w = (Responds resp, w') ->
  exists c m,
    (resp, w') = jsonRpcError rid c m w
    ∧ truthy (prop msg "taskId") = true
    ∧ match tasks_get w (prop msg "taskId") with
      | None => c = A2A_ERROR_CODES.TASK_NOT_FOUND
      | Some (_, _, t) =>
          if is_terminal (state (status t))
          then c = A2A_ERROR_CODES.UNSUPPORTED_OPERATION
          else c = JSONRPC_ERROR_CODES.INVALID_PARAMS
      end.
Proof.
  intros H.
  destruct (truthy (prop msg "taskId")) eqn:Ht.
  2:{ rewrite acceptMessage_new in H by done. discriminate. }
  unfold acceptMessage in H. rewrite Ht in H.
  destruct (tasks_get w (prop msg "taskId")) as [[[k r] t]|] eqn:Hg.
  - destruct (is_terminal (state (status t))) eqn:Hterm.
    + unfold respond in H. injection H as <- <-.
      eexists _, _. split; [by rewrite <- surjective_pairing | done].
    + destruct (truthy (prop msg "contextId")
                && negb (strict_eq (contextId t) (prop msg "contextId"))) eqn:Hc.
      * unfold respond in H. injection H as <- <-.
        eexists _, _. split; [by rewrite <- surjective_pairing | done].
      * destruct (acceptMessage_existing rid msg w k r t Ht Hg Hterm Hc)
          as (cid & n & E & _).
        unfold acceptMessage in E. rewrite Ht, Hg, Hterm, Hc in E.
        rewrite E in H. discriminate.
  - unfold respond in H. injection H as <- <-.
    eexists _, _. split; [by rewrite <- surjective_pairing | done].
Qed.

Lemma handleMessageSend_Awaits rid params w p w' :
  handleMessageSend rid params w = (Awaits p, w') ->
  exists msg, validateSendParams params = inr msg
              ∧ acceptMessage rid msg w = (Awaits p, w').
Proof.
  unfold handleMessageSend. destruct (validateSendParams params) as [reason|msg].
  - discriminate.
  - eauto.
Qed.

Lemma acceptMessage_Awaits rid msg w p w' :
  acceptMessage rid msg w = (Awaits p, w') ->
  (truthy (prop msg "taskId") = false
   ∧ (Awaits p, w') = acceptMessage rid msg w
   ∧ target (pending_context p) = length (heap w)
   ∧ taskId (pending_context p) = uuid_at (uuids w))
  ∨ (exists k r t,
       truthy (prop msg "taskId") = true
       ∧ tasks_get w (prop msg "taskId") = Some (k, r, t)
       ∧ is_terminal (state (status t)) = false
       ∧ truthy (prop msg "contextId")
         && negb (strict_eq (contextId t) (prop msg "contextId")) = false
       ∧ target (pending_context p) = r
       ∧ taskId (pending_context p) = k).
Proof.
  intros H. destruct (truthy (prop msg "taskId")) eqn:Ht.
  - right. pose proof H as H0. unfold acceptMessage in H. rewrite Ht in H.
    destruct (tasks_get w (prop msg "taskId")) as [[[k r] t]|] eqn:Hg;
      [|discriminate].
    destruct (is_terminal (state (status t))) eqn:Hterm; [discriminate|].
    destruct (truthy (prop msg "contextId")
              && negb (strict_eq (contextId t) (prop msg "contextId"))) eqn:Hc;
      [discriminate|].
    destruct (acceptMessage_existing rid msg w k r t Ht Hg Hterm Hc)
      as (cid & n & E & _).
    rewrite E in H0. injection H0 as <- <-. by exists k, r, t.
  - left. pose proof H as H0. rewrite acceptMessage_new in H0 by done.
    injection H0 as <- <-. by rewrite acceptMessage_new.
Qed.

(** *** Slices *)

Lemma slice_tail {A} (l : list A) (n : Z) :
  (0 < n)%Z -> slice l (- n) None = lastn (Z.to_nat n) l.
Proof.
  intros Hn. unfold slice, lastn, rel_index.
  destruct (Z.ltb_spec (- n) 0); [|lia].
  replace (Z.to_nat (Z.max (Z.of_nat (length l) + - n) 0))
    with (length l - Z.to_nat n) by lia.
  apply take_ge. rewrite length_drop. lia.
Qed.

Lemma slice_from_zero {A} (l : list A) : slice l 0 None = l.
Proof.
  unfold slice, rel_index. simpl.
  replace (Z.to_nat (Z.min 0 (Z.of_nat (length l)))) with 0 by lia.
  rewrite Nat.sub_0_r, drop_0. by apply take_ge.
Qed.

Lemma slice_window {A} (l : list A) (start size : Z) :
  (0 <= start)%Z -> (0 <= size)%Z ->
  slice l start (Some (start + size)%Z)
  = take (Z.to_nat size) (drop (Z.to_nat start) l).
Proof.
  intros Hs Hz. unfold slice, rel_index.
  destruct (Z.ltb_spec start 0); [lia|].
  destruct (Z.ltb_spec (start + size) 0); [lia|].
  destruct (decide (Z.of_nat (length l) <= start)%Z) as [Hge|Hlt].
  - rewrite !drop_ge by lia. by rewrite !take_nil.
  - replace (Z.to_nat (Z.min start (Z.of_nat (length l)))) with (Z.to_nat start)
      by lia.
    destruct (decide (start + size <= Z.of_nat (length l))%Z).
    + f_equal. lia.
    + rewrite !take_ge; [done | rewrite length_drop; lia | rewrite length_drop; lia].
Qed.

Lemma lastn_length {A} (n : nat) (l : list A) :
  length (lastn n l) = n `min` length l.
Proof. unfold lastn. rewrite length_drop. lia. Qed.

Lemma lastn_suffix {A} (n : nat) (l : list A) : lastn n l `suffix_of` l.
Proof. apply suffix_drop. Qed.

(** *** tasks/get, case by case *)

Lemma modify_fresh t f w :
  modify (length (heap w)) f (with_heap (heap w ++ [t]) w)
  = with_heap (heap w ++ [f t]) w.
Proof.
  unfold modify, with_heap. simpl. f_equal.
  rewrite (alter_app_r_alt _ (heap w)) by lia. by rewrite Nat.sub_diag.
Qed.

(** Without [historyLength] the stored object itself is returned. *)
Lemma handleTasksGet_alias rid params w k r t :
  truthy (prop_opt params "id") = true ->
  tasks_get w (prop_opt params "id") = Some (k, r, t) ->
  prop_opt params "historyLength" = None ->
  handleTasksGet rid params w = jsonRpcSuccess rid (TaskResult r) w.
Proof.
  intros Hid Hget Hhl. unfold handleTasksGet. by rewrite Hid, Hhl, Hget.
Qed.

(** With a number [n >= 0] a copy is returned. *)
Lemma handleTasksGet_copy rid params w k r t n :
  truthy (prop_opt params "id") = true ->
  tasks_get w (prop_opt params "id") = Some (k, r, t) ->
  prop_opt params "historyLength" = Some (JNum n) ->
  (0 <= n)%Z ->
  handleTasksGet rid params w =
    jsonRpcSuccess rid (TaskResult (length (heap w)))
      (with_heap
         (heap w ++ [ if (n =? 0)%Z then with_history None t
                      else match history t with
                           | Some h =>
                               with_history (Some (lastn (Z.to_nat n) h)) t
                           | None => t
                           end ]) w).
Proof.
  intros Hid Hget Hhl Hn. unfold handleTasksGet. rewrite Hid, Hhl, Hget.
  unfold lt_zero, ge_zero, negated. simpl.
  destruct (Z.ltb_spec n 0); [lia|]. destruct (Z.leb_spec 0 n); [|lia]. simpl.
  destruct (Z.eqb_spec n 0) as [->|Hne].
  - by rewrite modify_fresh.
  - destruct (history t) as [h|] eqn:Hh.
    + rewrite modify_fresh. rewrite slice_tail by lia. done.
    + done.
Qed.

Lemma handleTasksGet_frame rid params w :
  tasks (snd (handleTasksGet rid params w)) = tasks w
  ∧ (exists ts, heap (snd (handleTasksGet rid params w)) = heap w ++ ts)
  ∧ ticks (snd (handleTasksGet rid params w)) = ticks w
  ∧ uuids w <= uuids (snd (handleTasksGet rid params w)).
Proof.
  assert (Hbase : forall (x : JsonRpcResponse * World) w0,
             tasks (snd x) = tasks w0 ∧ heap (snd x) = heap w0
             ∧ ticks (snd x) = ticks w0 ∧ uuids w0 <= uuids (snd x) ->
             tasks w0 = tasks w -> (exists ts, heap w0 = heap w ++ ts) ->
             ticks w0 = ticks w -> uuids w <= uuids w0 ->
             tasks (snd x) = tasks w ∧ (exists ts, heap (snd x) = heap w ++ ts)
             ∧ ticks (snd x) = ticks w ∧ uuids w <= uuids (snd x)).
  { intros x w0 (-> & -> & -> & ?) ? ? ? ?. repeat split; auto with lia. }
  assert (Hnil : exists ts, heap w = heap w ++ ts).
  { exists []. by rewrite app_nil_r. }
  unfold handleTasksGet.
  destruct (negb (truthy (prop_opt params "id"))).
  { eapply Hbase; [apply jsonRpcError_snd | done..]. }
  destruct (match prop_opt params "historyLength" with
            | Some v => lt_zero v | None => false end).
  { eapply Hbase; [apply jsonRpcError_snd | done..]. }
  destruct (tasks_get w (prop_opt params "id")) as [[[k r] t]|].
  2:{ eapply Hbase; [apply jsonRpcError_snd | done..]. }
  destruct (prop_opt params "historyLength") as [v|].
  2:{ eapply Hbase; [apply jsonRpcSuccess_snd | done..]. }
  destruct (ge_zero v).
  2:{ eapply Hbase; [apply jsonRpcSuccess_snd | done..]. }
  destruct (strict_eq (Some v) (Some (JNum 0))).
  { cbn [alloc]. rewrite modify_fresh.
    eapply Hbase; [apply jsonRpcSuccess_snd | simpl; eauto..]. }
  destruct (history t).
  { cbn [alloc]. rewrite modify_fresh.
    eapply Hbase; [apply jsonRpcSuccess_snd | simpl; eauto..]. }
  cbn [alloc]. eapply Hbase; [apply jsonRpcSuccess_snd | simpl; eauto..].
Qed.

(** *** tasks/cancel, case by case *)

Lemma handleTasksCancel_cancels rid params w k r t :
  truthy (prop_opt params "id") = true ->
  tasks_get w (prop_opt params "id") = Some (k, r, t) ->
  is_terminal (state (status t)) = false ->
  handleTasksCancel rid params w =
    jsonRpcSuccess rid (TaskResult r)
      (mkWorld (tasks w)
         (alter (with_status
                   (mkTaskStatus TASK_STATE_CANCELED None
                      (Some (now_at (ticks w))))) r (heap w))
         (uuids w) (S (ticks w))).
Proof.
  intros Hid Hget Hterm. unfold handleTasksCancel.
  by rewrite Hid, Hget, Hterm.
Qed.

Lemma handleTasksCancel_refuses rid params w k r t :
  truthy (prop_opt params "id") = true ->
  tasks_get w (prop_opt params "id") = Some (k, r, t) ->
  is_terminal (state (status t)) = true ->
  handleTasksCancel rid params w =
    jsonRpcError rid A2A_ERROR_CODES.TASK_NOT_CANCELABLE
      "Task already in terminal state" w.
Proof.
  intros Hid Hget Hterm. unfold handleTasksCancel.
  by rewrite Hid, Hget, Hterm.
Qed.

Lemma handleTasksCancel_cases rid params w :
  (exists c m, handleTasksCancel rid params w = jsonRpcError rid c m w)
  ∨ (exists k r t,
       tasks_get w (prop_opt params "id") = Some (k, r, t)
       ∧ is_terminal (state (status t)) = false
       ∧ handleTasksCancel rid params w =
           jsonRpcSuccess rid (TaskResult r)
             (mkWorld (tasks w)
                (alter (with_status
                          (mkTaskStatus TASK_STATE_CANCELED None
                             (Some (now_at (ticks w))))) r (heap w))
                (uuids w) (S (ticks w)))).
Proof.
  unfold handleTasksCancel.
  destruct (negb (truthy (prop_opt params "id"))); [left; eauto|].
  destruct (tasks_get w (prop_opt params "id")) as [[[k r] t]|];
    [|left; eauto].
  destruct (is_terminal (state (status t))) eqn:Hterm; [left; eauto|].
  right. by exists k, r, t.
Qed.

(** *** tasks/list, case by case *)

Lemma with_heap_same w : with_heap (heap w) w = w.
Proof. by destruct w. Qed.

Lemma alloc_all_spec ts w :
  alloc_all ts w
  = (seq (length (heap w)) (length ts), with_heap (heap w ++ ts) w).
Proof.
  revert w. induction ts as [|t ts IH]; intros w; simpl.
  - by rewrite app_nil_r, with_heap_same.
  - rewrite IH. simpl. rewrite length_app. simpl.
    rewrite Nat.add_1_r. unfold with_heap. simpl.
    by rewrite <- app_assoc.
Qed.

Lemma listTasks_page rid p w tf start :
  validateListParams p = inr tf ->
  decodePageToken (list_pageToken p) = Some start ->
  listTasks rid p w =
    jsonRpcSuccess rid
      (ListTasksResponse
         (seq (length (heap w)) (length (page_of p tf w start)))
         (if (start + list_pageSize p <? Z.of_nat (length (listing p tf w)))%Z
          then String_of_number (start + list_pageSize p) else "")
         (length (page_of p tf w start))
         (length (listing p tf w)))
      (with_heap
         (heap w ++ map (projectTask (list_historyLength p)
                           (list_includeArtifacts p)) (page_of p tf w start))
         w).
Proof.
  intros Hv Hd. unfold listTasks. rewrite Hv, Hd.
  rewrite alloc_all_spec. rewrite !length_map, !length_seq. done.
Qed.

Lemma listTasks_success rid p w resp w' res :
  listTasks rid p w = (resp, w') ->
  result resp = Some res ->
  exists tf start,
    validateListParams p = inr tf
    ∧ decodePageToken (list_pageToken p) = Some start.
Proof.
  intros H Hres. unfold listTasks in H.
  destruct (validateListParams p) as [reason|tf].
  { pose proof (jsonRpcError_fst rid JSONRPC_ERROR_CODES.INVALID_PARAMS reason w)
      as (E & _).
    rewrite H in E. simpl in E. congruence. }
  destruct (decodePageToken (list_pageToken p)) as [start|].
  2:{ pose proof (jsonRpcError_fst rid JSONRPC_ERROR_CODES.INVALID_PARAMS
                    "Invalid pageToken" w) as (E & _).
      rewrite H in E. simpl in E. congruence. }
  eauto.
Qed.

Lemma listTasks_frame rid p w :
  tasks (snd (listTasks rid p w)) = tasks w
  ∧ (exists ts, heap (snd (listTasks rid p w)) = heap w ++ ts)
  ∧ ticks (snd (listTasks rid p w)) = ticks w
  ∧ uuids w <= uuids (snd (listTasks rid p w)).
Proof.
  destruct (validateListParams p) as [reason|tf] eqn:Hv.
  { unfold listTasks. rewrite Hv.
    destruct (jsonRpcError_snd rid JSONRPC_ERROR_CODES.INVALID_PARAMS reason w)
      as (-> & -> & -> & ?).
    repeat split; auto. exists []. by rewrite app_nil_r. }
  destruct (decodePageToken (list_pageToken p)) as [start|] eqn:Hd.
  2:{ unfold listTasks. rewrite Hv, Hd.
      destruct (jsonRpcError_snd rid JSONRPC_ERROR_CODES.INVALID_PARAMS
                  "Invalid pageToken" w) as (-> & -> & -> & ?).
      repeat split; auto. exists []. by rewrite app_nil_r. }
  rewrite (listTasks_page rid p w tf start Hv Hd).
  match goal with
  | |- context [jsonRpcSuccess rid ?res ?w0] =>
      destruct (jsonRpcSuccess_snd rid res w0) as (-> & -> & -> & ?)
  end.
  simpl. repeat split; eauto.
Qed.

Lemma read_tasks_fresh h ts w' :
  heap w' = h ++ ts ->
  read_tasks w' (seq (length h) (length ts)) = Some ts.
Proof.
  unfold read_tasks. intros ->. revert h.
  induction ts as [|t ts IH]; intros h; [done|].
  simpl. rewrite lookup_app_r, Nat.sub_diag by lia. simpl.
  specialize (IH (h ++ [t])). rewrite length_app in IH. simpl in IH.
  rewrite Nat.add_1_r, <- app_assoc in IH. simpl in IH.
  by rewrite IH.
Qed.

(** *** Sorting by a key, largest first *)

Section Sorting.
Context {A : Type} (key : A -> Z).

Local Abbreviation cmp := (fun a b : A => (key b - key a)%Z).
Local Abbreviation later_or_same := (fun a b : A => (key b <= key a)%Z).

Lemma sort_insert_Permutation x l : sort_insert cmp x l ≡ₚ x :: l.
Proof.
  induction l as [|y l IH]; simpl; [done|].
  destruct (key x - key y <? 0)%Z; [|done].
  rewrite IH. apply Permutation_swap.
Qed.

Lemma Array_sort_Permutation l : Array_sort cmp l ≡ₚ l.
Proof.
  induction l as [|x l IH]; simpl; [done|].
  by rewrite sort_insert_Permutation, IH.
Qed.

Lemma Array_sort_length l : length (Array_sort cmp l) = length l.
Proof. by rewrite Array_sort_Permutation. Qed.

Lemma sort_insert_sorted x l :
  StronglySorted later_or_same l ->
  StronglySorted later_or_same (sort_insert cmp x l).
Proof.
  induction 1 as [|y l Hl IH Hy]; simpl.
  - repeat constructor.
  - destruct (Z.ltb_spec (key x - key y) 0) as [Hlt|Hge].
    + constructor; [done|].
      rewrite sort_insert_Permutation. constructor; [lia | done].
    + constructor; [by constructor|].
      constructor; [lia|].
      eapply Forall_impl; [exact Hy|]. simpl. intros; lia.
Qed.

Lemma Array_sort_sorted l : StronglySorted later_or_same (Array_sort cmp l).
Proof.
  induction l as [|x l IH]; simpl; [constructor|].
  by apply sort_insert_sorted.
Qed.

(** Stability: the elements of one key keep their order. *)
Lemma sort_insert_stable k x l :
  filter (fun a => key a = k) (sort_insert cmp x l)
  = filter (fun a => key a = k) (x :: l).
Proof.
  induction l as [|y l IH]; simpl; [done|].
  destruct (Z.ltb_spec (key x - key y) 0) as [Hlt|Hge]; [|done].
  rewrite (filter_cons _ y), IH, !(filter_cons _ x), !(filter_cons _ y).
  destruct (decide (key y = k)), (decide (key x = k)); try done; lia.
Qed.

Lemma Array_sort_stable k l :
  filter (fun a => key a = k) (Array_sort cmp l)
  = filter (fun a => key a = k) l.
Proof.
  induction l as [|x l IH]; simpl; [done|].
  rewrite sort_insert_stable, !(filter_cons _ x), IH. done.
Qed.

Lemma sublist_filter_mono (P : A -> Prop) `{!forall x, Decision (P x)} l1 l2 :
  l1 `sublist_of` l2 -> filter P l1 `sublist_of` filter P l2.
Proof.
  induction 1 as [|x l1 l2 _ IH|x l1 l2 _ IH]; [done| |].
  - rewrite !filter_cons. destruct (decide (P x)); [by constructor | done].
  - rewrite filter_cons. destruct (decide (P x)); [by constructor | done].
Qed.

Lemma StronglySorted_sublist (Rel : relation A) l1 l2 :
  l1 `sublist_of` l2 -> StronglySorted Rel l2 -> StronglySorted Rel l1.
Proof.
  induction 1 as [|x l1 l2 Hs IH|x l1 l2 Hs IH]; intros Hsorted; [done| |].
  - apply StronglySorted_inv in Hsorted as [Hl2 Hx].
    constructor; [by apply IH|].
    apply Forall_forall. intros y Hy.
    eapply Forall_forall in Hx; [exact Hx|].
    eapply elem_of_sublist; [exact Hy | done].
  - apply StronglySorted_inv in Hsorted as [Hl2 _]. by apply IH.
Qed.

Lemma lookup_precedes (l : list A) i j a b :
  i < j -> l !! i = Some a -> l !! j = Some b -> precedes a b l.
Proof.
  intros Hij Ha Hb. unfold precedes.
  rewrite <- (take_drop_middle l i a Ha).
  apply sublist_inserts_l. constructor.
  assert (Hb' : drop (S i) l !! (j - S i) = Some b).
  { rewrite lookup_drop. replace (S i + (j - S i)) with j by lia. done. }
  rewrite <- (take_drop_middle _ _ _ Hb').
  apply sublist_inserts_l. constructor. apply sublist_nil_l.
Qed.

(** What the sort gives: of two elements of the result the first has
    the larger key, or the same key and the earlier place in the input. *)
Lemma Array_sort_order l a b :
  precedes a b (Array_sort cmp l) ->
  (key b <= key a)%Z ∧ (key a = key b -> precedes a b l).
Proof.
  intros Hab. split.
  - pose proof (StronglySorted_sublist _ _ _ Hab (Array_sort_sorted l)) as Hs.
    apply StronglySorted_inv in Hs as [_ Hs].
    by apply Forall_cons in Hs as [Hs _].
  - intros Hk. unfold precedes in *.
    apply (sublist_filter_mono (fun x => key x = key a)) in Hab.
    rewrite Array_sort_stable in Hab.
    rewrite !filter_cons, filter_nil in Hab.
    destruct (decide (key a = key a)); [|done].
    destruct (decide (key b = key a)); [|congruence].
    etrans; [exact Hab | apply sublist_filter].
Qed.

End Sorting.

(** *** The map of tasks *)

Lemma assoc_elem_of {A} k (m : list (string * A)) v :
  assoc k m = Some v -> (k, v) ∈ m.
Proof.
  induction m as [|[k' v'] m IH]; simpl; [done|].
  destruct (decide (k' = k)) as [->|].
  - intros [= ->]. left.
  - intros H. right. by apply IH.
Qed.

Lemma assoc_lookup_NoDup {A} k (m : list (string * A)) v :
  NoDup (map fst m) -> (k, v) ∈ m -> assoc k m = Some v.
Proof.
  induction m as [|[k' v'] m IH]; simpl; intros Hnd Hin.
  - by apply elem_of_nil in Hin.
  - apply NoDup_cons in Hnd as [Hk' Hnd].
    apply elem_of_cons in Hin as [[= <- <-]|Hin].
    + by rewrite decide_True.
    + destruct (decide (k' = k)) as [->|]; [|by apply IH].
      exfalso. apply Hk'. apply list_elem_of_fmap. by exists (k, v).
Qed.

Lemma map_set_same k r m : assoc k m = Some r -> map_set k r m = m.
Proof.
  induction m as [|[k' r'] m IH]; simpl; [done|].
  destruct (decide (k' = k)) as [->|].
  - by intros [= ->].
  - intros H. by rewrite IH.
Qed.

Lemma map_set_elem_of k r m k' r' :
  (k', r') ∈ map_set k r m -> (k', r') = (k, r) ∨ (k', r') ∈ m.
Proof.
  induction m as [|[k0 r0] m IH]; simpl.
  - intros H. apply list_elem_of_singleton in H. by left.
  - destruct (decide (k0 = k)) as [->|].
    + intros H. apply elem_of_cons in H as [H|H]; [by left|].
      right. by right.
    + intros H. apply elem_of_cons in H as [H|H].
      * right. rewrite H. left.
      * destruct (IH H); [by left|]. right. by right.
Qed.

Lemma map_set_keys k r m :
  map fst (map_set k r m)
  = if decide (k ∈ map fst m) then map fst m else map fst m ++ [k].
Proof.
  induction m as [|[k0 r0] m IH].
  - by destruct (decide (k ∈ map fst [])) as [H|H]; [apply elem_of_nil in H|].
  - cbn [map_set map fst].
    destruct (decide (k0 = k)) as [->|Hne]; cbn [map fst].
    + destruct (decide (k ∈ k :: map fst m)) as [H|H]; [done|].
      exfalso. apply H. left.
    + rewrite IH. destruct (decide (k ∈ map fst m)) as [Hin|Hnin].
      * destruct (decide (k ∈ k0 :: map fst m)) as [H|H]; [done|].
        exfalso. apply H. by right.
      * destruct (decide (k ∈ k0 :: map fst m)) as [H|H]; [|done].
        apply elem_of_cons in H as [?|?]; congruence.
Qed.

Lemma map_set_NoDup k r m : NoDup (map fst m) -> NoDup (map fst (map_set k r m)).
Proof.
  intros H. rewrite map_set_keys. destruct (decide (k ∈ map fst m)); [done|].
  apply NoDup_app. split; [done|]. split.
  - intros x Hx Hk. apply list_elem_of_singleton in Hk. congruence.
  - apply NoDup_singleton.
Qed.

Lemma tasks_get_Some w key k r t :
  tasks_get w key = Some (k, r, t) ->
  key = Some (JStr k) ∧ assoc k (tasks w) = Some r ∧ heap w !! r = Some t.
Proof.
  unfold tasks_get. destruct key as [[| | |s| |]|]; try discriminate.
  destruct (assoc s (tasks w)) as [r0|] eqn:Ha; [|discriminate].
  destruct (heap w !! r0) as [t0|] eqn:Hh; [|discriminate].
  by intros [= <- <- <-].
Qed.

Lemma tasks_get_stored w k r t :
  store_wf w -> (k, r) ∈ tasks w -> heap w !! r = Some t ->
  tasks_get w (Some (JStr k)) = Some (k, r, t).
Proof.
  intros [Hnd _] Hin Hr. unfold tasks_get.
  by rewrite (assoc_lookup_NoDup k (tasks w) r Hnd Hin), Hr.
Qed.

(** *** The shape of a step *)

Lemma step_shape_frame w w' :
  uuids w <= uuids w' -> tasks w' = tasks w ->
  (exists ts, heap w' = heap w ++ ts) -> step_shape w w'.
Proof.
  intros Hu Ht [ts Hh]. split; [done|]. left. split; [by left|].
  rewrite Hh. apply heap_evolves_app.
Qed.

Lemma step_shape_evolves w w' :
  uuids w <= uuids w' -> tasks w' = tasks w ->
  heap_evolves (heap w) (heap w') -> step_shape w w'.
Proof. intros Hu Ht Hh. split; [done|]. left. split; [by left | done]. Qed.

Lemma step_shape_response (x : JsonRpcResponse * World) w0 w :
  tasks (snd x) = tasks w0 ∧ heap (snd x) = heap w0
  ∧ ticks (snd x) = ticks w0 ∧ uuids w0 <= uuids (snd x) ->
  step_shape w w0 -> step_shape w (snd x).
Proof.
  intros (Ht & Hh & _ & Hu) [Hu0 Hs]. split; [lia|].
  rewrite Ht, Hh. destruct Hs as [Hs|(? & ? & ?)]; [by left|].
  right. repeat split; [done | lia | done].
Qed.

Lemma step_shape_refl w : step_shape w w.
Proof. apply step_shape_evolves; [lia | done | apply heap_evolves_refl]. Qed.

Lemma acceptMessage_shape rid msg w :
  step_shape w (snd (acceptMessage rid msg w)).
Proof.
  destruct (acceptMessage rid msg w) as [[resp|p] w'] eqn:E; simpl.
  - apply acceptMessage_refused in E as (c & m & E & _).
    replace w' with (snd (jsonRpcError rid c m w)) by by rewrite <- E.
    eapply step_shape_response; [apply jsonRpcError_snd | apply step_shape_refl].
  - pose proof E as E0.
    apply acceptMessage_Awaits in E as
        [(Ht & E & _)|(k & r & t & Ht & Hg & Hterm & Hc & _)].
    + rewrite acceptMessage_new in E by done. injection E as -> ->.
      split; simpl.
      { destruct (truthy (prop msg "contextId")); lia. }
      right. repeat split.
      { destruct (truthy (prop msg "contextId")); lia. }
      eauto.
    + destruct (acceptMessage_existing rid msg w k r t Ht Hg Hterm Hc)
        as (cid & n & E' & Hn).
      rewrite E' in E0. injection E0 as <- <-.
      apply tasks_get_Some in Hg as (_ & Ha & _).
      apply step_shape_evolves; simpl; [done | by apply map_set_same |].
      eapply heap_evolves_trans; apply heap_evolves_alter; intros t0;
        [apply with_status_evolves | apply push_history_evolves].
Qed.

Lemma handleMessageSend_shape rid params w :
  step_shape w (snd (handleMessageSend rid params w)).
Proof.
  unfold handleMessageSend. destruct (validateSendParams params) as [reason|msg].
  - unfold respond. simpl.
    eapply step_shape_response; [apply jsonRpcError_snd | apply step_shape_refl].
  - apply acceptMessage_shape.
Qed.

Lemma handleTasksGet_shape rid params w :
  step_shape w (snd (handleTasksGet rid params w)).
Proof.
  destruct (handleTasksGet_frame rid params w) as (Ht & Hh & _ & Hu).
  by apply step_shape_frame.
Qed.

Lemma handleTasksList_shape rid params w :
  step_shape w (snd (handleTasksList rid params w)).
Proof.
  unfold handleTasksList.
  destruct (listTasks_frame rid (readListParams params) w) as (Ht & Hh & _ & Hu).
  by apply step_shape_frame.
Qed.

Lemma handleTasksCancel_shape rid params w :
  step_shape w (snd (handleTasksCancel rid params w)).
Proof.
  destruct (handleTasksCancel_cases rid params w)
    as [(c & m & ->)|(k & r & t & _ & _ & ->)].
  - eapply step_shape_response; [apply jsonRpcError_snd | apply step_shape_refl].
  - eapply step_shape_response; [apply jsonRpcSuccess_snd |].
    apply step_shape_evolves; simpl; [lia | done |].
    apply heap_evolves_alter. intros t0. apply with_status_evolves.
Qed.

Lemma routeMethod_shape request w :
  step_shape w (snd (routeMethod request w)).
Proof.
  unfold routeMethod.
  repeat case_bool_decide; unfold respond; simpl.
  - apply handleMessageSend_shape.
  - apply handleTasksGet_shape.
  - apply handleTasksCancel_shape.
  - apply handleTasksList_shape.
  - eapply step_shape_response; [apply jsonRpcSuccess_snd | apply step_shape_refl].
  - eapply step_shape_response; [apply jsonRpcError_snd | apply step_shape_refl].
Qed.

Lemma sendStatus_shape ctx st w : step_shape w (sendStatus ctx st w).
Proof.
  unfold sendStatus. simpl.
  apply step_shape_evolves; simpl; [lia | done |].
  apply heap_evolves_alter. intros t0. apply with_status_evolves.
Qed.

Lemma sendArtifact_shape ctx a w : step_shape w (sendArtifact ctx a w).
Proof.
  unfold sendArtifact.
  apply step_shape_evolves; simpl; [lia | done |].
  apply heap_evolves_alter. intros t0. apply with_artifacts_evolves.
Qed.

Lemma resumeMessageSend_shape p ret w :
  step_shape w (snd (resumeMessageSend p ret w)).
Proof.
  unfold resumeMessageSend. destruct ret as [msg|t| |err]; simpl.
  - eapply step_shape_response; [apply jsonRpcSuccess_snd |].
    apply step_shape_evolves; simpl; [lia | done |].
    eapply heap_evolves_trans; apply heap_evolves_alter; intros t0;
      [apply with_status_evolves | apply push_history_evolves].
  - eapply step_shape_response; [apply jsonRpcSuccess_snd |].
    apply step_shape_frame; simpl; eauto.
  - eapply step_shape_response; [apply jsonRpcSuccess_snd | apply step_shape_refl].
  - eapply step_shape_response; [apply jsonRpcSuccess_snd |].
    apply step_shape_evolves; simpl; [lia | done |].
    apply heap_evolves_alter. intros t0. apply with_status_evolves.
Qed.

Lemma step_has_shape w e : step_shape w (step w e).
Proof.
  destruct e as [request|p ret|ctx st|ctx a|]; simpl.
  - apply routeMethod_shape.
  - apply resumeMessageSend_shape.
  - apply sendStatus_shape.
  - apply sendArtifact_shape.
  - split; [done|]. left. split; [by right | apply heap_evolves_refl].
Qed.

(** *** What every step keeps *)

Lemma step_shape_heap_evolves w w' :
  step_shape w w' -> heap_evolves (heap w) (heap w').
Proof.
  intros [_ [[_ H]|(_ & _ & t & -> & _)]]; [done | apply heap_evolves_app].
Qed.

Lemma step_shape_store_wf w w' : step_shape w w' -> store_wf w -> store_wf w'.
Proof.
  intros [_ [[Ht He]|(Ht & _ & t & Hh & Hid)]] [Hnd Hobj]; unfold store_wf, keys.
  - destruct Ht as [-> | ->].
    + split; [done|]. intros k r Hin.
      destruct (Hobj k r Hin) as (t & Hr & Hid).
      destruct (He r t Hr) as (t' & Hr' & Hid' & _).
      exists t'. split; [done | congruence].
    + split; [constructor|]. intros k r Hin. by apply elem_of_nil in Hin.
  - rewrite Ht, Hh. split; [by apply map_set_NoDup|].
    intros k r Hin. apply map_set_elem_of in Hin as [[= -> ->]|Hin].
    + exists t. split; [|done].
      by rewrite lookup_app_r, Nat.sub_diag by lia.
    + destruct (Hobj k r Hin) as (t0 & Hr & Hid0).
      exists t0. split; [by apply lookup_app_l_Some | done].
Qed.

Lemma step_shape_keys_generated w w' :
  step_shape w w' -> keys_generated w -> keys_generated w'.
Proof.
  intros [Hu [[Ht _]|(Ht & Hlt & _)]] Hgen k r Hin.
  - destruct Ht as [Ht|Ht]; rewrite Ht in Hin.
    + destruct (Hgen k r Hin) as (i & Hi & ->). exists i. split; [lia | done].
    + by apply elem_of_nil in Hin.
  - rewrite Ht in Hin. apply map_set_elem_of in Hin as [[= -> ->]|Hin].
    + exists (uuids w). split; [lia | done].
    + destruct (Hgen k r Hin) as (i & Hi & ->). exists i. split; [lia | done].
Qed.

Lemma run_app w t1 t2 : run (run w t1) t2 = run w (t1 ++ t2).
Proof. unfold run. by rewrite foldl_app. Qed.

Lemma run_invariant (P : World -> Prop) w trace :
  (forall w e, P w -> P (step w e)) -> P w -> P (run w trace).
Proof.
  intros Hstep. revert w. induction trace as [|e trace IH]; intros w Hw; [done|].
  simpl. apply IH. by apply Hstep.
Qed.

Lemma run_heap_evolves w trace : heap_evolves (heap w) (heap (run w trace)).
Proof.
  revert w. induction trace as [|e trace IH]; intros w; simpl.
  - apply heap_evolves_refl.
  - eapply heap_evolves_trans; [|apply IH].
    apply step_shape_heap_evolves, step_has_shape.
Qed.

Lemma run_store_wf w trace : store_wf w -> store_wf (run w trace).
Proof.
  apply run_invariant. intros w0 e. apply step_shape_store_wf, step_has_shape.
Qed.

Lemma run_keys_generated w trace :
  keys_generated w -> keys_generated (run w trace).
Proof.
  apply run_invariant. intros w0 e.
  apply step_shape_keys_generated, step_has_shape.
Qed.

Lemma empty_world_store_wf : store_wf empty_world.
Proof.
  split; [constructor|]. intros k r Hin. by apply elem_of_nil in Hin.
Qed.

Lemma empty_world_keys_generated : keys_generated empty_world.
Proof. intros k r Hin. by apply elem_of_nil in Hin. Qed.

(** *** message/send: the task handed to the callback *)

Lemma assoc_map_set k r m : assoc k (map_set k r m) = Some r.
Proof.
  induction m as [|[k' r'] m IH]; simpl.
  - by rewrite decide_True.
  - destruct (decide (k' = k)) as [->|Hne]; simpl.
    + by rewrite decide_True.
    + by rewrite decide_False.
Qed.

Lemma alter_related (P : Task -> Task -> Prop) (h : list Task) r f :
  (forall t, P t t) -> (forall t, P t (f t)) ->
  forall r' t, h !! r' = Some t -> exists t', alter f r h !! r' = Some t' ∧ P t t'.
Proof.
  intros Hrefl Hf r' t Hr'. destruct (decide (r = r')) as [->|Hne].
  - exists (f t). split; [by rewrite list_lookup_alter_eq, Hr' | done].
  - exists t. split; [by rewrite list_lookup_alter_ne | done].
Qed.

Lemma acceptMessage_target rid msg w p w1 :
  acceptMessage rid msg w = (Awaits p, w1) ->
  pending_id p = rid
  ∧ pending_message p = msg
  ∧ assoc (taskId (pending_context p)) (tasks w1)
    = Some (target (pending_context p))
  ∧ exists t, heap w1 !! target (pending_context p) = Some t
              ∧ state (status t) = TASK_STATE_WORKING.
Proof.
  intros E. pose proof E as E0.
  apply acceptMessage_Awaits in E as
      [(Ht & E & _)|(k & r & t & Ht & Hg & Hterm & Hc & _)].
  - rewrite acceptMessage_new in E by done. injection E as -> ->. simpl.
    repeat split; [apply assoc_map_set|].
    eexists. split.
    + by rewrite lookup_app_r, Nat.sub_diag by lia.
    + done.
  - destruct (acceptMessage_existing rid msg w k r t Ht Hg Hterm Hc)
      as (cid & n & E' & Hn).
    rewrite E' in E0. injection E0 as <- <-. simpl.
    repeat split; [apply assoc_map_set|].
    apply tasks_get_Some in Hg as (_ & _ & Hr).
    eexists. split.
    + by rewrite !list_lookup_alter_eq, Hr.
    + done.
Qed.

(** C1: when the parameters of a message/send pass the structural checks
    and the handler callback, once called, throws, then, whatever else
    ran in between, the task of the call gets the status FAILED with a
    message that carries the text of the error, and the JSON-RPC response
    is a success whose result wraps that task; it has no error member, so
    it is not an INTERNAL_ERROR response. *)
Theorem message_send_handler_throws rid params w p w1 trace err :
  handleMessageSend rid params w = (Awaits p, w1) ->
  let r := target (pending_context p) in
  let w2 := run w1 trace in
  let resp := fst (resumeMessageSend p (Throws err) w2) in
  let w3 := snd (resumeMessageSend p (Throws err) w2) in
  (exists msg, validateSendParams params = inr msg)
  ∧ assoc (taskId (pending_context p)) (tasks w1) = Some r
  ∧ result resp = Some (SendMessageResponse r)
  ∧ error resp = None
  ∧ exists t,
      heap w3 !! r = Some t
      ∧ status t =
          mkTaskStatus TASK_STATE_FAILED
            (Some (JObj [ ("role", JStr "agent");
                          ("parts", JArr [ JObj [ ("type", JStr "text");
                                                   ("text", JStr err) ] ]) ]))
            (Some (now_at (ticks w2))).
Proof.
  intros H r w2 resp w3.
  apply handleMessageSend_Awaits in H as (msg & Hv & Ha).
  apply acceptMessage_target in Ha as (_ & _ & Hstored & t1 & Ht1 & _).
  destruct (run_heap_evolves w1 trace _ _ Ht1) as (t2 & Ht2 & _).
  fold w2 in Ht2. fold r in Ht2.
  subst resp w3. unfold resumeMessageSend. simpl. fold r.
  match goal with
  | |- context [jsonRpcSuccess ?i ?res ?w0] =>
      destruct (jsonRpcSuccess_fst i res w0) as (-> & -> & _);
      destruct (jsonRpcSuccess_snd i res w0) as (_ & -> & _)
  end.
  repeat split; eauto.
  exists (with_status
            (mkTaskStatus TASK_STATES.FAILED (Some (failureMessage err))
               (Some (now_at (ticks w2)))) t2).
  split; [|done]. simpl. by rewrite list_lookup_alter_eq, Ht2.
Qed.

(** C10: tasks/cancel on a task that is not in a terminal state puts a
    new status object in place of the old one, with the state CANCELED, the
    time of the call and no message, and leaves the id, contextId, history,
    artifacts and metadata of the task as they were. *)
Theorem tasks_cancel_replaces_status rid params w k r t :
  truthy (prop_opt params "id") = true ->
  tasks_get w (prop_opt params "id") = Some (k, r, t) ->
  is_terminal (state (status t)) = false ->
  let resp := fst (handleTasksCancel rid params w) in
  let w' := snd (handleTasksCancel rid params w) in
  result resp = Some (TaskResult r)
  ∧ error resp = None
  ∧ tasks w' = tasks w
  ∧ exists t',
      heap w' !! r = Some t'
      ∧ status t' =
          mkTaskStatus TASK_STATE_CANCELED None (Some (now_at (ticks w)))
      ∧ id t' = id t
      ∧ contextId t' = contextId t
      ∧ history t' = history t
      ∧ artifacts t' = artifacts t
      ∧ metadata t' = metadata t.
Proof.
  intros Hid Hget Hterm resp w'. subst resp w'.
  rewrite (handleTasksCancel_cancels rid params w k r t Hid Hget Hterm).
  match goal with
  | |- context [jsonRpcSuccess ?i ?res ?w0] =>
      destruct (jsonRpcSuccess_fst i res w0) as (-> & -> & _);
      destruct (jsonRpcSuccess_snd i res w0) as (-> & -> & _)
  end.
  simpl. repeat split.
  apply tasks_get_Some in Hget as (_ & _ & Hr).
  eexists. split; [by rewrite list_lookup_alter_eq, Hr|]. done.
Qed.

(** C7: tasks/get on an existing task: with historyLength 0 the task
    returned has no history field; with historyLength N > 0 its history is
    the last min(N, length) entries of the stored history, in their order;
    without historyLength the stored task itself, with its whole history,
    is returned. *)
Theorem tasks_get_historyLength rid params w k r t h :
  truthy (prop_opt params "id") = true ->
  tasks_get w (prop_opt params "id") = Some (k, r, t) ->
  history t = Some h ->
  let resp := fst (handleTasksGet rid params w) in
  let w' := snd (handleTasksGet rid params w) in
  (prop_opt params "historyLength" = Some (JNum 0) ->
   exists r', result resp = Some (TaskResult r')
              ∧ heap w' !! r' = Some (with_history None t))
  ∧ (forall n, (0 < n)%Z ->
       prop_opt params "historyLength" = Some (JNum n) ->
       exists r' h',
         result resp = Some (TaskResult r')
         ∧ heap w' !! r' = Some (with_history (Some h') t)
         ∧ h' = drop (length h - Z.to_nat n) h
         ∧ length h' = Z.to_nat n `min` length h
         ∧ h' `suffix_of` h)
  ∧ (prop_opt params "historyLength" = None ->
     result resp = Some (TaskResult r)
     ∧ heap w' !! r = Some t
     ∧ history t = Some h).
Proof.
  intros Hid Hget Hh resp w'. subst resp w'. split; [|split].
  - intros Hhl.
    rewrite (handleTasksGet_copy rid params w k r t 0 Hid Hget Hhl) by lia.
    match goal with
    | |- context [jsonRpcSuccess ?i ?res ?w0] =>
        destruct (jsonRpcSuccess_fst i res w0) as (-> & _);
        destruct (jsonRpcSuccess_snd i res w0) as (_ & -> & _)
    end.
    eexists. split; [done|]. simpl.
    by rewrite lookup_app_r, Nat.sub_diag by lia.
  - intros n Hn Hhl.
    rewrite (handleTasksGet_copy rid params w k r t n Hid Hget Hhl) by lia.
    match goal with
    | |- context [jsonRpcSuccess ?i ?res ?w0] =>
        destruct (jsonRpcSuccess_fst i res w0) as (-> & _);
        destruct (jsonRpcSuccess_snd i res w0) as (_ & -> & _)
    end.
    destruct (Z.eqb_spec n 0); [lia|]. rewrite Hh.
    exists (length (heap w)), (lastn (Z.to_nat n) h).
    split; [done|]. split.
    { simpl. by rewrite lookup_app_r, Nat.sub_diag by lia. }
    split; [done|]. split; [apply lastn_length | apply lastn_suffix].
  - intros Hhl.
    rewrite (handleTasksGet_alias rid params w k r t Hid Hget Hhl).
    match goal with
    | |- context [jsonRpcSuccess ?i ?res ?w0] =>
        destruct (jsonRpcSuccess_fst i res w0) as (-> & _);
        destruct (jsonRpcSuccess_snd i res w0) as (_ & -> & _)
    end.
    apply tasks_get_Some in Hget as (_ & _ & Hr). done.
Qed.

(** *** The history of a task object *)

Lemma heap_preserved_app (h ts : list Task) : heap_preserved h (h ++ ts).
Proof. intros r t Hr. by apply lookup_app_l_Some. Qed.

Lemma handleTasksGet_preserves rid params w :
  heap_preserved (heap w) (heap (snd (handleTasksGet rid params w)))
  ∧ tasks (snd (handleTasksGet rid params w)) = tasks w.
Proof.
  destruct (handleTasksGet_frame rid params w) as (Ht & (ts & Hh) & _).
  split; [|done]. rewrite Hh. apply heap_preserved_app.
Qed.

Lemma handleTasksList_preserves rid params w :
  heap_preserved (heap w) (heap (snd (handleTasksList rid params w)))
  ∧ tasks (snd (handleTasksList rid params w)) = tasks w.
Proof.
  unfold handleTasksList.
  destruct (listTasks_frame rid (readListParams params) w) as (Ht & (ts & Hh) & _).
  split; [|done]. rewrite Hh. apply heap_preserved_app.
Qed.

Lemma routeMethod_cases request w :
  let nm := normalizeMethodName (method request) in
  let rid := request_id request in
  (nm = "message/send"
   ∧ routeMethod request w = handleMessageSend rid (params request) w)
  ∨ (nm = "tasks/get"
     ∧ routeMethod request w = respond (handleTasksGet rid (params request) w))
  ∨ (nm = "tasks/cancel"
     ∧ routeMethod request w
       = respond (handleTasksCancel rid (params request) w))
  ∨ (nm = "tasks/list"
     ∧ routeMethod request w
       = respond (handleTasksList rid (params request) w))
  ∨ (nm ≠ "message/send" ∧ nm ≠ "tasks/get" ∧ nm ≠ "tasks/cancel"
     ∧ nm ≠ "tasks/list"
     ∧ exists x : JsonRpcResponse * World,
         routeMethod request w = respond x
         ∧ tasks (snd x) = tasks w ∧ heap (snd x) = heap w).
Proof.
  intros nm rid. unfold routeMethod. fold nm. fold rid.
  destruct (decide (nm = "message/send")) as [H1|H1].
  { left. by rewrite bool_decide_eq_true_2. }
  rewrite (bool_decide_eq_false_2 _ H1).
  destruct (decide (nm = "tasks/get")) as [H2|H2].
  { right; left. by rewrite bool_decide_eq_true_2. }
  rewrite (bool_decide_eq_false_2 _ H2).
  destruct (decide (nm = "tasks/cancel")) as [H3|H3].
  { right; right; left. by rewrite bool_decide_eq_true_2. }
  rewrite (bool_decide_eq_false_2 _ H3).
  destruct (decide (nm = "tasks/list")) as [H4|H4].
  { right; right; right; left. by rewrite bool_decide_eq_true_2. }
  rewrite (bool_decide_eq_false_2 _ H4).
  right; right; right; right. repeat split; try done.
  case_bool_decide.
  - eexists. split; [done|].
    by destruct (jsonRpcSuccess_snd rid AgentCardResult w) as (-> & -> & _).
  - eexists. split; [done|].
    match goal with
    | |- context [jsonRpcError ?i ?c ?m ?w0] =>
        by destruct (jsonRpcError_snd i c m w0) as (-> & -> & _)
    end.
Qed.

Lemma step_keeps_history w e r t :
  is_message_send e = false ->
  heap w !! r = Some t ->
  exists t', heap (step w e) !! r = Some t' ∧ history t' = history t.
Proof.
  intros He Hr.
  destruct e as [request|p ret|ctx st|ctx a|]; simpl in *; try done.
  - apply bool_decide_eq_false in He.
    destruct (routeMethod_cases request w)
      as [[H _]|[[_ ->]|[[_ ->]|[[_ ->]|(_ & _ & _ & _ & x & -> & _ & Hx)]]]];
      [done|..]; unfold respond; simpl.
    + destruct (handleTasksGet_preserves (request_id request)
                  (params request) w) as [Hp _].
      exists t. split; [by apply Hp | done].
    + destruct (handleTasksCancel_cases (request_id request) (params request) w)
        as [(c & m & ->)|(k & r0 & t0 & _ & _ & ->)].
      * destruct (jsonRpcError_snd (request_id request) c m w) as (_ & -> & _).
        eauto.
      * match goal with
        | |- context [jsonRpcSuccess ?i ?res ?w0] =>
            destruct (jsonRpcSuccess_snd i res w0) as (_ & -> & _)
        end.
        simpl. by apply (alter_related (fun a b => history b = history a)).
    + destruct (handleTasksList_preserves (request_id request)
                  (params request) w) as [Hp _].
      exists t. split; [by apply Hp | done].
    + rewrite Hx. eauto.
  - unfold sendStatus. simpl.
    by apply (alter_related (fun a b => history b = history a)).
  - unfold sendArtifact. simpl.
    by apply (alter_related (fun a b => history b = history a)).
  - eauto.
Qed.

Lemma step_read_preserves w e :
  is_read e = true ->
  heap_preserved (heap w) (heap (step w e)) ∧ tasks (step w e) = tasks w.
Proof.
  destruct e as [request|p ret|ctx st|ctx a|]; simpl; try done.
  intros He.
  destruct (routeMethod_cases request w)
    as [[H _]|[[_ ->]|[[H _]|[[_ ->]|(_ & H2 & _ & H4 & _)]]]].
  - rewrite H in He. by vm_compute in He.
  - apply handleTasksGet_preserves.
  - rewrite H in He. by vm_compute in He.
  - apply handleTasksList_preserves.
  - by rewrite !bool_decide_eq_false_2 in He.
Qed.

(** C9: the history of a stored task never shrinks.  Whatever runs, once
    or any number of times, the history of every task object goes on from
    what it was; runs other than those of message/send leave it as it is;
    and tasks/get and tasks/list leave every existing task object, and the
    map, exactly as they were, the truncated history being written to a
    new object. *)
Theorem stored_history_never_shrinks w e r t :
  heap w !! r = Some t ->
  (exists t', heap (step w e) !! r = Some t'
              ∧ history_extends (history t) (history t'))
  ∧ (is_message_send e = false ->
     exists t', heap (step w e) !! r = Some t' ∧ history t' = history t)
  ∧ (is_read e = true ->
     heap (step w e) !! r = Some t ∧ tasks (step w e) = tasks w)
  ∧ (forall trace,
       exists t', heap (run w trace) !! r = Some t'
                  ∧ history_extends (history t) (history t')).
Proof.
  intros Hr. split; [|split; [|split]].
  - destruct (step_shape_heap_evolves _ _ (step_has_shape w e) r t Hr)
      as (t' & Hr' & _ & _ & _ & Hh).
    by exists t'.
  - intros He. by apply step_keeps_history.
  - intros He. destruct (step_read_preserves w e He) as [Hp Ht].
    split; [by apply Hp | done].
  - intros trace.
    destruct (run_heap_evolves w trace r t Hr) as (t' & Hr' & _ & _ & _ & Hh).
    by exists t'.
Qed.

(** *** Tasks in a terminal state *)

Lemma truthy_JStr s : s ≠ "" -> truthy (Some (JStr s)) = true.
Proof. intros H. simpl. by rewrite bool_decide_eq_false_2. Qed.

Lemma acceptMessage_keeps_terminal rid msg w r t :
  heap w !! r = Some t -> is_terminal (state (status t)) = true ->
  heap (snd (acceptMessage rid msg w)) !! r = Some t.
Proof.
  intros Hr Hterm.
  destruct (acceptMessage rid msg w) as [[resp|p] w'] eqn:E; simpl.
  - apply acceptMessage_refused in E as (c & m & E & _).
    replace w' with (snd (jsonRpcError rid c m w)) by by rewrite <- E.
    by destruct (jsonRpcError_snd rid c m w) as (_ & -> & _).
  - pose proof E as E0.
    apply acceptMessage_Awaits in E as
        [(Ht & E & _)|(k & r0 & t0 & Ht & Hg & Hterm0 & Hc & _)].
    + rewrite acceptMessage_new in E by done. injection E as -> ->. simpl.
      by apply lookup_app_l_Some.
    + destruct (acceptMessage_existing rid msg w k r0 t0 Ht Hg Hterm0 Hc)
        as (cid & n & E' & Hn).
      rewrite E' in E0. injection E0 as <- <-. simpl.
      apply tasks_get_Some in Hg as (_ & _ & Hr0).
      assert (r0 ≠ r) by (intros ->; congruence).
      by rewrite !list_lookup_alter_ne.
Qed.

Lemma routeMethod_keeps_terminal request w r t :
  heap w !! r = Some t -> is_terminal (state (status t)) = true ->
  heap (snd (routeMethod request w)) !! r = Some t.
Proof.
  intros Hr Hterm.
  destruct (routeMethod_cases request w)
    as [[_ ->]|[[_ ->]|[[_ ->]|[[_ ->]|(_ & _ & _ & _ & x & -> & _ & Hx)]]]];
    unfold respond; simpl.
  - unfold handleMessageSend.
    destruct (validateSendParams (params request)) as [reason|msg].
    + unfold respond. simpl.
      match goal with
      | |- context [jsonRpcError ?i ?c ?m ?w0] =>
          by destruct (jsonRpcError_snd i c m w0) as (_ & -> & _)
      end.
    + by apply acceptMessage_keeps_terminal.
  - by apply handleTasksGet_preserves.
  - destruct (handleTasksCancel_cases (request_id request) (params request) w)
      as [(c & m & ->)|(k & r0 & t0 & Hg & Hterm0 & ->)].
    + by destruct (jsonRpcError_snd (request_id request) c m w) as (_ & -> & _).
    + match goal with
      | |- context [jsonRpcSuccess ?i ?res ?w0] =>
          destruct (jsonRpcSuccess_snd i res w0) as (_ & -> & _)
      end.
      simpl. apply tasks_get_Some in Hg as (_ & _ & Hr0).
      assert (r0 ≠ r) by (intros ->; congruence).
      by rewrite list_lookup_alter_ne.
  - by apply handleTasksList_preserves.
  - by rewrite Hx.
Qed.

(** C2, as the code has it: for a task whose state is terminal, a
    message/send that names it is answered with the error -32004 and a
    tasks/cancel on it with the error -32002, both leaving the map and
    every task object as they were; and the code that runs when a JSON-RPC
    request of any method arrives (for message/send, the part before the
    handler callback is called) leaves the record of a task that is in a
    terminal state as it is, also over any sequence of requests. *)
Theorem terminal_task_refuses_requests w k r t :
  k ≠ "" ->
  tasks_get w (Some (JStr k)) = Some (k, r, t) ->
  is_terminal (state (status t)) = true ->
  (forall rid params msg,
     validateSendParams params = inr msg ->
     prop msg "taskId" = Some (JStr k) ->
     exists resp w',
       handleMessageSend rid params w = (Responds resp, w')
       ∧ result resp = None
       ∧ (code <$> error resp) = Some (-32004)%Z
       ∧ heap w' = heap w ∧ tasks w' = tasks w)
  ∧ (forall rid params,
       prop_opt params "id" = Some (JStr k) ->
       result (fst (handleTasksCancel rid params w)) = None
       ∧ (code <$> error (fst (handleTasksCancel rid params w)))
         = Some (-32002)%Z
       ∧ heap (snd (handleTasksCancel rid params w)) = heap w
       ∧ tasks (snd (handleTasksCancel rid params w)) = tasks w)
  ∧ (forall requests,
       heap (run w (map Request requests)) !! r = Some t).
Proof.
  intros Hk Hget Hterm. split; [|split].
  - intros rid params msg Hv Htid.
    unfold handleMessageSend. rewrite Hv. unfold acceptMessage.
    rewrite Htid, (truthy_JStr k Hk), Hget, Hterm. unfold respond.
    eexists _, _. split; [reflexivity|].
    match goal with
    | |- context [jsonRpcError ?i ?c ?m ?w0] =>
        destruct (jsonRpcError_fst i c m w0) as (-> & -> & _);
        destruct (jsonRpcError_snd i c m w0) as (-> & -> & _)
    end.
    done.
  - intros rid params Hid.
    rewrite (handleTasksCancel_refuses rid params w k r t).
    + match goal with
      | |- context [jsonRpcError ?i ?c ?m ?w0] =>
          destruct (jsonRpcError_fst i c m w0) as (-> & -> & _);
          destruct (jsonRpcError_snd i c m w0) as (-> & -> & _)
      end.
      done.
    + rewrite Hid. by apply truthy_JStr.
    + by rewrite Hid.
    + done.
  - apply tasks_get_Some in Hget as (_ & _ & Hr).
    intros requests. revert w Hr.
    induction requests as [|request requests IH]; intros w Hr; [done|].
    simpl. apply IH. by apply routeMethod_keeps_terminal.
Qed.

(** *** A new task *)

Lemma keys_generated_fresh w :
  Inj (=) (=) uuid_at -> keys_generated w ->
  assoc (uuid_at (uuids w)) (tasks w) = None.
Proof.
  intros Hinj Hgen.
  destruct (assoc (uuid_at (uuids w)) (tasks w)) as [r|] eqn:Ha; [|done].
  apply assoc_elem_of in Ha. destruct (Hgen _ _ Ha) as (i & Hi & Heq).
  apply Hinj in Heq. lia.
Qed.


(** *** Page tokens: [parseInt] reads back what [String] writes *)

Lemma digit_cases d :
  (0 <= d < 10)%Z ->
  d = 0%Z ∨ d = 1%Z ∨ d = 2%Z ∨ d = 3%Z ∨ d = 4%Z ∨ d = 5%Z ∨ d = 6%Z
  ∨ d = 7%Z ∨ d = 8%Z ∨ d = 9%Z.
Proof. lia. Qed.

Lemma digit_val_char d : (0 <= d < 10)%Z -> digit_val (digit_char d) = Some d.
Proof.
  intros Hd. destruct (digit_cases d Hd) as [->|[->|[->|[->|[->|[->|[->|[->|[->| ->]]]]]]]]];
    reflexivity.
Qed.

Lemma head_digit_plain s :
  head_digit s ->
  skip_space s = s ∧ strip_sign s = (false, s) ∧ starts_with_digit s = true
  ∧ s ≠ "".
Proof.
  destruct s as [|c s]; [done|]. intros (d & Hd & ->).
  destruct (digit_cases d Hd) as [->|[->|[->|[->|[->|[->|[->|[->|[->| ->]]]]]]]]];
    done.
Qed.

Lemma digits_head_digit fuel n c rest :
  head_digit (String c rest) -> head_digit (digits fuel n (String c rest)).
Proof.
  revert n c rest. induction fuel as [|fuel IH]; intros n c rest Hc; [done|].
  simpl. destruct (n <? 10)%Z.
  - exists (n mod 10)%Z. split; [apply Z.mod_pos_bound; lia | done].
  - apply IH. exists (n mod 10)%Z. split; [apply Z.mod_pos_bound; lia | done].
Qed.

Lemma digits_S_head_digit fuel n rest : head_digit (digits (S fuel) n rest).
Proof.
  simpl. destruct (n <? 10)%Z.
  - exists (n mod 10)%Z. split; [apply Z.mod_pos_bound; lia | done].
  - apply digits_head_digit.
    exists (n mod 10)%Z. split; [apply Z.mod_pos_bound; lia | done].
Qed.

Lemma parse_digits_digits fuel n :
  (0 <= n)%Z -> Z.to_nat n < fuel ->
  exists m, forall acc rest,
    parse_digits acc (digits fuel n rest) = parse_digits (acc * m + n) rest.
Proof.
  revert n. induction fuel as [|fuel IH]; intros n Hn Hfuel; [lia|].
  cbn [digits]. destruct (Z.ltb_spec n 10) as [Hlt|Hge].
  - exists 10%Z. intros acc rest. cbn [parse_digits].
    rewrite Z.mod_small by lia. rewrite digit_val_char by lia.
    f_equal. lia.
  - destruct (IH (n / 10)%Z) as (m & Hm).
    { apply Z.div_pos; lia. }
    { assert (n / 10 < n)%Z by (apply Z.div_lt; lia). lia. }
    exists (10 * m)%Z. intros acc rest. rewrite Hm. cbn [parse_digits].
    rewrite digit_val_char by (apply Z.mod_pos_bound; lia).
    f_equal. pose proof (Z.div_mod n 10). lia.
Qed.

Lemma parseInt_String_of_number n :
  (0 <= n)%Z ->
  parseInt (String_of_number n) = Some n ∧ String_of_number n ≠ "".
Proof.
  intros Hn. unfold String_of_number. destruct (Z.ltb_spec n 0); [lia|].
  pose proof (digits_S_head_digit (Z.to_nat n) n "") as Hhead.
  destruct (head_digit_plain _ Hhead) as (Hsp & Hsign & Hstart & Hne).
  split; [|done]. unfold parseInt. rewrite Hsp, Hsign, Hstart.
  destruct (parse_digits_digits (S (Z.to_nat n)) n Hn) as (m & Hm); [lia|].
  rewrite Hm. cbn [parse_digits]. done.
Qed.

Lemma decodePageToken_next n :
  (0 <= n)%Z -> decodePageToken (Some (String_of_number n)) = Some n.
Proof.
  intros Hn. destruct (parseInt_String_of_number n Hn) as [Hp Hne].
  unfold decodePageToken. rewrite bool_decide_eq_false_2 by done.
  rewrite Hp. destruct (Z.ltb_spec n 0); [lia | done].
Qed.

(** *** The tasks of the map, and their projections *)

Lemma projectTask_fields hl ia t :
  id (projectTask hl ia t) = id t
  ∧ contextId (projectTask hl ia t) = contextId t
  ∧ status (projectTask hl ia t) = status t
  ∧ metadata (projectTask hl ia t) = metadata t.
Proof.
  unfold projectTask.
  destruct hl as [[|n|n]|], (history t), ia, (artifacts t); done.
Qed.

Lemma projectTask_artifacts hl ia t :
  artifacts (projectTask hl ia t) = if ia then artifacts t else None.
Proof.
  unfold projectTask.
  destruct hl as [[|n|n]|], (history t), ia, (artifacts t); done.
Qed.

Lemma projectTask_history hl ia t :
  (0 <= default 0 hl)%Z ->
  history (projectTask hl ia t)
  = match hl with
    | Some 0%Z => None
    | Some n => lastn (Z.to_nat n) <$> history t
    | None => history t
    end.
Proof.
  intros Hn. unfold projectTask.
  destruct hl as [[|n|n]|]; simpl in Hn; try lia;
    destruct (history t) as [h|], ia, (artifacts t); simpl; try done;
    by rewrite <- slice_tail.
Qed.

Lemma values_ids (m : list (string * nat)) (h : list Task) :
  (forall k r, (k, r) ∈ m -> exists t, h !! r = Some t ∧ id t = k) ->
  map id (omap (fun kr => h !! snd kr) m) = map fst m.
Proof.
  induction m as [|[k r] m IH]; intros Hwf; [done|].
  destruct (Hwf k r) as (t & Hr & Hid); [left|].
  cbn [omap list_omap snd]. rewrite Hr. cbn [map fst]. f_equal; [done|].
  apply IH. intros k' r' Hin. apply Hwf. by right.
Qed.

Lemma values_extend (m : list (string * nat)) (h ts : list Task) :
  (forall k r, (k, r) ∈ m -> exists t, h !! r = Some t ∧ id t = k) ->
  omap (fun kr => (h ++ ts) !! snd kr) m = omap (fun kr => h !! snd kr) m.
Proof.
  induction m as [|[k r] m IH]; intros Hwf; [done|].
  destruct (Hwf k r) as (t & Hr & Hid); [left|].
  cbn [omap list_omap snd].
  rewrite (lookup_app_l_Some _ _ _ _ Hr), Hr. f_equal.
  apply IH. intros k' r' Hin. apply Hwf. by right.
Qed.

Lemma tasks_values_ids w : store_wf w -> map id (tasks_values w) = keys w.
Proof. intros [_ Hwf]. by apply values_ids. Qed.

Lemma listTasks_keeps_values rid p w :
  store_wf w ->
  store_wf (snd (listTasks rid p w))
  ∧ tasks_values (snd (listTasks rid p w)) = tasks_values w.
Proof.
  intros Hwf. destruct (listTasks_frame rid p w) as (Ht & (ts & Hh) & _ & Hu).
  split.
  - eapply step_shape_store_wf; [|exact Hwf]. apply step_shape_frame; eauto.
  - unfold tasks_values. rewrite Ht, Hh. apply values_extend, Hwf.
Qed.

Lemma filterTasks_sublist c s tf l : filterTasks c s tf l `sublist_of` l.
Proof.
  unfold filterTasks.
  destruct c as [c|], s as [s|], tf as [after|]; repeat case_bool_decide;
    repeat (first [reflexivity | etrans; [apply sublist_filter|]]).
Qed.

Lemma slice_sublist {A} (l : list A) a b : slice l a b `sublist_of` l.
Proof. unfold slice. etrans; [apply sublist_take | apply sublist_drop]. Qed.

(** *** tasks/list: what a page holds *)

Lemma readListParams_raw params :
  readListParams params =
    mkListParams
      (default 50%Z (as_number (prop_opt params "pageSize")))
      (as_string (prop_opt params "pageToken"))
      (as_string (prop_opt params "contextId"))
      (as_string (prop_opt params "status"))
      (as_number (prop_opt params "historyLength"))
      (as_string (prop_opt params "statusTimestampAfter"))
      (strict_eq (prop_opt params "includeArtifacts") (Some (JBool true))).
Proof.
  unfold readListParams.
  destruct params as [[|b|n|s|l|fs]|]; try reflexivity.
  - by destruct b.
  - simpl. by destruct (n =? 0)%Z.
  - simpl. by destruct (bool_decide (s = "")).
Qed.

Lemma validateListParams_bounds p tf :
  validateListParams p = inr tf ->
  (1 <= list_pageSize p <= 100)%Z
  ∧ (0 <= default 0 (list_historyLength p))%Z
  ∧ (forall s, list_status p = Some s -> s ≠ "").
Proof.
  unfold validateListParams. intros H.
  destruct (Z.ltb_spec (list_pageSize p) 1); [done|].
  destruct (Z.ltb_spec 100 (list_pageSize p)); [done|].
  simpl in H. split; [lia|]. split.
  - destruct (list_historyLength p) as [n|]; simpl; [|lia].
    destruct (Z.ltb_spec n 0); [done | lia].
  - intros s Hs. rewrite Hs in H.
    destruct (match list_historyLength p with
              | Some n => (n <? 0)%Z | None => false end); [done|].
    case_bool_decide as Hin; [|done].
    intros ->. unfold VALID_TASK_STATES in Hin.
    repeat (apply elem_of_cons in Hin as [Hin|Hin]; [discriminate|]).
    by apply elem_of_nil in Hin.
Qed.

Lemma listing_elem_of p tf w t :
  t ∈ page_of p tf w (default 0%Z (decodePageToken (list_pageToken p))) ->
  t ∈ tasks_values w.
Proof.
  intros Hin. unfold page_of in Hin.
  eapply elem_of_sublist in Hin; [|apply slice_sublist].
  unfold listing in Hin. rewrite (Array_sort_Permutation status_time) in Hin.
  eapply elem_of_sublist; [exact Hin | apply filterTasks_sublist].
Qed.

(** C8: each task of a tasks/list page is a new object that takes the
    id, contextId, status and metadata of a task of the map; it has the
    artifacts of that task only when includeArtifacts is true, and
    otherwise no artifacts field; its history is left out when
    historyLength is 0, is the last historyLength entries of the stored
    history when historyLength is a positive number, and is the whole
    stored history when historyLength is absent. *)
Theorem tasks_list_projection rid params w resp w' refs next n total :
  handleTasksList rid params w = (resp, w') ->
  result resp = Some (ListTasksResponse refs next n total) ->
  let historyLength := as_number (prop_opt params "historyLength") in
  let includeArtifacts :=
    strict_eq (prop_opt params "includeArtifacts") (Some (JBool true)) in
  exists page,
    Forall2
      (fun r t =>
         t ∈ tasks_values w
         ∧ length (heap w) <= r
         ∧ exists t',
             heap w' !! r = Some t'
             ∧ id t' = id t ∧ contextId t' = contextId t
             ∧ status t' = status t ∧ metadata t' = metadata t
             ∧ artifacts t' = (if includeArtifacts then artifacts t else None)
             ∧ history t' =
                 match historyLength with
                 | Some 0%Z => None
                 | Some k => lastn (Z.to_nat k) <$> history t
                 | None => history t
                 end)
      refs page.
Proof.
  intros H Hres hl ia. unfold handleTasksList in H.
  destruct (listTasks_success _ _ _ _ _ _ H Hres) as (tf & start & Hv & Hd).
  destruct (validateListParams_bounds _ _ Hv) as (_ & Hhl & _).
  rewrite (listTasks_page _ _ _ _ _ Hv Hd) in H.
  set (page := page_of (readListParams params) tf w start) in *.
  assert (Hin : forall t, t ∈ page -> t ∈ tasks_values w).
  { intros t Ht. apply (listing_elem_of (readListParams params) tf w).
    by rewrite Hd. }
  assert (Ehl : list_historyLength (readListParams params) = hl)
    by by rewrite readListParams_raw.
  assert (Eia : list_includeArtifacts (readListParams params) = ia)
    by by rewrite readListParams_raw.
  rewrite Ehl, Eia in *.
  match type of H with
  | jsonRpcSuccess ?i ?res ?w0 = _ =>
      pose proof (jsonRpcSuccess_fst i res w0) as (Hr & _);
      pose proof (jsonRpcSuccess_snd i res w0) as (_ & Hh & _);
      rewrite H in Hr, Hh
  end.
  simpl in Hr, Hh. rewrite Hres in Hr. injection Hr as -> _ _ _.
  exists page. apply Forall2_same_length_lookup_2.
  { by rewrite length_seq. }
  intros i r t Hr Ht. apply lookup_seq in Hr as [-> Hi].
  split; [apply Hin; by eapply list_elem_of_lookup_2|].
  split; [lia|].
  exists (projectTask hl ia t). split.
  { rewrite Hh, lookup_app_r by lia.
    replace (length (heap w) + i - length (heap w)) with i by lia.
    by rewrite list_lookup_fmap, Ht. }
  destruct (projectTask_fields hl ia t) as (-> & -> & -> & ->).
  rewrite projectTask_artifacts, projectTask_history by done. done.
Qed.

(** *** tasks/list: order and pagination *)

Lemma page_order p tf w start i j a b :
  store_wf w -> i < j ->
  page_of p tf w start !! i = Some a ->
  page_of p tf w start !! j = Some b ->
  (status_time b <= status_time a)%Z
  ∧ (status_time a = status_time b -> precedes (id a) (id b) (keys w)).
Proof.
  intros Hwf Hij Ha Hb.
  pose proof (lookup_precedes _ _ _ _ _ Hij Ha Hb) as Hpage.
  assert (Hlisting : precedes a b (Array_sort compareFn (selected p tf w))).
  { unfold precedes in *. etrans; [exact Hpage | apply slice_sublist]. }
  apply (Array_sort_order status_time) in Hlisting as [Htime Htie].
  split; [done|]. intros Heq. specialize (Htie Heq).
  unfold precedes in *. rewrite <- (tasks_values_ids w Hwf).
  change [id a; id b] with (map id [a; b]).
  apply fmap_sublist.
  etrans; [exact Htie | apply filterTasks_sublist].
Qed.

Lemma selected_NoDup p tf w : store_wf w -> NoDup (map id (selected p tf w)).
Proof.
  intros Hwf. apply (sublist_NoDup _ (map id (tasks_values w))).
  - rewrite (tasks_values_ids w Hwf). apply Hwf.
  - apply fmap_sublist, filterTasks_sublist.
Qed.

Lemma map_id_projectTask hl ia l : map id (map (projectTask hl ia) l) = map id l.
Proof.
  rewrite map_map. apply map_ext. intros t.
  by destruct (projectTask_fields hl ia t) as (-> & _).
Qed.

Lemma followPages_from rid p tf fuel :
  validateListParams p = inr tf ->
  forall w start tok,
    store_wf w -> (0 <= start)%Z ->
    decodePageToken (Some tok) = Some start ->
    0 < fuel -> length (listing p tf w) < Z.to_nat start + fuel ->
    followPages fuel rid p tok w
    = Some (map id (drop (Z.to_nat start) (listing p tf w))).
Proof.
  intros Hv. destruct (validateListParams_bounds _ _ Hv) as (Hsize & _ & _).
  induction fuel as [|fuel IH]; intros w start tok Hwf Hstart Htok Hpos Hfuel;
    [lia|].
  cbn [followPages].
  destruct (listTasks_keeps_values rid (with_pageToken tok p) w Hwf)
    as [Hwf' Hvalues].
  assert (Hlisting : listing p tf (snd (listTasks rid (with_pageToken tok p) w))
                     = listing p tf w).
  { unfold listing, selected. by rewrite Hvalues. }
  rewrite (listTasks_page rid (with_pageToken tok p) w tf start Hv Htok)
    in Hwf', Hlisting |- *.
  change (page_of (with_pageToken tok p) tf w start)
    with (page_of p tf w start) in *.
  change (listing (with_pageToken tok p) tf w) with (listing p tf w) in *.
  change (list_pageSize (with_pageToken tok p)) with (list_pageSize p) in *.
  change (list_historyLength (with_pageToken tok p))
    with (list_historyLength p) in *.
  change (list_includeArtifacts (with_pageToken tok p))
    with (list_includeArtifacts p) in *.
  match goal with
  | |- context [jsonRpcSuccess ?i ?res ?w0] =>
      pose proof (jsonRpcSuccess_fst i res w0) as (Hres & _);
      pose proof (jsonRpcSuccess_snd i res w0) as (_ & Hheap & _);
      destruct (jsonRpcSuccess i res w0) as [resp w'] eqn:E
  end.
  simpl in Hres, Hheap, Hwf', Hlisting. rewrite Hres.
  rewrite <- (length_map (projectTask (list_historyLength p)
                            (list_includeArtifacts p)) (page_of p tf w start))
    at 1.
  rewrite (read_tasks_fresh (heap w) _ w' Hheap).
  rewrite map_id_projectTask.
  assert (Hpage : page_of p tf w start
                  = take (Z.to_nat (list_pageSize p))
                      (drop (Z.to_nat start) (listing p tf w))).
  { unfold page_of. apply slice_window; lia. }
  destruct (Z.ltb_spec (start + list_pageSize p)
              (Z.of_nat (length (listing p tf w)))) as [Hmore|Hlast].
  - destruct (parseInt_String_of_number (start + list_pageSize p)) as [_ Hne];
      [lia|].
    rewrite bool_decide_eq_false_2 by done.
    rewrite (IH w' (start + list_pageSize p)%Z); try done; try lia.
    + rewrite Hlisting, Hpage, <- map_app. do 2 f_equal.
      replace (Z.to_nat (start + list_pageSize p))
        with (Z.to_nat start + Z.to_nat (list_pageSize p)) by lia.
      rewrite <- drop_drop. apply take_drop.
    + apply decodePageToken_next. lia.
    + rewrite Hlisting. lia.
  - rewrite bool_decide_eq_true_2 by done.
    rewrite Hpage. do 2 f_equal. apply take_ge. rewrite length_drop. lia.
Qed.

Lemma hasContextId_true c t :
  hasContextId c t = true <-> contextId t = Some (JStr c).
Proof.
  unfold hasContextId.
  destruct (contextId t) as [[|b|n|s|l|fs]|]; simpl; try (split; congruence).
  rewrite bool_decide_eq_true. split; congruence.
Qed.

Lemma notBefore_true after t :
  notBefore after t = true
  <-> exists ms, timestamp (status t) = Some ms ∧ (after <= ms)%Z.
Proof.
  unfold notBefore. destruct (timestamp (status t)) as [ms|].
  - rewrite Z.leb_le. split; [eauto|]. by intros (? & [= <-] & ?).
  - split; [done|]. by intros (? & ? & ?).
Qed.

Lemma selected_spec p tf w t :
  validateListParams p = inr tf ->
  t ∈ selected p tf w
  <-> t ∈ tasks_values w
      ∧ (forall c, list_contextId p = Some c -> c ≠ "" ->
           contextId t = Some (JStr c))
      ∧ (forall s, list_status p = Some s ->
           TaskState_string (state (status t)) = s)
      ∧ (forall after, tf = Some after ->
           exists ms, timestamp (status t) = Some ms ∧ (after <= ms)%Z).
Proof.
  intros Hv. destruct (validateListParams_bounds _ _ Hv) as (_ & _ & Hst).
  unfold selected, filterTasks.
  set (l1 := match list_contextId p with
             | Some c => if bool_decide (c = "") then tasks_values w
                         else filter (fun t => hasContextId c t = true)
                                (tasks_values w)
             | None => tasks_values w
             end).
  set (l2 := match list_status p with
             | Some s => if bool_decide (s = "") then l1
                         else filter (fun t => hasState s t = true) l1
             | None => l1
             end).
  assert (H1 : t ∈ l1 <-> t ∈ tasks_values w
                          ∧ (forall c, list_contextId p = Some c -> c ≠ "" ->
                               contextId t = Some (JStr c))).
  { subst l1. destruct (list_contextId p) as [c|].
    - case_bool_decide as Hc.
      + split; [|tauto]. intros Hin. split; [done|]. by intros ? [= <-].
      + rewrite list_elem_of_filter, hasContextId_true.
        split.
        * intros [? ?]. split; [done|]. by intros ? [= <-].
        * intros [? Hx]. split; [by apply Hx | done].
    - split; [|tauto]. intros Hin. split; [done|]. done. }
  assert (H2 : t ∈ l2 <-> t ∈ l1
                          ∧ (forall s, list_status p = Some s ->
                               TaskState_string (state (status t)) = s)).
  { subst l2. destruct (list_status p) as [s|].
    - rewrite bool_decide_eq_false_2 by by apply Hst.
      rewrite list_elem_of_filter. unfold hasState.
      rewrite bool_decide_eq_true. split.
      + intros [? ?]. split; [done|]. by intros ? [= <-].
      + intros [? Hx]. split; [by apply Hx | done].
    - split; [|tauto]. intros Hin. split; [done|]. done. }
  destruct tf as [after|].
  - rewrite list_elem_of_filter, notBefore_true, H2, H1. split.
    + intros (? & (? & ?) & ?). repeat split; try done. by intros ? [= <-].
    + intros ((? & ?) & ? & Hx)%and_assoc. split; [by apply Hx | done].
  - rewrite H2, H1. split.
    + intros ((? & ?) & ?). repeat split; done.
    + intros (? & ? & ? & _). done.
Qed.

(** *** The id of an error response *)

(** C5, as the code has it: when the body is not JSON the answer is the
    error -32700, and when the id of the envelope is present and is
    neither a string, nor a number, nor null, the answer is the error
    -32600; in both cases the HTTP status is 200 and the id of the response
    is not null: [jsonRpcError] puts a UUID drawn for the purpose in its
    place. *)
Theorem undetermined_id_answered_with_uuid w :
  handleJsonRpc true None w
  = (inl (200%Z,
          mkJsonRpcResponse (Some (IdStr (uuid_at (uuids w)))) None
            (Some (mkJsonRpcError (-32700) "Parse error"))),
     mkWorld (tasks w) (heap w) (S (uuids w)) (ticks w))
  ∧ forall fields v,
      assoc "id" fields = Some v ->
      match v with
      | JBool _ | JArr _ | JObj _ => True
      | JNull | JNum _ | JStr _ => False
      end ->
      handleJsonRpc true (Some (JObj fields)) w
      = (inl (200%Z,
              mkJsonRpcResponse (Some (IdStr (uuid_at (uuids w)))) None
                (Some (mkJsonRpcError (-32600)
                         "Invalid Request: id must be string or number"))),
         mkWorld (tasks w) (heap w) (S (uuids w)) (ticks w)).
Proof.
  split; [reflexivity|].
  intros fields v Hid Hv. unfold handleJsonRpc, validateJsonRpcRequestDetailed.
  simpl. rewrite Hid. by destruct v.
Qed.

(** *** Every write to a task object *)

Lemma touched_trans a b c : touched a b -> touched b c -> touched a c.
Proof. intros Hab Hbc. induction Hbc; [done | constructor; auto..]. Qed.

Lemma heap_touched_refl h : heap_touched h h.
Proof. intros r t Hr. exists t. split; [done | constructor]. Qed.

Lemma heap_touched_trans h1 h2 h3 :
  heap_touched h1 h2 -> heap_touched h2 h3 -> heap_touched h1 h3.
Proof.
  intros H12 H23 r t Hr.
  destruct (H12 r t Hr) as (t2 & Hr2 & E12).
  destruct (H23 r t2 Hr2) as (t3 & Hr3 & E23).
  exists t3. split; [done | by eapply touched_trans].
Qed.

Lemma heap_touched_app h ts : heap_touched h (h ++ ts).
Proof.
  intros r t Hr. exists t. split; [by apply lookup_app_l_Some | constructor].
Qed.

Lemma heap_touched_alter h r f :
  (forall t, touched t (f t)) -> heap_touched h (alter f r h).
Proof.
  intros Hf. unfold heap_touched. apply (alter_related touched); [constructor | done].
Qed.

Lemma heap_touched_status h r s m z :
  heap_touched h (alter (with_status (mkTaskStatus s m (Some z))) r h).
Proof. apply heap_touched_alter. intros t. repeat constructor. Qed.

Lemma heap_touched_message h r x :
  heap_touched h (alter (fun t => with_history (push (history t) x) t) r h).
Proof. apply heap_touched_alter. intros t. repeat constructor. Qed.

Lemma heap_touched_artifact h r a :
  heap_touched h (alter (fun t => with_artifacts (push (artifacts t) a) t) r h).
Proof. apply heap_touched_alter. intros t. repeat constructor. Qed.

Lemma step_effect_touched w w' :
  uuids w <= uuids w' -> ticks w <= ticks w' -> tasks w' = tasks w ->
  heap_touched (heap w) (heap w') -> step_effect w w'.
Proof. intros. split; [done|]. split; [done|]. by left. Qed.

Lemma step_effect_response (x : JsonRpcResponse * World) w0 w :
  tasks (snd x) = tasks w0 ∧ heap (snd x) = heap w0
  ∧ ticks (snd x) = ticks w0 ∧ uuids w0 <= uuids (snd x) ->
  step_effect w w0 -> step_effect w (snd x).
Proof.
  intros (Ht & Hh & Hc & Hu) (Hu0 & Hc0 & Hs).
  split; [lia|]. split; [lia|]. rewrite Ht, Hh.
  destruct Hs as [Hs|(msg & ? & ? & ?)]; [by left|].
  right. exists msg. repeat split; [done | done | lia].
Qed.

Lemma step_effect_refl w : step_effect w w.
Proof. apply step_effect_touched; [lia | lia | done | apply heap_touched_refl]. Qed.

Lemma acceptMessage_effect rid msg w :
  step_effect w (snd (acceptMessage rid msg w)).
Proof.
  destruct (acceptMessage rid msg w) as [[resp|p] w'] eqn:E; simpl.
  - apply acceptMessage_refused in E as (c & m & E & _).
    replace w' with (snd (jsonRpcError rid c m w)) by by rewrite <- E.
    eapply step_effect_response; [apply jsonRpcError_snd | apply step_effect_refl].
  - pose proof E as E0.
    apply acceptMessage_Awaits in E as
        [(Ht & E & _)|(k & r & t & Ht & Hg & Hterm & Hc & _)].
    + rewrite acceptMessage_new in E by done. injection E as -> ->.
      split; simpl.
      { destruct (truthy (prop msg "contextId")); lia. }
      split; [lia|]. right. exists msg. repeat split.
      destruct (truthy (prop msg "contextId")); lia.
    + destruct (acceptMessage_existing rid msg w k r t Ht Hg Hterm Hc)
        as (cid & n & E' & Hn).
      rewrite E' in E0. injection E0 as <- <-.
      apply tasks_get_Some in Hg as (_ & Ha & _).
      apply step_effect_touched; simpl; [done | lia | by apply map_set_same |].
      eapply heap_touched_trans;
        [apply heap_touched_status | apply heap_touched_message].
Qed.

Lemma routeMethod_other request w :
  let nm := normalizeMethodName (method request) in
  nm ≠ "message/send" -> nm ≠ "tasks/get" -> nm ≠ "tasks/cancel" ->
  nm ≠ "tasks/list" ->
  routeMethod request w =
    respond
      (if bool_decide (nm = "agent/card")
       then jsonRpcSuccess (request_id request) AgentCardResult w
       else jsonRpcError (request_id request)
              JSONRPC_ERROR_CODES.METHOD_NOT_FOUND
              (String.append "Method not found: " (method request)) w).
Proof.
  intros nm H1 H2 H3 H4. unfold routeMethod. fold nm.
  rewrite !bool_decide_eq_false_2 by done.
  by destruct (bool_decide (nm = "agent/card")).
Qed.

Lemma routeMethod_effect request w :
  step_effect w (snd (routeMethod request w)).
Proof.
  destruct (routeMethod_cases request w)
    as [[_ ->]|[[_ ->]|[[_ ->]|[[_ ->]|(H1 & H2 & H3 & H4 & _)]]]];
    unfold respond; simpl.
  - unfold handleMessageSend.
    destruct (validateSendParams (params request)) as [reason|msg].
    + unfold respond. simpl.
      eapply step_effect_response; [apply jsonRpcError_snd | apply step_effect_refl].
    + apply acceptMessage_effect.
  - destruct (handleTasksGet_frame (request_id request) (params request) w)
      as (Ht & (ts & Hh) & Hc & Hu).
    apply step_effect_touched; [done | lia | done |].
    rewrite Hh. apply heap_touched_app.
  - destruct (handleTasksCancel_cases (request_id request) (params request) w)
      as [(c & m & ->)|(k & r & t & _ & _ & ->)].
    + eapply step_effect_response; [apply jsonRpcError_snd | apply step_effect_refl].
    + eapply step_effect_response; [apply jsonRpcSuccess_snd |].
      apply step_effect_touched; simpl; [lia | lia | done |].
      apply heap_touched_status.
  - unfold handleTasksList.
    destruct (listTasks_frame (request_id request)
                (readListParams (params request)) w)
      as (Ht & (ts & Hh) & Hc & Hu).
    apply step_effect_touched; [done | lia | done |].
    rewrite Hh. apply heap_touched_app.
  - rewrite (routeMethod_other request w H1 H2 H3 H4). unfold respond. simpl.
    case_bool_decide.
    + eapply step_effect_response; [apply jsonRpcSuccess_snd | apply step_effect_refl].
    + eapply step_effect_response; [apply jsonRpcError_snd | apply step_effect_refl].
Qed.

Lemma resumeMessageSend_effect p ret w :
  step_effect w (snd (resumeMessageSend p ret w)).
Proof.
  unfold resumeMessageSend. destruct ret as [msg|t| |err]; simpl.
  - eapply step_effect_response; [apply jsonRpcSuccess_snd |].
    apply step_effect_touched; simpl; [lia | lia | done |].
    eapply heap_touched_trans;
      [apply heap_touched_status | apply heap_touched_message].
  - eapply step_effect_response; [apply jsonRpcSuccess_snd |].
    apply step_effect_touched; simpl; [lia | lia | done |].
    apply heap_touched_app.
  - eapply step_effect_response; [apply jsonRpcSuccess_snd | apply step_effect_refl].
  - eapply step_effect_response; [apply jsonRpcSuccess_snd |].
    apply step_effect_touched; simpl; [lia | lia | done |].
    apply heap_touched_status.
Qed.

Lemma step_has_effect w e : e ≠ ClearTasks -> step_effect w (step w e).
Proof.
  intros He. destruct e as [request|p ret|ctx st|ctx a|]; simpl.
  - apply routeMethod_effect.
  - apply resumeMessageSend_effect.
  - unfold sendStatus. simpl.
    apply step_effect_touched; simpl; [lia | lia | done |].
    apply heap_touched_status.
  - unfold sendArtifact.
    apply step_effect_touched; simpl; [lia | lia | done |].
    apply heap_touched_artifact.
  - done.
Qed.

Lemma step_effect_heap_touched w w' :
  step_effect w w' -> heap_touched (heap w) (heap w').
Proof.
  intros (_ & _ & [[_ H]|(msg & _ & -> & _)]);
    [done | apply heap_touched_app].
Qed.

Lemma step_heap_touched w e : heap_touched (heap w) (heap (step w e)).
Proof.
  destruct e; try (by apply step_effect_heap_touched, step_has_effect).
  apply heap_touched_refl.
Qed.

Lemma run_heap_touched w trace : heap_touched (heap w) (heap (run w trace)).
Proof.
  revert w. induction trace as [|e trace IH]; intros w; simpl.
  - apply heap_touched_refl.
  - eapply heap_touched_trans; [|apply IH]. apply step_heap_touched.
Qed.

(** *** Method names *)

Lemma methodMap_targets alias canonical :
  assoc alias methodMap = Some canonical ->
  canonical ∈ [ "message/send"; "tasks/get"; "tasks/cancel"; "tasks/list";
                "agent/card" ]
  ∧ assoc canonical methodMap = None.
Proof.
  intros H. apply assoc_elem_of in H. unfold methodMap in H.
  repeat (apply elem_of_cons in H as [H|H];
          [injection H as -> ->; split; [by repeat constructor | reflexivity]|]).
  by apply elem_of_nil in H.
Qed.

(** X1 ([normalizeMethodName]): for a method name that [methodMap] does
    not inherit from [Object.prototype], normalising it twice gives what
    normalising it once gives, and the name is either left as it is or
    mapped to one of the five names that [routeMethod] dispatches on. *)
Theorem normalizeMethodName_idempotent m :
  m ∉ Object_prototype_names ->
  normalizeMethodName (normalizeMethodName m) = normalizeMethodName m
  ∧ (normalizeMethodName m = m
     ∨ normalizeMethodName m ∈ [ "message/send"; "tasks/get"; "tasks/cancel";
                                 "tasks/list"; "agent/card" ]).
Proof.
  intros _. unfold normalizeMethodName.
  destruct (assoc m methodMap) as [c|] eqn:E; cbn [from_option Datatypes.id].
  - destruct (methodMap_targets m c E) as [Hin Hc]. rewrite Hc. auto.
  - rewrite E. auto.
Qed.

(** X2 ([routeMethod], [normalizeMethodName]): a request under an alias
    of [methodMap] (PascalCase, camelCase or dotted) is handled exactly as
    the same request under the name the alias stands for: same answer,
    same state afterwards. *)
Theorem routeMethod_alias rid alias canonical ps w :
  assoc alias methodMap = Some canonical ->
  routeMethod (mkJsonRpcRequest rid alias ps) w
  = routeMethod (mkJsonRpcRequest rid canonical ps) w.
Proof.
  intros H. destruct (methodMap_targets alias canonical H) as [Hin Hc].
  unfold routeMethod. cbn [request_id method params].
  unfold normalizeMethodName. rewrite H, Hc. cbn [from_option Datatypes.id].
  repeat (apply elem_of_cons in Hin as [->|Hin]; [reflexivity|]).
  by apply elem_of_nil in Hin.
Qed.

(** X3 ([routeMethod]): a method whose normalised name is none of the
    five is answered with METHOD_NOT_FOUND (-32601); the message quotes
    the name as the request gave it, and no task is read or written. *)
Theorem unknown_method_not_found request w :
  normalizeMethodName (method request)
    ∉ [ "message/send"; "tasks/get"; "tasks/cancel"; "tasks/list";
        "agent/card" ] ->
  exists resp w',
    routeMethod request w = (Responds resp, w')
    ∧ result resp = None
    ∧ error resp
      = Some (mkJsonRpcError (-32601)
                (String.append "Method not found: " (method request)))
    ∧ tasks w' = tasks w ∧ heap w' = heap w ∧ ticks w' = ticks w.
Proof.
  intros Hn.
  rewrite routeMethod_other by (intros E; apply Hn; rewrite E; by repeat constructor).
  rewrite bool_decide_eq_false_2 by (intros E; apply Hn; rewrite E; by repeat constructor).
  eexists _, _. split; [reflexivity|]. cbn [fst snd].
  destruct (jsonRpcError_fst (request_id request)
              JSONRPC_ERROR_CODES.METHOD_NOT_FOUND
              (String.append "Method not found: " (method request)) w)
    as (Hr & He & _).
  destruct (jsonRpcError_snd (request_id request)
              JSONRPC_ERROR_CODES.METHOD_NOT_FOUND
              (String.append "Method not found: " (method request)) w)
    as (Ht & Hh & Hc & _).
  done.
Qed.


(** *** The JSON-RPC envelope *)

Lemma validate_object fields :
  validateJsonRpcRequestDetailed (JObj fields) =
    match assoc "id" fields with
    | Some (JBool _) | Some (JArr _) | Some (JObj _) =>
        mkValidation false None JSONRPC_ERROR_CODES.INVALID_REQUEST
          "Invalid Request: id must be string or number"
    | v =>
        let i := match v with
                 | Some (JStr s) => Some (IdStr s)
                 | Some (JNum n) => Some (IdNum n)
                 | _ => None
                 end in
        if negb (strict_eq (assoc "jsonrpc" fields) (Some (JStr "2.0")))
        then mkValidation false i JSONRPC_ERROR_CODES.INVALID_REQUEST
               (String.append "Invalid Request: jsonrpc must be "
                  (String.append quote (String.append "2.0" quote)))
        else if negb (bool_decide (typeof (assoc "method" fields) = "string"))
        then mkValidation false i JSONRPC_ERROR_CODES.INVALID_REQUEST
               "Invalid Request: method must be a string"
        else if negb (strict_eq (assoc "params" fields) None)
                && negb (strict_eq (assoc "params" fields) (Some JNull))
                && negb (bool_decide (typeof (assoc "params" fields) = "object"))
        then mkValidation false i JSONRPC_ERROR_CODES.INVALID_PARAMS
               "Invalid params: must be object or array"
        else mkValidation true i 0%Z ""
    end.
Proof.
  unfold validateJsonRpcRequestDetailed. cbn [prop truthy typeof negb orb].
  rewrite bool_decide_eq_true_2 by done. cbn [negb].
  by destruct (assoc "id" fields) as [[]|].
Qed.

Lemma validate_not_object req :
  (forall fields, req ≠ JObj fields) ->
  valid (validateJsonRpcRequestDetailed req) = false
  ∧ validation_id (validateJsonRpcRequestDetailed req) = None
  ∧ validation_code (validateJsonRpcRequestDetailed req) = (-32600)%Z.
Proof.
  intros Hn. destruct req as [|[]|n|s|items|fields]; try done.
  - unfold validateJsonRpcRequestDetailed. cbn [truthy negb orb].
    destruct (n =? 0)%Z; done.
  - unfold validateJsonRpcRequestDetailed. cbn [truthy negb orb].
    destruct (bool_decide (s = "")); done.
  - by destruct (Hn fields).
Qed.

Lemma jsonrpc_ok v :
  strict_eq v (Some (JStr "2.0")) = true <-> v = Some (JStr "2.0").
Proof.
  destruct v as [[]|]; simpl; try (split; [discriminate | done]).
  rewrite bool_decide_eq_true. split; congruence.
Qed.

Lemma method_ok v :
  bool_decide (typeof v = "string") = true <-> exists m, v = Some (JStr m).
Proof.
  rewrite bool_decide_eq_true.
  destruct v as [[]|]; simpl; split; try discriminate; try (by intros [? ?]).
  intros _. by eexists.
Qed.

Lemma params_ok v :
  negb (strict_eq v None) && negb (strict_eq v (Some JNull))
  && negb (bool_decide (typeof v = "object")) = false
  <-> match v with
      | None | Some JNull | Some (JArr _) | Some (JObj _) => True
      | _ => False
      end.
Proof. destruct v as [[]|]; simpl; split; done. Qed.

(** X4 ([validateJsonRpcRequestDetailed]): an envelope is accepted exactly
    when it is an object whose [id] is absent, null, a string or a number,
    whose [jsonrpc] is the string 2.0, whose [method] is a string, and
    whose [params] is absent, null, an array or an object. *)
Theorem valid_request_envelope req :
  valid (validateJsonRpcRequestDetailed req) = true <->
  exists fields,
    req = JObj fields
    ∧ match assoc "id" fields with
      | None | Some JNull | Some (JStr _) | Some (JNum _) => True
      | _ => False
      end
    ∧ assoc "jsonrpc" fields = Some (JStr "2.0")
    ∧ (exists m, assoc "method" fields = Some (JStr m))
    ∧ match assoc "params" fields with
      | None | Some JNull | Some (JArr _) | Some (JObj _) => True
      | _ => False
      end.
Proof.
  split.
  - intros Hv. destruct req as [|b|n|s|items|fields].
    1-5: match type of Hv with
         | valid (validateJsonRpcRequestDetailed ?r) = true =>
             destruct (validate_not_object r) as [E _];
               [done | by rewrite E in Hv]
         end.
    exists fields. split; [done|]. rewrite validate_object in Hv.
    rewrite <- jsonrpc_ok, <- method_ok, <- params_ok.
    destruct (assoc "id" fields) as [[]|]; try discriminate; cbv zeta in Hv;
      destruct (strict_eq (assoc "jsonrpc" fields) (Some (JStr "2.0")));
      try discriminate;
      destruct (bool_decide (typeof (assoc "method" fields) = "string"));
      try discriminate;
      destruct (negb (strict_eq (assoc "params" fields) None)
                && negb (strict_eq (assoc "params" fields) (Some JNull))
                && negb (bool_decide
                           (typeof (assoc "params" fields) = "object")));
      try discriminate; done.
  - intros (fields & -> & Hid & Hj & Hm & Hp).
    rewrite validate_object.
    apply jsonrpc_ok in Hj. apply method_ok in Hm. apply params_ok in Hp.
    destruct (assoc "id" fields) as [[]|]; try done; cbv zeta;
      by rewrite Hj, Hm, Hp.
Qed.


Lemma jsonRpcError_eq rid c m w resp w' :
  jsonRpcError rid c m w = (resp, w') ->
  result resp = None
  ∧ error resp = Some (mkJsonRpcError c m)
  ∧ response_id resp = Some (default (IdStr (uuid_at (uuids w))) rid)
  ∧ tasks w' = tasks w ∧ heap w' = heap w ∧ ticks w' = ticks w
  ∧ uuids w <= uuids w'.
Proof.
  intros E. pose proof (jsonRpcError_fst rid c m w) as (? & ? & ?).
  pose proof (jsonRpcError_snd rid c m w) as (? & ? & ? & ?).
  rewrite E in *. done.
Qed.

Lemma jsonRpcSuccess_eq rid res w resp w' :
  jsonRpcSuccess rid res w = (resp, w') ->
  result resp = Some res
  ∧ error resp = None
  ∧ response_id resp = Some (default (IdStr (uuid_at (uuids w))) rid)
  ∧ tasks w' = tasks w ∧ heap w' = heap w ∧ ticks w' = ticks w
  ∧ uuids w <= uuids w'.
Proof.
  intros E. pose proof (jsonRpcSuccess_fst rid res w) as (? & ? & ?).
  pose proof (jsonRpcSuccess_snd rid res w) as (? & ? & ? & ?).
  rewrite E in *. done.
Qed.

Lemma validation_code_cases req :
  valid (validateJsonRpcRequestDetailed req) = false ->
  validation_code (validateJsonRpcRequestDetailed req) = (-32600)%Z
  ∨ (validation_code (validateJsonRpcRequestDetailed req) = (-32602)%Z
     ∧ prop req "jsonrpc" = Some (JStr "2.0")
     ∧ (exists m, prop req "method" = Some (JStr m))
     ∧ exists v, prop req "params" = Some v
                 ∧ match v with
                   | JBool _ | JNum _ | JStr _ => True
                   | _ => False
                   end).
Proof.
  intros Hv. destruct req as [|b|n|s|items|fields].
  1-5: match type of Hv with
       | valid (validateJsonRpcRequestDetailed ?r) = false =>
           destruct (validate_not_object r) as (_ & _ & E); [done | by left]
       end.
  rewrite validate_object in *. cbn [prop].
  rewrite <- jsonrpc_ok, <- method_ok.
  destruct (assoc "id" fields) as [[]|]; try (by left); cbv zeta in *;
    (destruct (strict_eq (assoc "jsonrpc" fields) (Some (JStr "2.0")));
     [|by left]);
    (destruct (bool_decide (typeof (assoc "method" fields) = "string"));
     [|by left]);
    (destruct (assoc "params" fields) as [[]|]; try discriminate);
    right; repeat split; by eexists.
Qed.

(** X5 ([handleJsonRpc], [validateJsonRpcRequestDetailed]): an envelope
    that fails validation is answered at once with HTTP status 200 and an
    error whose code is INVALID_REQUEST (-32600), or INVALID_PARAMS
    (-32602) when only [params] is at fault (a boolean, a number or a
    string); the request is not routed, and no task is read or written. *)
Theorem invalid_envelope_refused req w :
  valid (validateJsonRpcRequestDetailed req) = false ->
  exists resp w' e,
    handleJsonRpc true (Some req) w = (inl (200%Z, resp), w')
    ∧ result resp = None
    ∧ error resp = Some e
    ∧ (code e = (-32600)%Z
       ∨ (code e = (-32602)%Z
          ∧ prop req "jsonrpc" = Some (JStr "2.0")
          ∧ (exists m, prop req "method" = Some (JStr m))
          ∧ exists v, prop req "params" = Some v
                      ∧ match v with
                        | JBool _ | JNum _ | JStr _ => True
                        | _ => False
                        end))
    ∧ tasks w' = tasks w ∧ heap w' = heap w ∧ ticks w' = ticks w.
Proof.
  intros Hv. unfold handleJsonRpc. cbn [negb]. rewrite Hv. cbn [negb].
  destruct (jsonRpcError (validation_id (validateJsonRpcRequestDetailed req))
              (validation_code (validateJsonRpcRequestDetailed req))
              (validation_message (validateJsonRpcRequestDetailed req)) w)
    as [resp w'] eqn:E.
  apply jsonRpcError_eq in E as (Hr & He & _ & Ht & Hh & Hc & _).
  eexists resp, w', _. split; [reflexivity|]. split; [done|].
  split; [exact He|]. split; [|done].
  cbn [code]. by apply validation_code_cases.
Qed.

(** X6 ([handleJsonRpc]): when [validateAuth] refuses the request, the
    answer is HTTP status 401 with the error INTERNAL_ERROR (-32603)
    Unauthorized, whatever the body is, and no task is read or written;
    every other immediate answer has HTTP status 200. *)
Theorem handleJsonRpc_http_status parsed w :
  (exists resp w',
     handleJsonRpc false parsed w = (inl (401%Z, resp), w')
     ∧ result resp = None
     ∧ error resp = Some (mkJsonRpcError (-32603) "Unauthorized")
     ∧ tasks w' = tasks w ∧ heap w' = heap w ∧ ticks w' = ticks w)
  ∧ (forall st resp w',
       handleJsonRpc true parsed w = (inl (st, resp), w') -> st = 200%Z).
Proof.
  split.
  - unfold handleJsonRpc. cbn [negb].
    destruct (jsonRpcError None JSONRPC_ERROR_CODES.INTERNAL_ERROR
                "Unauthorized" w) as [resp w'] eqn:E.
    apply jsonRpcError_eq in E as (Hr & He & _ & Ht & Hh & Hc & _).
    by exists resp, w'.
  - intros st resp w'. unfold handleJsonRpc. cbn [negb].
    destruct parsed as [req|].
    + destruct (negb (valid (validateJsonRpcRequestDetailed req))).
      * destruct (jsonRpcError _ _ _ w). congruence.
      * destruct (routeMethod _ w) as [[?|?] ?]; congruence.
    + destruct (jsonRpcError _ _ _ w). congruence.
Qed.


(** *** The two forms of an answer *)

Lemma handleTasksGet_cases rid params w :
  let negative :=
    match prop_opt params "historyLength" with
    | Some v => lt_zero v
    | None => false
    end in
  (truthy (prop_opt params "id") = false
   ∧ handleTasksGet rid params w
     = jsonRpcError rid (-32602) "Missing task id" w)
  ∨ (truthy (prop_opt params "id") = true ∧ negative = true
     ∧ handleTasksGet rid params w
       = jsonRpcError rid (-32602) "historyLength must be non-negative" w)
  ∨ (truthy (prop_opt params "id") = true ∧ negative = false
     ∧ tasks_get w (prop_opt params "id") = None
     ∧ handleTasksGet rid params w
       = jsonRpcError rid (-32001) "Task not found" w)
  ∨ (exists k r t r' w0,
       truthy (prop_opt params "id") = true ∧ negative = false
       ∧ tasks_get w (prop_opt params "id") = Some (k, r, t)
       ∧ handleTasksGet rid params w = jsonRpcSuccess rid (TaskResult r') w0).
Proof.
  intros negative. unfold handleTasksGet. fold negative.
  destruct (truthy (prop_opt params "id")) eqn:Hid; cbn [negb]; [|by left].
  right. destruct negative; [by left|]. right.
  destruct (tasks_get w (prop_opt params "id")) as [[[k r] t]|]; [|by left].
  right. exists k, r, t.
  destruct (match prop_opt params "historyLength" with
            | Some v =>
                if ge_zero v
                then
                  let '(c, w0) := alloc t w in
                  if strict_eq (Some v) (Some (JNum 0))
                  then (c, modify c (with_history None) w0)
                  else match history t with
                       | Some h =>
                           (c, modify c
                                 (with_history
                                    (Some (slice h (negated v) None))) w0)
                       | None => (c, w0)
                       end
                else (r, w)
            | None => (r, w)
            end) as [r' w0].
  by exists r', w0.
Qed.

Lemma listTasks_cases rid p w :
  (exists m,
     listTasks rid p w = jsonRpcError rid (-32602) m w
     ∧ (validateListParams p = inl m
        ∨ (m = "Invalid pageToken" ∧ decodePageToken (list_pageToken p) = None)))
  ∨ (exists tf start res w0,
       validateListParams p = inr tf
       ∧ decodePageToken (list_pageToken p) = Some start
       ∧ listTasks rid p w = jsonRpcSuccess rid res w0).
Proof.
  destruct (validateListParams p) as [reason|tf] eqn:Hv.
  { left. exists reason. unfold listTasks. rewrite Hv. auto. }
  destruct (decodePageToken (list_pageToken p)) as [start|] eqn:Hd.
  - right. exists tf, start. rewrite (listTasks_page rid p w tf start Hv Hd).
    by eexists _, _.
  - left. exists "Invalid pageToken". unfold listTasks. rewrite Hv, Hd. auto.
Qed.

Lemma handleMessageSend_Responds rid params w resp w' :
  handleMessageSend rid params w = (Responds resp, w') ->
  exists c m,
    (resp, w') = jsonRpcError rid c m w
    ∧ (c = (-32602)%Z ∨ c = (-32001)%Z ∨ c = (-32004)%Z).
Proof.
  unfold handleMessageSend.
  destruct (validateSendParams params) as [reason|msg].
  - unfold respond. intros H. injection H as <- <-.
    eexists _, reason. split; [by rewrite <- surjective_pairing | by left].
  - intros H. apply acceptMessage_refused in H as (c & m & E & _ & Hc).
    exists c, m. split; [done|].
    destruct (tasks_get w (prop msg "taskId")) as [[[k r] t]|].
    + destruct (is_terminal (state (status t))); subst c; auto.
    + subst c; auto.
Qed.

Lemma routeMethod_Responds request w resp w' :
  routeMethod request w = (Responds resp, w') ->
  (exists c m, (resp, w') = jsonRpcError (request_id request) c m w)
  ∨ (exists res w0,
       (resp, w') = jsonRpcSuccess (request_id request) res w0
       ∧ tasks w0 = tasks w).
Proof.
  intros H.
  destruct (routeMethod_cases request w)
    as [[_ E]|[[_ E]|[[_ E]|[[_ E]|(H1 & H2 & H3 & H4 & _)]]]];
    try (rewrite E in H; clear E).
  - apply handleMessageSend_Responds in H as (c & m & E & _). left. eauto.
  - unfold respond in H. injection H as <- <-.
    rewrite <- surjective_pairing.
    destruct (handleTasksGet_cases (request_id request) (params request) w)
      as [[_ ->]|[(_ & _ & ->)|[(_ & _ & _ & ->)
                                |(k & r & t & r' & w0 & _ & _ & _ & E)]]].
    1-3: left; eauto.
    right. exists (TaskResult r'), w0. split; [done|].
      pose proof (handleTasksGet_frame (request_id request)
                    (params request) w) as (Ht & _).
      pose proof (jsonRpcSuccess_snd (request_id request) (TaskResult r') w0)
        as (Ht' & _).
      rewrite E in Ht. congruence.
  - unfold respond in H. injection H as <- <-.
    rewrite <- surjective_pairing.
    destruct (handleTasksCancel_cases (request_id request) (params request) w)
      as [(c & m & ->)|(k & r & t & _ & _ & ->)].
    + left. eauto.
    + right. by eexists _, _.
  - unfold respond in H. injection H as <- <-.
    rewrite <- surjective_pairing. unfold handleTasksList.
    destruct (listTasks_cases (request_id request)
                (readListParams (params request)) w)
      as [(m & -> & _)|(tf & start & res & w0 & _ & _ & E)].
    + left. eauto.
    + right. exists res, w0. split; [done|].
      pose proof (listTasks_frame (request_id request)
                    (readListParams (params request)) w) as (Ht & _).
      pose proof (jsonRpcSuccess_snd (request_id request) res w0) as (Ht' & _).
      rewrite E in Ht. congruence.
  - rewrite (routeMethod_other request w H1 H2 H3 H4) in H.
    unfold respond in H. injection H as <- <-.
    rewrite <- surjective_pairing. case_bool_decide.
    + right. by eexists _, _.
    + left. eauto.
Qed.

(** X7 ([routeMethod] and the four handlers): an immediate answer holds
    either a result or an error, never both and never neither; and a
    request that is answered with an error has read or written no task:
    the map, every task object and the clock are as before. *)
Theorem request_error_has_no_effect request w resp w' :
  routeMethod request w = (Responds resp, w') ->
  (result resp = None <-> error resp ≠ None)
  ∧ (error resp ≠ None ->
     tasks w' = tasks w ∧ heap w' = heap w ∧ ticks w' = ticks w).
Proof.
  intros H.
  apply routeMethod_Responds in H as [(c & m & E)|(res & w0 & E & _)];
    symmetry in E.
  - apply jsonRpcError_eq in E as (Hr & He & _ & Ht & Hh & Hc & _).
    rewrite Hr, He. split; [done|]. done.
  - apply jsonRpcSuccess_eq in E as (Hr & He & _).
    rewrite Hr, He. split; [split; done | done].
Qed.

(** X8 ([handleJsonRpc], [jsonRpcSuccess], [jsonRpcError],
    [handleMessageSend]): when the envelope carries as [id] a string, or
    an integer of absolute value at most [MAX_SAFE_INTEGER], the answer
    carries the same [id], whether it is given at once or after the
    handler callback has returned or thrown. *)
Theorem response_echoes_request_id req w i :
  match prop req "id" with
  | Some (JStr s) => i = IdStr s
  | Some (JNum n) =>
      i = IdNum n ∧ (- MAX_SAFE_INTEGER <= n <= MAX_SAFE_INTEGER)%Z
  | _ => False
  end ->
  match handleJsonRpc true (Some req) w with
  | (inl (_, resp), _) => response_id resp = Some i
  | (inr p, _) =>
      forall ret w2, response_id (fst (resumeMessageSend p ret w2)) = Some i
  end.
Proof.
  intros Hid.
  assert (Hv : validation_id (validateJsonRpcRequestDetailed req) = Some i).
  { destruct req as [| | | | |fields]; try done. cbn [prop] in Hid.
    rewrite validate_object.
    destruct (assoc "id" fields) as [[]|]; try done;
      try (match type of Hid with _ ∧ _ => destruct Hid as [Hid _] end);
      subst i; cbv zeta;
      repeat match goal with |- context [if ?b then _ else _] => destruct b end;
      done. }
  unfold handleJsonRpc. cbn [negb].
  destruct (negb (valid (validateJsonRpcRequestDetailed req))).
  - destruct (jsonRpcError _ _ _ w) as [resp w'] eqn:E.
    apply jsonRpcError_eq in E as (_ & _ & Hi & _). by rewrite Hi, Hv.
  - rewrite Hv.
    destruct (routeMethod _ w) as [[resp|p] w'] eqn:E.
    + apply routeMethod_Responds in E as [(c & m & E)|(res & w0 & E & _)];
        symmetry in E; cbn [request_id] in E.
      * by apply jsonRpcError_eq in E as (_ & _ & Hi & _).
      * by apply jsonRpcSuccess_eq in E as (_ & _ & Hi & _).
    + destruct (routeMethod_cases
                  (mkJsonRpcRequest (Some i)
                     (default "" (as_string (prop req "method")))
                     (prop req "params")) w)
        as [[_ E']|[[_ E']|[[_ E']|[[_ E']|(_ & _ & _ & _ & x & E' & _)]]]];
        rewrite E' in E; try discriminate.
      cbn [request_id params] in E.
      apply handleMessageSend_Awaits in E as (msg & _ & E).
      apply acceptMessage_target in E as (Hp & _).
      intros ret w2. unfold resumeMessageSend. rewrite Hp.
      destruct ret; simpl; reflexivity.
Qed.


(** *** message/send *)

Lemma validateSendParams_inr params msg :
  validateSendParams params = inr msg ->
  exists fields part parts,
    msg = JObj fields
    ∧ prop_opt params "message" = Some msg
    ∧ assoc "parts" fields = Some (JArr (part :: parts))
    ∧ truthy (assoc "role" fields) = true
    ∧ truthy (assoc "messageId" fields) = true.
Proof.
  unfold validateSendParams.
  destruct (negb (truthy params) || negb (bool_decide (typeof params = "object")));
    [discriminate|].
  destruct (prop_opt params "message") as [m|]; [|discriminate].
  destruct (negb (truthy (Some m))); [discriminate|].
  destruct (negb (bool_decide (typeof (Some m) = "object"))); [discriminate|].
  destruct m as [| | | | |fields]; try discriminate. cbn [prop_opt].
  destruct (assoc "parts" fields) as [[|b|n|s|[|part parts]|f]|] eqn:Hp;
    cbn [truthy isArray negb orb]; try discriminate;
    try (by destruct b); try (by destruct (n =? 0)%Z);
    try (by destruct (bool_decide (s = ""))).
  destruct (truthy (assoc "role" fields)) eqn:Hr; [|discriminate].
  destruct (truthy (assoc "messageId" fields)) eqn:Hm; [|discriminate].
  cbn [negb]. intros H. injection H as <-.
  by exists fields, part, parts.
Qed.


(** X9 ([handleMessageSend]): the handler callback is called only with a
    message that passed every structural check: it is the object at
    [params.message], its [parts] is an array with at least one element,
    and its [role] and [messageId] are truthy; and when it names a task,
    that task is in the map and not in a terminal state. *)
Theorem handler_sees_checked_message rid params w p w' :
  handleMessageSend rid params w = (Awaits p, w') ->
  exists fields part parts,
    pending_message p = JObj fields
    ∧ prop_opt params "message" = Some (JObj fields)
    ∧ assoc "parts" fields = Some (JArr (part :: parts))
    ∧ truthy (assoc "role" fields) = true
    ∧ truthy (assoc "messageId" fields) = true
    ∧ (truthy (assoc "taskId" fields) = true ->
       exists r t,
         tasks_get w (assoc "taskId" fields)
         = Some (taskId (pending_context p), r, t)
         ∧ target (pending_context p) = r
         ∧ is_terminal (state (status t)) = false).
Proof.
  intros H. apply handleMessageSend_Awaits in H as (msg & Hv & H).
  destruct (validateSendParams_inr params msg Hv)
    as (fields & part & parts & -> & Hm & Hparts & Hrole & Hid).
  pose proof (acceptMessage_target _ _ _ _ _ H) as (_ & Hp & _).
  exists fields, part, parts. repeat (split; [done|]).
  intros Ht.
  apply acceptMessage_Awaits in H
    as [(Hf & _)|(k & r & t & _ & Hg & Hterm & _ & Hr & Hk)].
  - cbn [prop] in Hf. congruence.
  - exists r, t. cbn [prop] in Hg. by rewrite Hk.
Qed.

(** X10 ([handleMessageSend]): a message/send that is answered at once is
    answered with an error: INVALID_PARAMS (-32602) with the reason of the
    structural check that failed; otherwise the message names a task, and
    the code is TASK_NOT_FOUND (-32001) when the map has no such task,
    UNSUPPORTED_OPERATION (-32004) when the task is in a terminal state,
    and INVALID_PARAMS when the message gives another [contextId] than
    the task has.  A well-formed message that names no task is never
    refused. *)
Theorem message_send_refusals rid params w resp w' :
  handleMessageSend rid params w = (Responds resp, w') ->
  exists c m,
    result resp = None
    ∧ error resp = Some (mkJsonRpcError c m)
    ∧ match validateSendParams params with
      | inl reason => c = (-32602)%Z ∧ m = reason
      | inr msg =>
          truthy (prop msg "taskId") = true
          ∧ match tasks_get w (prop msg "taskId") with
            | None => c = (-32001)%Z
            | Some (_, _, t) =>
                if is_terminal (state (status t)) then c = (-32004)%Z
                else c = (-32602)%Z
                     ∧ truthy (prop msg "contextId") = true
                     ∧ strict_eq (contextId t) (prop msg "contextId") = false
            end
      end.
Proof.
  unfold handleMessageSend.
  destruct (validateSendParams params) as [reason|msg].
  - unfold respond. intros H. injection H as <- <-.
    destruct (jsonRpcError_fst rid JSONRPC_ERROR_CODES.INVALID_PARAMS reason w)
      as (Hr & He & _).
    by eexists _, _.
  - intros H. pose proof H as H0.
    apply acceptMessage_refused in H as (c & m & E & Ht & Hc).
    symmetry in E. apply jsonRpcError_eq in E as (Hr & He & _).
    exists c, m. repeat (split; [done|]).
    destruct (tasks_get w (prop msg "taskId")) as [[[k r] t]|] eqn:Hg; [|done].
    destruct (is_terminal (state (status t))) eqn:Hterm; [done|].
    split; [done|].
    destruct (truthy (prop msg "contextId")
              && negb (strict_eq (contextId t) (prop msg "contextId"))) eqn:Hx.
    + apply andb_true_iff in Hx as [? Hx]. by apply negb_true_iff in Hx.
    + destruct (acceptMessage_existing rid msg w k r t Ht Hg Hterm Hx)
        as (cid & n & E & _). rewrite E in H0. discriminate.
Qed.

(** X11 ([handleMessageSend]): a well-formed message that names a task of
    the map which is not in a terminal state, and gives no other
    [contextId] than the task has, continues that task: the handler is
    called for the same task object; the object gets the status WORKING
    with no status message and the current time, and the message at the
    end of its history; its [id], [contextId], [artifacts] and [metadata]
    stay; no other object and no entry of the map changes. *)
Theorem message_send_continues_task rid params msg w k r t :
  validateSendParams params = inr msg ->
  truthy (prop msg "taskId") = true ->
  tasks_get w (prop msg "taskId") = Some (k, r, t) ->
  is_terminal (state (status t)) = false ->
  (truthy (prop msg "contextId") = true ->
   strict_eq (contextId t) (prop msg "contextId") = true) ->
  exists p w',
    handleMessageSend rid params w = (Awaits p, w')
    ∧ pending_message p = msg
    ∧ taskId (pending_context p) = k
    ∧ target (pending_context p) = r
    ∧ tasks w' = tasks w
    ∧ length (heap w') = length (heap w)
    ∧ heap w' !! r
      = Some (mkTask (id t) (contextId t)
                (mkTaskStatus TASK_STATE_WORKING None (Some (now_at (ticks w))))
                (artifacts t) (Some (default [] (history t) ++ [msg]))
                (metadata t))
    ∧ forall r', r' ≠ r -> heap w' !! r' = heap w !! r'.
Proof.
  intros Hv Ht Hg Hterm Hctx.
  assert (Hx : truthy (prop msg "contextId")
               && negb (strict_eq (contextId t) (prop msg "contextId")) = false).
  { destruct (truthy (prop msg "contextId")); [|done].
    by rewrite Hctx. }
  destruct (acceptMessage_existing rid msg w k r t Ht Hg Hterm Hx)
    as (cid & n & E & _).
  unfold handleMessageSend. rewrite Hv, E.
  apply tasks_get_Some in Hg as (_ & Ha & Hh).
  eexists _, _. split; [reflexivity|]. cbn [pending_message pending_context
    taskId target tasks heap].
  repeat (split; [done|]).
  split; [by apply map_set_same|].
  split; [by rewrite !length_alter|].
  split.
  - by rewrite !list_lookup_alter_eq, Hh.
  - intros r' Hne. by rewrite !list_lookup_alter_ne.
Qed.

(** X12 ([handleMessageSend], after the callback): when the handler
    returns a message, the task object of the call (which has a history
    since the call) gets the status COMPLETED with that message as status
    message and the current time, and the message at the end of its
    history; the answer holds that same object; nothing else changes.  No
    state of the task is checked: the reply is written whatever happened
    to the task since the call. *)
Theorem handler_reply_completes_task p reply w t h :
  heap w !! target (pending_context p) = Some t ->
  history t = Some h ->
  let r := target (pending_context p) in
  let resp := fst (resumeMessageSend p (ReturnsMessage reply) w) in
  let w' := snd (resumeMessageSend p (ReturnsMessage reply) w) in
  result resp = Some (SendMessageResponse r)
  ∧ error resp = None
  ∧ tasks w' = tasks w
  ∧ length (heap w') = length (heap w)
  ∧ heap w' !! r
    = Some (mkTask (id t) (contextId t)
              (mkTaskStatus TASK_STATE_COMPLETED (Some reply)
                 (Some (now_at (ticks w))))
              (artifacts t) (Some (h ++ [reply])) (metadata t))
  ∧ forall r', r' ≠ r -> heap w' !! r' = heap w !! r'.
Proof.
  intros Hh Hhist r resp w'. subst r resp w'. unfold resumeMessageSend.
  cbn [Date_now].
  match goal with
  | |- context [jsonRpcSuccess ?i ?res ?w0] =>
      destruct (jsonRpcSuccess_fst i res w0) as (Hr & He & _);
      destruct (jsonRpcSuccess_snd i res w0) as (Ht & Hhp & _)
  end.
  rewrite Hr, He, Ht, Hhp. cbn [modify with_heap heap tasks].
  repeat (split; [done|]).
  split; [by rewrite !length_alter|].
  split.
  - rewrite !list_lookup_alter_eq, Hh. cbn. unfold with_history, push.
    cbn. by rewrite Hhist.
  - intros r' Hne. by rewrite !list_lookup_alter_ne.
Qed.

(** X13 ([handleMessageSend], after the callback): a task object that the
    handler returns is sent to the client and kept nowhere: it is not
    entered in the map, the task object of the call is not changed, and
    every lookup in the map finds what it found before; the same holds
    when the handler returns [working]. *)
Theorem handler_task_result_not_stored p ret w :
  store_wf w ->
  (ret = ReturnsWorking ∨ exists t', ret = ReturnsTask t') ->
  let resp := fst (resumeMessageSend p ret w) in
  let w' := snd (resumeMessageSend p ret w) in
  tasks w' = tasks w
  ∧ heap_preserved (heap w) (heap w')
  ∧ (forall key, tasks_get w' key = tasks_get w key)
  ∧ error resp = None
  ∧ match ret with
    | ReturnsTask t' =>
        result resp = Some (SendMessageResponse (length (heap w)))
        ∧ heap w' = heap w ++ [t']
        ∧ forall k, assoc k (tasks w') ≠ Some (length (heap w))
    | _ => result resp = Some (SendMessageResponse (target (pending_context p)))
           ∧ heap w' = heap w
    end.
Proof.
  intros [Hnd Hwf] Hret resp w'. subst resp w'.
  assert (Hlt : forall k r, assoc k (tasks w) = Some r -> r < length (heap w)).
  { intros k r Ha. apply assoc_elem_of, Hwf in Ha as (t & Ht & _).
    by eapply lookup_lt_Some. }
  assert (Hget : forall h ts, h = heap w ++ ts -> forall key,
             tasks_get (mkWorld (tasks w) h (uuids w) (ticks w)) key
             = tasks_get w key).
  { intros h ts -> key. unfold tasks_get. cbn [tasks heap].
    destruct key as [[]|]; try done.
    destruct (assoc s (tasks w)) as [r|] eqn:Ha; [|done].
    by rewrite lookup_app_l by eauto. }
  unfold resumeMessageSend.
  destruct Hret as [->|[t' ->]]; cbn [alloc].
  - match goal with
    | |- context [jsonRpcSuccess ?i ?res ?w0] =>
        destruct (jsonRpcSuccess_fst i res w0) as (Hr & He & _);
        destruct (jsonRpcSuccess_snd i res w0) as (Ht & Hhp & _)
    end.
    rewrite Hr, He, Ht, Hhp. split; [done|]. split; [by intros ? ?|].
    split; [|done].
    intros key. unfold tasks_get. by rewrite Ht, Hhp.
  - match goal with
    | |- context [jsonRpcSuccess ?i ?res ?w0] =>
        destruct (jsonRpcSuccess_fst i res w0) as (Hr & He & _);
        destruct (jsonRpcSuccess_snd i res w0) as (Ht & Hhp & _)
    end.
    rewrite Hr, He, Ht, Hhp. cbn [with_heap tasks heap].
    split; [done|]. split; [apply heap_preserved_app|].
    split.
    { intros key. rewrite <- (Hget (heap w ++ [t']) [t'] eq_refl key).
      unfold tasks_get. by rewrite Ht, Hhp. }
    repeat split; try done.
    intros k Ha. apply Hlt in Ha. lia.
Qed.


(** *** tasks/cancel and tasks/get *)

(** X14 ([handleTasksCancel]): a tasks/cancel that succeeded cannot be
    repeated: the task is now CANCELED in the map, and the same request
    sent again is answered with TASK_NOT_CANCELABLE (-32002) and changes
    nothing. *)
Theorem tasks_cancel_not_repeatable rid params w resp w' r :
  handleTasksCancel rid params w = (resp, w') ->
  result resp = Some (TaskResult r) ->
  (exists k t',
     tasks_get w' (prop_opt params "id") = Some (k, r, t')
     ∧ state (status t') = TASK_STATE_CANCELED)
  ∧ forall rid2,
      handleTasksCancel rid2 params w'
      = jsonRpcError rid2 (-32002) "Task already in terminal state" w'.
Proof.
  intros H Hres.
  destruct (truthy (prop_opt params "id")) eqn:Hid.
  2:{ unfold handleTasksCancel in H. rewrite Hid in H. cbn [negb] in H.
      apply jsonRpcError_eq in H as (Hr & _). congruence. }
  destruct (tasks_get w (prop_opt params "id")) as [[[k r0] t]|] eqn:Hg.
  2:{ unfold handleTasksCancel in H. rewrite Hid, Hg in H. cbn [negb] in H.
      apply jsonRpcError_eq in H as (Hr & _). congruence. }
  destruct (is_terminal (state (status t))) eqn:Hterm.
  { rewrite (handleTasksCancel_refuses rid params w k r0 t Hid Hg Hterm) in H.
    apply jsonRpcError_eq in H as (Hr & _). congruence. }
  rewrite (handleTasksCancel_cancels rid params w k r0 t Hid Hg Hterm) in H.
  apply jsonRpcSuccess_eq in H as (Hr & _ & _ & Ht & Hh & _).
  cbn [tasks heap] in Ht, Hh.
  assert (r0 = r) as -> by congruence.
  apply tasks_get_Some in Hg as (Hk & Ha & Hl).
  assert (Hg' : tasks_get w' (prop_opt params "id")
                = Some (k, r,
                        with_status
                          (mkTaskStatus TASK_STATE_CANCELED None
                             (Some (now_at (ticks w)))) t)).
  { rewrite Hk. unfold tasks_get. rewrite Ht, Ha, Hh.
    by rewrite list_lookup_alter_eq, Hl. }
  split; [by eexists _, _|].
  intros rid2.
  by apply (handleTasksCancel_refuses rid2 params w' k r _ Hid Hg').
Qed.



(** *** tasks/list: pages and page tokens *)


Lemma tasks_values_length w : length (tasks_values w) <= length (tasks w).
Proof.
  unfold tasks_values. induction (tasks w) as [|kr m IH]; [done|].
  cbn [omap list_omap]. fold (omap (fun kr => heap w !! kr.2) m).
  destruct (heap w !! kr.2); cbn [length]; lia.
Qed.


Lemma digits_app fuel n acc suffix :
  String.append (digits fuel n acc) suffix
  = digits fuel n (String.append acc suffix).
Proof.
  revert n acc. induction fuel as [|fuel IH]; intros n acc; [done|].
  cbn [digits]. destruct (n <? 10)%Z; [done|]. by rewrite IH.
Qed.

(** X17 ([handleTasksList], the decoding of [pageToken]): [parseInt]
    reads the decimal digits at the front of the token and ignores what
    follows them, so an offset of at most [MAX_SAFE_INTEGER] followed by
    any text that does not begin with a digit is accepted as that
    offset. *)
Theorem page_token_numeric_prefix n c rest :
  (0 <= n <= MAX_SAFE_INTEGER)%Z ->
  digit_val c = None ->
  decodePageToken
    (Some (String.append (String_of_number n) (String c rest)))
  = Some n.
Proof.
  intros [Hn _] Hc. unfold String_of_number.
  destruct (Z.ltb_spec n 0); [lia|].
  rewrite digits_app.
  change (String.append "" (String c rest)) with (String c rest).
  pose proof (digits_S_head_digit (Z.to_nat n) n (String c rest)) as Hhead.
  destruct (head_digit_plain _ Hhead) as (Hsp & Hsign & Hstart & Hne).
  unfold decodePageToken. rewrite bool_decide_eq_false_2 by done.
  unfold parseInt. rewrite Hsp, Hsign, Hstart.
  destruct (parse_digits_digits (S (Z.to_nat n)) n Hn) as (m & Hm); [lia|].
  rewrite Hm. cbn [parse_digits]. rewrite Hc.
  replace (0 * m + n)%Z with n by lia.
  by destruct (Z.ltb_spec n 0); [lia|].
Qed.

(** X18 ([VALID_TASK_STATES], [TaskState]): the strings that tasks/list
    accepts as [status] filter are exactly the values of the type
    [TaskState]: the seven v1.0 names and the seven v0.3 spellings. *)
Theorem valid_task_states_are_the_task_states s :
  s ∈ VALID_TASK_STATES <-> exists st, TaskState_string st = s.
Proof.
  split.
  - unfold VALID_TASK_STATES. intros H.
    repeat (apply elem_of_cons in H as [->|H];
            [first [ by exists TASK_STATE_SUBMITTED
                   | by exists TASK_STATE_WORKING
                   | by exists TASK_STATE_INPUT_REQUIRED
                   | by exists TASK_STATE_COMPLETED
                   | by exists TASK_STATE_FAILED
                   | by exists TASK_STATE_CANCELED
                   | by exists TASK_STATE_REJECTED
                   | by exists v03_submitted
                   | by exists v03_working
                   | by exists v03_input_required
                   | by exists v03_completed
                   | by exists v03_failed
                   | by exists v03_canceled
                   | by exists v03_rejected ]|]).
    by apply elem_of_nil in H.
  - intros [st <-]. destruct st; by repeat constructor.
Qed.


(** *** What lasts across events *)

Lemma assoc_map_set_ne k k' r m :
  k ≠ k' -> assoc k' (map_set k r m) = assoc k' m.
Proof.
  intros Hne. induction m as [|[k0 r0] m IH]; simpl.
  - by destruct (decide (k = k')).
  - destruct (decide (k0 = k)) as [->|Hk]; simpl.
    + by destruct (decide (k = k')).
    + destruct (decide (k0 = k')); [done | apply IH].
Qed.

Lemma step_keeps_keys_generated w e : keys_generated w -> keys_generated (step w e).
Proof. apply step_shape_keys_generated, step_has_shape. Qed.

Lemma step_effect_keeps_entry w w' k r :
  Inj (=) (=) uuid_at -> keys_generated w -> step_effect w w' ->
  assoc k (tasks w) = Some r -> assoc k (tasks w') = Some r.
Proof.
  intros Hinj Hgen (_ & _ & [[-> _]|(msg & -> & _)]) Ha; [done|].
  rewrite assoc_map_set_ne; [done|].
  intros <-. rewrite keys_generated_fresh in Ha by done. discriminate.
Qed.

(** X19 (the map [tasks], over every event): a task that is in the map
    stays there, under the same key and as the same object, whatever runs
    afterwards, as long as [clearTasks] is not called: no request and no
    handler removes or replaces an entry.  ([randomUUID] is taken not to
    repeat itself.) *)
Theorem stored_task_stays_in_map w trace k r :
  Inj (=) (=) uuid_at ->
  keys_generated w ->
  Forall (fun e => e ≠ ClearTasks) trace ->
  assoc k (tasks w) = Some r ->
  assoc k (tasks (run w trace)) = Some r.
Proof.
  intros Hinj Hgen Htrace. revert w Hgen.
  induction Htrace as [|e trace He _ IH]; intros w Hgen Ha; [done|].
  simpl. apply IH.
  - by apply step_keeps_keys_generated.
  - eapply step_effect_keeps_entry; [done | done | | done].
    by apply step_has_effect.
Qed.

Lemma routeMethod_tasks request w :
  normalizeMethodName (method request) ≠ "message/send" ->
  tasks (snd (routeMethod request w)) = tasks w.
Proof.
  intros Hn. destruct (routeMethod request w) as [[resp|p] w'] eqn:E.
  - apply routeMethod_Responds in E as [(c & m & E)|(res & w0 & E & Ht)];
      symmetry in E.
    + by apply jsonRpcError_eq in E as (_ & _ & _ & ? & _).
    + apply jsonRpcSuccess_eq in E as (_ & _ & _ & ? & _). simpl. congruence.
  - destruct (routeMethod_cases request w)
      as [[H _]|[[_ E']|[[_ E']|[[_ E']|(_ & _ & _ & _ & x & E' & _)]]]];
      [done|..]; rewrite E' in E; discriminate.
Qed.

Lemma resumeMessageSend_tasks p ret w :
  tasks (snd (resumeMessageSend p ret w)) = tasks w.
Proof.
  unfold resumeMessageSend. destruct ret; cbn [Date_now alloc];
    match goal with
    | |- context [jsonRpcSuccess ?i ?res ?w0] =>
        by destruct (jsonRpcSuccess_snd i res w0) as (-> & _)
    end.
Qed.

Lemma step_keeps_tasks w e :
  is_send_request e = false -> e ≠ ClearTasks -> tasks (step w e) = tasks w.
Proof.
  intros Hs He. destruct e as [request|p ret|ctx st|ctx a|]; simpl in *.
  - apply routeMethod_tasks. by apply bool_decide_eq_false in Hs.
  - apply resumeMessageSend_tasks.
  - done.
  - done.
  - done.
Qed.

(** X20 (the map [tasks], over every event): only a request routed to
    message/send enters a task into the map.  Every other request, the
    return of a handler callback, [sendStatus] and [sendArtifact] leave
    the map as it is; so after [clearTasks] the map stays empty, and no
    task can be looked up, until the next message/send: a handler that
    finishes late does not bring its task back. *)
Theorem only_message_send_adds_tasks w trace :
  Forall (fun e => is_send_request e = false) trace ->
  (Forall (fun e => e ≠ ClearTasks) trace -> tasks (run w trace) = tasks w)
  ∧ tasks (run (step w ClearTasks) trace) = []
  ∧ forall key, tasks_get (run (step w ClearTasks) trace) key = None.
Proof.
  intros Htrace.
  assert (Hempty : forall w0, tasks w0 = [] -> tasks (run w0 trace) = []).
  { induction Htrace as [|e trace He _ IH]; intros w0 Hw0; [done|].
    simpl. apply IH.
    destruct e; [by rewrite step_keeps_tasks by done.. | done]. }
  split; [|split].
  - clear Hempty. revert w.
    induction Htrace as [|e trace He _ IH]; intros w Hc; [done|].
    apply Forall_cons in Hc as [Hce Hc]. simpl.
    etransitivity; [by apply IH | by apply step_keeps_tasks].
  - by apply Hempty.
  - intros key. unfold tasks_get. rewrite (Hempty (step w ClearTasks)) by done.
    by destruct key as [[]|].
Qed.

Lemma step_keeps {A} (f : Task -> A) w e r t :
  (forall st t, f (with_status st t) = f t) ->
  (forall h t, f (with_history h t) = f t) ->
  (forall ctx a, e ≠ SendArtifact ctx a) ->
  heap w !! r = Some t ->
  exists t', heap (step w e) !! r = Some t' ∧ f t' = f t.
Proof.
  intros Hst Hhi He Hr.
  pose (P := fun a b : Task => f b = f a).
  assert (Hkeep : forall h', heap_preserved (heap w) h' ->
                    exists t', h' !! r = Some t' ∧ f t' = f t).
  { intros h' Hp. exists t. split; [by apply Hp | done]. }
  assert (Halter1 : forall g, (forall t, f (g t) = f t) -> forall r0,
             exists t', alter g r0 (heap w) !! r = Some t' ∧ f t' = f t).
  { intros g Hg r0. by apply (alter_related P). }
  assert (Halter2 : forall g1 g2, (forall t, f (g1 t) = f t) ->
             (forall t, f (g2 t) = f t) -> forall r0,
             exists t', alter g2 r0 (alter g1 r0 (heap w)) !! r = Some t'
                        ∧ f t' = f t).
  { intros g1 g2 Hg1 Hg2 r0.
    destruct (Halter1 g1 Hg1 r0) as (t1 & Ht1 & E1).
    destruct (alter_related P (alter g1 r0 (heap w)) r0 g2
                ltac:(done) ltac:(intros; apply Hg2) r t1 Ht1) as (t2 & Ht2 & E2).
    exists t2. split; [done|]. unfold P in E2. congruence. }
  destruct e as [request|p ret|ctx st|ctx a|]; simpl.
  - destruct (routeMethod request w) as [[resp|p] w'] eqn:E; simpl.
    + destruct (routeMethod_cases request w)
        as [[_ E']|[[_ E']|[[_ E']|[[_ E']|(_ & _ & _ & _ & x & E' & _ & Hx)]]]];
        rewrite E' in E; clear E'.
      * apply handleMessageSend_Responds in E as (c & m & E & _).
        symmetry in E. apply jsonRpcError_eq in E as (_ & _ & _ & _ & -> & _).
        eauto.
      * unfold respond in E. injection E as _ <-. apply Hkeep.
        apply handleTasksGet_preserves.
      * unfold respond in E. injection E as _ <-.
        destruct (handleTasksCancel_cases (request_id request)
                    (params request) w)
          as [(c & m & ->)|(k & r0 & t0 & _ & _ & ->)].
        -- destruct (jsonRpcError_snd (request_id request) c m w)
             as (_ & -> & _). eauto.
        -- match goal with
           | |- context [jsonRpcSuccess ?i ?res ?w0] =>
               destruct (jsonRpcSuccess_snd i res w0) as (_ & -> & _)
           end.
           simpl. by apply Halter1.
      * unfold respond in E. injection E as _ <-. apply Hkeep.
        apply handleTasksList_preserves.
      * unfold respond in E. injection E as _ <-. rewrite Hx. eauto.
    + destruct (routeMethod_cases request w)
        as [[_ E']|[[_ E']|[[_ E']|[[_ E']|(_ & _ & _ & _ & x & E' & _)]]]];
        rewrite E' in E; try discriminate.
      apply handleMessageSend_Awaits in E as (msg & _ & E).
      pose proof E as E0.
      apply acceptMessage_Awaits in E
        as [(Hf & _)|(k & r0 & t0 & Ht & Hg & Hterm & Hc & _)].
      * rewrite acceptMessage_new in E0 by done. injection E0 as _ <-.
        simpl. apply Hkeep, heap_preserved_app.
      * destruct (acceptMessage_existing (request_id request) msg w k r0 t0
                    Ht Hg Hterm Hc) as (cid & n & E1 & _).
        rewrite E1 in E0. injection E0 as _ <-. simpl.
        by apply Halter2.
  - unfold resumeMessageSend. destruct ret; cbn [Date_now alloc];
      match goal with
      | |- context [jsonRpcSuccess ?i ?res ?w0] =>
          destruct (jsonRpcSuccess_snd i res w0) as (_ & -> & _)
      end; simpl.
    + by apply Halter2.
    + apply Hkeep, heap_preserved_app.
    + eauto.
    + by apply Halter1.
  - unfold sendStatus. simpl. by apply Halter1.
  - by destruct (He ctx a).
  - eauto.
Qed.

Lemma touched_keeps t t' :
  touched t t' ->
  id t' = id t ∧ contextId t' = contextId t ∧ metadata t' = metadata t
  ∧ (exists more,
       default [] (artifacts t') = default [] (artifacts t) ++ more)
  ∧ (is_Some (artifacts t) -> is_Some (artifacts t'))
  ∧ (is_Some (timestamp (status t)) -> is_Some (timestamp (status t')))
  ∧ (forall x h, history t = Some (x :: h) ->
       exists h', history t' = Some (x :: h')).
Proof.
  induction 1 as [t|t t' s m z _ IH|t t' x _ IH|t t' a _ IH]; simpl.
  - repeat split; try done; [by exists []; rewrite app_nil_r | eauto].
  - destruct IH as (? & ? & ? & ? & ? & ? & ?). repeat split; eauto.
  - destruct IH as (? & ? & ? & ? & ? & ? & Hh). repeat split; eauto.
    intros y h Hy. destruct (Hh y h Hy) as (h' & ->). simpl. eauto.
  - destruct IH as (? & ? & ? & (more & Hm) & ? & ? & ?).
    repeat split; eauto.
    exists (more ++ [a]). rewrite Hm. by rewrite app_assoc.
Qed.

(** X21 ([sendArtifact] and every other event): the artifacts of a task
    object are only ever appended to.  Whatever runs, the artifacts the
    object had stay, in their order, at the front; every event other than
    [sendArtifact] leaves them exactly as they are; and [sendArtifact]
    puts its argument at the end. *)
Theorem artifacts_only_appended w r t :
  heap w !! r = Some t ->
  (forall trace,
     exists t' more,
       heap (run w trace) !! r = Some t'
       ∧ default [] (artifacts t') = default [] (artifacts t) ++ more)
  ∧ (forall e,
       (forall ctx a, e ≠ SendArtifact ctx a) ->
       exists t', heap (step w e) !! r = Some t' ∧ artifacts t' = artifacts t)
  ∧ (forall ctx a,
       target ctx = r ->
       exists t',
         heap (sendArtifact ctx a w) !! r = Some t'
         ∧ artifacts t' = Some (default [] (artifacts t) ++ [a])).
Proof.
  intros Hr. split; [|split].
  - intros trace. destruct (run_heap_touched w trace r t Hr) as (t' & Ht' & Htt).
    destruct (touched_keeps t t' Htt) as (_ & _ & _ & (more & Hm) & _).
    by exists t', more.
  - intros e He. by apply (step_keeps artifacts).
  - intros ctx a <-. unfold sendArtifact. simpl.
    rewrite list_lookup_alter_eq, Hr. by eexists.
Qed.

(** X22 (every event): a task object is never removed, and its [id],
    [contextId] and [metadata] never change, whatever requests, handler
    returns, [sendStatus], [sendArtifact] and [clearTasks] run. *)
Theorem task_identity_never_changes w trace r t :
  heap w !! r = Some t ->
  exists t',
    heap (run w trace) !! r = Some t'
    ∧ id t' = id t ∧ contextId t' = contextId t ∧ metadata t' = metadata t.
Proof.
  intros Hr. destruct (run_heap_touched w trace r t Hr) as (t' & Ht' & Htt).
  destruct (touched_keeps t t' Htt) as (? & ? & ? & _).
  by exists t'.
Qed.

Lemma step_effect_store_made w w' :
  step_effect w w' -> store_made w -> store_made w'.
Proof.
  intros (_ & _ & [[Ht Hh]|(msg & Ht & Hh & _)]) Hm k r Hin; rewrite Ht in Hin.
  - destruct (Hm k r Hin) as (t & Hr & (msg & w0 & Hmade)).
    destruct (Hh r t Hr) as (t' & Hr' & Htt).
    exists t'. split; [done|]. exists msg, w0. by eapply touched_trans.
  - apply map_set_elem_of in Hin as [[= -> ->]|Hin].
    + rewrite Hh. exists (fresh_task msg w).
      split; [by rewrite list_lookup_middle|].
      exists msg, w. constructor.
    + destruct (Hm k r Hin) as (t & Hr & Hmade).
      exists t. split; [|done]. rewrite Hh. by apply lookup_app_l_Some.
Qed.

Lemma step_store_made w e : store_made w -> store_made (step w e).
Proof.
  intros Hm. destruct e as [request|p ret|ctx st|ctx a|].
  5:{ intros k r Hin. simpl in Hin. by apply elem_of_nil in Hin. }
  all: by eapply step_effect_store_made; [apply step_has_effect|].
Qed.

(** X23 (every state the server can reach): each task in the map has a
    status timestamp, a history that begins with the message that made
    the task, an [artifacts] array, a [contextId], and no [metadata].  So
    the sort of tasks/list never falls back on 0 for a missing timestamp,
    and its timestamp filter never drops a task for having none. *)
Theorem stored_tasks_are_complete trace t :
  t ∈ tasks_values (run empty_world trace) ->
  (exists ms, timestamp (status t) = Some ms ∧ status_time t = ms)
  ∧ (exists msg h, history t = Some (msg :: h))
  ∧ is_Some (artifacts t)
  ∧ is_Some (contextId t)
  ∧ metadata t = None.
Proof.
  intros Hin.
  assert (Hm : store_made (run empty_world trace)).
  { apply run_invariant; [intros; by apply step_store_made|].
    intros k r Hk. by apply elem_of_nil in Hk. }
  unfold tasks_values in Hin.
  apply list_elem_of_omap in Hin as ([k r] & Hkr & Hr). simpl in Hr.
  destruct (Hm k r Hkr) as (t0 & Hr0 & (msg & w0 & Hmade)).
  assert (t0 = t) as -> by congruence.
  destruct (touched_keeps _ _ Hmade) as (_ & Hc & Hmeta & _ & Ha & Hts & Hh).
  split.
  { destruct Hts as [ms Hms]; [by eexists|].
    exists ms. split; [done|]. unfold status_time. by rewrite Hms. }
  split.
  { destruct (Hh msg [] eq_refl) as (h' & Hh'). eauto. }
  split; [apply Ha; by eexists|].
  split; [|done].
  rewrite Hc. simpl. unfold new_task_context.
  destruct (truthy (prop msg "contextId")) eqn:E; [|by eexists].
  destruct (prop msg "contextId"); [by eexists | done].
Qed.

(** X24 ([context.sendStatus]): [sendStatus] writes the state and the
    status message it is given and stamps the status with the current
    time itself, so a timestamp in its argument is ignored; it writes to
    the task object of its call only, and leaves that object's history,
    artifacts, [id], [contextId] and [metadata], and the map, as they
    are.  No state is checked before the write. *)
Theorem sendStatus_overwrites_status ctx st w t :
  heap w !! target ctx = Some t ->
  let w' := sendStatus ctx st w in
  heap w' !! target ctx
  = Some (mkTask (id t) (contextId t)
            (mkTaskStatus (state st) (message st) (Some (now_at (ticks w))))
            (artifacts t) (history t) (metadata t))
  ∧ (forall r, r ≠ target ctx -> heap w' !! r = heap w !! r)
  ∧ tasks w' = tasks w
  ∧ ticks w' = S (ticks w)
  ∧ forall ts, sendStatus ctx (mkTaskStatus (state st) (message st) ts) w = w'.
Proof.
  intros Hr w'. subst w'. unfold sendStatus. simpl.
  split; [by rewrite list_lookup_alter_eq, Hr|].
  split; [intros r Hne; by rewrite list_lookup_alter_ne|].
  done.
Qed.

(** *** The HTTP entry point *)

(** X25 ([handleRequest]): the answer to every request.  OPTIONS is
    answered 204 with an empty body, whatever the target.  Any other
    request whose target and Host header make no URL gets no answer.
    Otherwise: GET of either agent-card path is answered 200 with the
    agent card, and GET /health 200 with the number of map entries; a POST
    to / or /rpc is handed to [handleJsonRpc], whose status and response
    are the answer; everything else is answered 404 'Not found'.  Apart
    from the POST to / or /rpc, the answer does not depend on the
    authorisation or the body, and the state is left as it is. *)
Theorem http_routes httpMethod pathname authorized parsed w :
  (httpMethod = "OPTIONS" ->
   handleRequest httpMethod pathname authorized parsed w
   = (Answered (mkHttpResponse 204 EmptyBody), w))
  ∧ (httpMethod ≠ "OPTIONS" -> pathname = None ->
     handleRequest httpMethod pathname authorized parsed w = (Unanswered, w))
  ∧ (httpMethod = "GET" ->
     pathname = Some "/.well-known/agent-card.json"
     ∨ pathname = Some "/.well-known/agent.json" ->
     handleRequest httpMethod pathname authorized parsed w
     = (Answered (mkHttpResponse 200 AgentCardBody), w))
  ∧ (httpMethod = "GET" -> pathname = Some "/health" ->
     handleRequest httpMethod pathname authorized parsed w
     = (Answered (mkHttpResponse 200 (HealthBody (length (tasks w)))), w))
  ∧ (httpMethod = "POST" -> pathname = Some "/" ∨ pathname = Some "/rpc" ->
     handleRequest httpMethod pathname authorized parsed w
     = match handleJsonRpc authorized parsed w with
       | (inl (st, resp), w') =>
           (Answered (mkHttpResponse st (JsonRpcBody resp)), w')
       | (inr p, w') => (Suspended p, w')
       end)
  ∧ (forall path,
       pathname = Some path ->
       httpMethod ≠ "OPTIONS" ->
       ¬ (httpMethod = "GET"
          ∧ path ∈ [ "/.well-known/agent-card.json"; "/.well-known/agent.json";
                     "/health" ]) ->
       ¬ (httpMethod = "POST" ∧ path ∈ [ "/"; "/rpc" ]) ->
       handleRequest httpMethod pathname authorized parsed w
       = (Answered (mkHttpResponse 404 (ErrorBody "Not found")), w)).
Proof.
  unfold handleRequest. repeat split.
  - by intros ->.
  - intros Ho ->. by rewrite (bool_decide_eq_false_2 _ Ho).
  - intros -> [->| ->]; reflexivity.
  - intros -> ->. reflexivity.
  - intros -> [->| ->]; reflexivity.
  - intros path -> Ho Hget Hpost. rewrite (bool_decide_eq_false_2 _ Ho).
    destruct (decide (httpMethod = "GET")) as [->|Hg].
    + assert (H1 : path ≠ "/.well-known/agent-card.json")
        by (intros ->; apply Hget; split; [done | by repeat constructor]).
      assert (H2 : path ≠ "/.well-known/agent.json")
        by (intros ->; apply Hget; split; [done | by repeat constructor]).
      assert (H3 : path ≠ "/health")
        by (intros ->; apply Hget; split; [done | by repeat constructor]).
      rewrite (bool_decide_eq_false_2 _ H1), (bool_decide_eq_false_2 _ H2),
        (bool_decide_eq_false_2 _ H3).
      rewrite (bool_decide_eq_false_2 ("GET" = "POST")) by done.
      by rewrite !andb_false_r.
    + rewrite (bool_decide_eq_false_2 _ Hg). rewrite !andb_false_r.
      destruct (decide (httpMethod = "POST")) as [->|Hp].
      * assert (H1 : path ≠ "/")
          by (intros ->; apply Hpost; split; [done | by repeat constructor]).
        assert (H2 : path ≠ "/rpc")
          by (intros ->; apply Hpost; split; [done | by repeat constructor]).
        by rewrite (bool_decide_eq_false_2 _ H1), (bool_decide_eq_false_2 _ H2).
      * rewrite (bool_decide_eq_false_2 _ Hp). by rewrite !andb_false_r.
Qed.

(** *** tasks/list as its caller sees it *)

Lemma assoc_set_prop k v (fields : list (string * json)) k' :
  assoc k' (set_prop k v fields)
  = if decide (k = k') then Some v else assoc k' fields.
Proof.
  unfold set_prop. cbn [assoc]. destruct (decide (k = k')) as [->|Hne]; [done|].
  induction fields as [|[k0 v0] fields IH]; [done|].
  rewrite filter_cons. cbn [fst assoc].
  destruct (decide (k0 ≠ k)) as [H0|H0]; cbn [assoc].
  - destruct (decide (k0 = k')); [done | apply IH].
  - apply dec_stable in H0. subst k0.
    rewrite decide_False by done. apply IH.
Qed.

Lemma listTasks_first_page rid p w :
  list_pageToken p = None ->
  listTasks rid p w = listTasks rid (with_pageToken "" p) w.
Proof.
  intros Hp. unfold listTasks.
  change (validateListParams (with_pageToken "" p)) with (validateListParams p).
  rewrite Hp.
  change (decodePageToken (list_pageToken (with_pageToken "" p)))
    with (Some 0%Z).
  done.
Qed.

Lemma readListParams_page fields tok :
  assoc "pageToken" fields = None ->
  readListParams (page_request fields (Some tok))
  = with_pageToken tok (readListParams (Some (JObj fields))).
Proof.
  intros _. rewrite !readListParams_raw. unfold page_request, with_pageToken.
  cbn [prop_opt list_pageSize list_contextId list_status list_historyLength
       list_statusTimestampAfter list_includeArtifacts].
  rewrite !assoc_set_prop.
  repeat case_decide; by simplify_eq.
Qed.

Lemma collectPages_followPages fields :
  assoc "pageToken" fields = None ->
  forall fuel rid tok w,
    collectPages fuel rid fields tok w
    = followPages fuel rid (readListParams (Some (JObj fields)))
        (default "" tok) w.
Proof.
  intros Hno. induction fuel as [|fuel IH]; intros rid tok w; [done|].
  cbn [collectPages followPages].
  assert (E : handleTasksList rid (page_request fields tok) w
              = listTasks rid
                  (with_pageToken (default "" tok)
                     (readListParams (Some (JObj fields)))) w).
  { unfold handleTasksList. destruct tok as [t|].
    - by rewrite readListParams_page.
    - apply listTasks_first_page. rewrite readListParams_raw.
      cbn [list_pageToken prop_opt]. by rewrite Hno. }
  rewrite E.
  destruct (listTasks rid _ w) as [resp w'].
  destruct (result resp) as [[| |refs next ? ?|]|]; try done.
  destruct (read_tasks w' refs) as [page|]; [|done].
  destruct (bool_decide (next = "")); [done|].
  by rewrite IH.
Qed.

Lemma listing_order p tf w i j a b :
  store_wf w -> i < j ->
  listing p tf w !! i = Some a ->
  listing p tf w !! j = Some b ->
  (status_time b <= status_time a)%Z
  ∧ (status_time a = status_time b -> precedes (id a) (id b) (keys w)).
Proof.
  intros Hwf Hij Ha Hb.
  pose proof (lookup_precedes _ _ _ _ _ Hij Ha Hb) as Hlisting.
  apply (Array_sort_order status_time) in Hlisting as [Htime Htie].
  split; [done|]. intros Heq. specialize (Htie Heq).
  unfold precedes in *. rewrite <- (tasks_values_ids w Hwf).
  change [id a; id b] with (map id [a; b]).
  apply fmap_sublist.
  etrans; [exact Htie | apply filterTasks_sublist].
Qed.

Lemma tasks_values_elem_of w t :
  store_wf w ->
  t ∈ tasks_values w
  <-> exists r, (id t, r) ∈ tasks w ∧ heap w !! r = Some t.
Proof.
  intros [_ Hwf]. unfold tasks_values. rewrite list_elem_of_omap. split.
  - intros ([k r] & Hin & Hr). simpl in Hr.
    destruct (Hwf k r Hin) as (t' & Hr' & Hid).
    assert (t' = t) as -> by congruence. subst k. eauto.
  - intros (r & Hin & Hr). by exists (id t, r).
Qed.

Lemma store_wf_entry w k r r' :
  store_wf w -> (k, r) ∈ tasks w -> (k, r') ∈ tasks w -> r = r'.
Proof.
  intros [Hnd _] H1 H2.
  apply (assoc_lookup_NoDup _ _ _ Hnd) in H1.
  apply (assoc_lookup_NoDup _ _ _ Hnd) in H2. congruence.
Qed.


Lemma decimal_digit_is_digit c : decimal_digit c -> is_digit c = true.
Proof.
  intros Hc. unfold is_digit, digit_val.
  rewrite (bool_decide_eq_true_2 _ Hc). by apply bool_decide_eq_true_2.
Qed.

Lemma begins_with_date_looksLikeDate x :
  begins_with_date x -> looksLikeDate x = true.
Proof.
  intros (y1 & y2 & y3 & y4 & m1 & m2 & d1 & d2 & rest & -> & Hd).
  repeat match goal with
         | H : Forall _ (_ :: _) |- _ => apply Forall_cons in H as [? H]
         end.
  cbn [looksLikeDate]. rewrite !decimal_digit_is_digit by done.
  by rewrite !bool_decide_eq_true_2 by done.
Qed.

Lemma TaskState_string_inj x y :
  TaskState_string x = TaskState_string y -> x = y.
Proof. by destruct x, y. Qed.

Lemma TaskState_string_valid x : TaskState_string x ∈ VALID_TASK_STATES.
Proof. destruct x; by repeat constructor. Qed.

Lemma readListParams_fields fields pageSize_ c s tsf :
  assoc "pageToken" fields = None ->
  assoc "pageSize" fields = JNum <$> pageSize_ ->
  assoc "contextId" fields = JStr <$> c ->
  assoc "status" fields = JStr <$> s ->
  assoc "statusTimestampAfter" fields
  = (fun xa : string * Z => JStr xa.1) <$> tsf ->
  let p := readListParams (Some (JObj fields)) in
  list_pageSize p = default 50%Z pageSize_
  ∧ list_pageToken p = None
  ∧ list_contextId p = c
  ∧ list_status p = s
  ∧ list_historyLength p = as_number (assoc "historyLength" fields)
  ∧ list_statusTimestampAfter p = fst <$> tsf.
Proof.
  intros Htok Hsize Hc Hs Hts p. subst p. rewrite readListParams_raw.
  cbn [prop_opt list_pageSize list_pageToken list_contextId list_status
       list_historyLength list_statusTimestampAfter].
  rewrite Htok, Hsize, Hc, Hs, Hts.
  by destruct pageSize_, c, s, tsf as [[??]|].
Qed.

Lemma validateListParams_fields p (tsf : option (string * Z)) :
  (1 <= list_pageSize p <= 100)%Z ->
  (forall n, list_historyLength p = Some n -> (0 <= n)%Z) ->
  (forall x, list_status p = Some x -> x ∈ VALID_TASK_STATES) ->
  list_statusTimestampAfter p = fst <$> tsf ->
  (forall x a, tsf = Some (x, a) ->
     looksLikeDate x = true ∧ Date_parse x = Some a) ->
  validateListParams p = inr (snd <$> tsf).
Proof.
  intros Hsize Hhl Hst Hts Hdate. unfold validateListParams.
  destruct (Z.ltb_spec (list_pageSize p) 1); [lia|].
  destruct (Z.ltb_spec 100 (list_pageSize p)); [lia|]. cbn [orb].
  destruct (list_historyLength p) as [n|] eqn:En.
  { specialize (Hhl n eq_refl). destruct (Z.ltb_spec n 0); [lia|].
    destruct (list_status p) as [x|] eqn:Ex.
    - rewrite bool_decide_eq_true_2 by auto. cbn [negb].
      rewrite Hts. destruct tsf as [[y a]|]; cbn; [|done].
      destruct (Hdate y a eq_refl) as [-> ->]. done.
    - rewrite Hts. destruct tsf as [[y a]|]; cbn; [|done].
      destruct (Hdate y a eq_refl) as [-> ->]. done. }
  destruct (list_status p) as [x|] eqn:Ex.
  - rewrite bool_decide_eq_true_2 by auto. cbn [negb].
    rewrite Hts. destruct tsf as [[y a]|]; cbn; [|done].
    destruct (Hdate y a eq_refl) as [-> ->]. done.
  - rewrite Hts. destruct tsf as [[y a]|]; cbn; [|done].
    destruct (Hdate y a eq_refl) as [-> ->]. done.
Qed.

(** C3, as the code has it.  The map is well formed, and the request,
    as the object [fields] that arrives, gives a page size in [1,100] (50
    when it gives none), no negative [historyLength], and any of the three
    filters: a [contextId], a [status] that is a task state name, a
    [statusTimestampAfter] that begins like a date and that [Date]
    parses; a [contextId] that is the empty string filters nothing.
    Then there is one listing [ids] such that: it holds exactly the ids
    of the entries of the map whose task passes the filters, each once; a
    task with a later [status.timestamp] comes first (a missing timestamp
    counting as 0), tasks of equal time in the order in which their ids
    entered the map; the page asked for with the numeral of an offset as
    [pageToken] (or without a token, for offset 0) holds the tasks of the
    listing from that offset on, at most the page size, each with the
    status of the stored task, [totalSize] is the length of the listing,
    and [nextPageToken] is the empty string exactly when offset plus page
    size reaches [totalSize], and the numeral of that sum otherwise; and
    a caller that follows [nextPageToken] from the first page until it is
    empty has received exactly the listing. *)
Theorem tasks_list_sorted_and_paginated rid fields w pageSize_ c st tsf :
  store_wf w ->
  assoc "pageToken" fields = None ->
  assoc "pageSize" fields = JNum <$> pageSize_ ->
  (1 <= default 50 pageSize_ <= 100)%Z ->
  (forall n, assoc "historyLength" fields = Some (JNum n) -> (0 <= n)%Z) ->
  assoc "contextId" fields = JStr <$> c ->
  assoc "status" fields = (fun x => JStr (TaskState_string x)) <$> st ->
  assoc "statusTimestampAfter" fields
  = (fun xa : string * Z => JStr xa.1) <$> tsf ->
  (forall x a, tsf = Some (x, a) ->
     begins_with_date x ∧ Date_parse x = Some a) ->
  let size := default 50%Z pageSize_ in
  let time := fun t : Task => default 0%Z (timestamp (status t)) in
  let passes := fun t : Task =>
    (forall x, c = Some x -> x ≠ "" -> contextId t = Some (JStr x))
    ∧ (forall x, st = Some x -> state (status t) = x)
    ∧ (forall x a, tsf = Some (x, a) ->
         exists ms, timestamp (status t) = Some ms ∧ (a <= ms)%Z) in
  exists ids : list string,
    NoDup ids
    ∧ (forall k,
         k ∈ ids
         <-> exists r t, (k, r) ∈ tasks w ∧ heap w !! r = Some t ∧ passes t)
    ∧ (forall i j ka kb ra rb a b,
         i < j -> ids !! i = Some ka -> ids !! j = Some kb ->
         (ka, ra) ∈ tasks w -> heap w !! ra = Some a ->
         (kb, rb) ∈ tasks w -> heap w !! rb = Some b ->
         (time b <= time a)%Z
         ∧ (time a = time b -> precedes ka kb (map fst (tasks w))))
    ∧ (forall start tok,
         (0 <= start)%Z ->
         (start + size <= MAX_SAFE_INTEGER)%Z ->
         tok = Some (String_of_number start) ∨ (tok = None ∧ start = 0%Z) ->
         exists resp w' refs next page,
           handleTasksList rid (page_request fields tok) w = (resp, w')
           ∧ error resp = None
           ∧ result resp
             = Some (ListTasksResponse refs next (length page) (length ids))
           ∧ read_tasks w' refs = Some page
           ∧ map id page = take (Z.to_nat size) (drop (Z.to_nat start) ids)
           ∧ (forall t,
                t ∈ page ->
                exists r t0,
                  (id t, r) ∈ tasks w ∧ heap w !! r = Some t0
                  ∧ status t = status t0)
           ∧ (next = "" <-> (Z.of_nat (length ids) <= start + size)%Z)
           ∧ (next ≠ "" -> next = String_of_number (start + size)))
    ∧ (forall fuel,
         length (tasks w) < fuel ->
         collectPages fuel rid fields None w = Some ids).
Proof.
  intros Hwf Htok Hsize Hrange Hhl Hc Hs Hts Hdate size time passes.
  pose (p := readListParams (Some (JObj fields))).
  assert (Hs' : assoc "status" fields = JStr <$> (TaskState_string <$> st))
    by (by rewrite Hs; destruct st).
  destruct (readListParams_fields fields pageSize_ c (TaskState_string <$> st)
              tsf Htok Hsize Hc Hs' Hts)
    as (Hp1 & Hp2 & Hp3 & Hp4 & Hp5 & Hp6).
  fold p in Hp1, Hp2, Hp3, Hp4, Hp5, Hp6. fold size in Hp1.
  assert (Hv : validateListParams p = inr (snd <$> tsf)).
  { apply validateListParams_fields; try done.
    - rewrite Hp1. done.
    - intros n Hn. rewrite Hp5 in Hn. apply Hhl.
      destruct (assoc "historyLength" fields) as [v|]; [|done].
      destruct v; cbn in Hn; by simplify_eq.
    - intros x Hx. rewrite Hp4 in Hx. destruct st; simplify_eq/=.
      apply TaskState_string_valid.
    - intros x a Hx. destruct (Hdate x a Hx) as [Hb Hd].
      split; [by apply begins_with_date_looksLikeDate | done]. }
  set (tf := snd <$> tsf) in *.
  set (L := listing p tf w).
  assert (HL : forall t, t ∈ L <-> t ∈ tasks_values w ∧ passes t).
  { intros t. unfold L, listing.
    rewrite (Array_sort_Permutation status_time).
    rewrite (selected_spec p tf w t Hv). rewrite Hp3, Hp4. unfold passes.
    split.
    - intros (Hin & H1 & H2 & H3). split; [done|]. split; [done|].
      split.
      + intros x ->. by apply TaskState_string_inj, H2.
      + intros x a ->. apply H3. done.
    - intros (Hin & H1 & H2 & H3). split; [done|]. split; [done|].
      split.
      { intros x Hx. destruct st as [y|]; simplify_eq/=. by rewrite (H2 y). }
      intros after Ha. subst tf.
      destruct tsf as [[x a]|]; [|done]. injection Ha as <-. by eapply H3. }
  assert (Hnd : NoDup (map id L)).
  { unfold L, listing. rewrite (Array_sort_Permutation status_time).
    by apply selected_NoDup. }
  assert (Hlen : length L <= length (tasks w)).
  { unfold L, listing. rewrite (Array_sort_length status_time). unfold selected.
    etransitivity; [apply sublist_length, filterTasks_sublist|].
    apply tasks_values_length. }
  exists (map id L). split; [done|]. split; [|split; [|split]].
  - intros k. rewrite list_elem_of_fmap. split.
    + intros (t & -> & Hin). apply HL in Hin as [Hin Hpass].
      apply (tasks_values_elem_of w t Hwf) in Hin as (r & Hin & Hr). eauto.
    + intros (r & t & Hin & Hr & Hpass).
      destruct Hwf as [Hnd' Hwf']. destruct (Hwf' k r Hin) as (t' & Hr' & Hid).
      assert (t' = t) as -> by congruence. subst k.
      exists t. split; [done|]. apply HL. split; [|done].
      apply (tasks_values_elem_of w t (conj Hnd' Hwf')). eauto.
  - intros i j ka kb ra rb a b Hij Hi Hj Hka Ha Hkb Hb.
    rewrite list_lookup_fmap in Hi, Hj.
    destruct (L !! i) as [a0|] eqn:Ha0; [|done].
    destruct (L !! j) as [b0|] eqn:Hb0; [|done].
    injection Hi as <-. injection Hj as <-.
    assert (Hsame : forall x r0 t0, x ∈ L -> (id x, r0) ∈ tasks w ->
              heap w !! r0 = Some t0 -> t0 = x).
    { intros x r0 t0 Hx Hin Hr0. apply HL in Hx as [Hx _].
      apply (tasks_values_elem_of w x Hwf) in Hx as (r1 & Hin1 & Hr1).
      assert (r0 = r1) as -> by by eapply store_wf_entry. congruence. }
    assert (a = a0) as ->
      by (eapply Hsame; [by eapply list_elem_of_lookup_2 | done..]).
    assert (b = b0) as ->
      by (eapply Hsame; [by eapply list_elem_of_lookup_2 | done..]).
    exact (listing_order p tf w i j a0 b0 Hwf Hij Ha0 Hb0).
  - intros start tok Hstart _ Htokens.
    assert (E : handleTasksList rid (page_request fields tok) w
                = listTasks rid (with_pageToken (default "" tok) p) w).
    { unfold handleTasksList. destruct Htokens as [->|[-> _]].
      - by rewrite readListParams_page.
      - by apply listTasks_first_page. }
    assert (Hd : decodePageToken (list_pageToken (with_pageToken (default "" tok) p))
                 = Some start).
    { destruct Htokens as [->|[-> ->]]; [|done].
      by apply decodePageToken_next. }
    rewrite E.
    rewrite (listTasks_page rid (with_pageToken (default "" tok) p) w tf start
               Hv Hd).
    change (page_of (with_pageToken (default "" tok) p) tf w start)
      with (page_of p tf w start).
    change (listing (with_pageToken (default "" tok) p) tf w) with L.
    change (list_pageSize (with_pageToken (default "" tok) p))
      with (list_pageSize p).
    change (list_historyLength (with_pageToken (default "" tok) p))
      with (list_historyLength p).
    change (list_includeArtifacts (with_pageToken (default "" tok) p))
      with (list_includeArtifacts p).
    rewrite Hp1.
    match goal with
    | |- context [jsonRpcSuccess ?i ?res ?w0] =>
        pose proof (jsonRpcSuccess_fst i res w0) as (Hres & Herr & _);
        pose proof (jsonRpcSuccess_snd i res w0) as (_ & Hheap & _);
        destruct (jsonRpcSuccess i res w0) as [resp w'] eqn:Eresp
    end.
    cbn [fst snd heap with_heap] in Hres, Herr, Hheap.
    pose (page := map (projectTask (list_historyLength p)
                         (list_includeArtifacts p)) (page_of p tf w start)).
    assert (Hpage : page_of p tf w start
                    = take (Z.to_nat size) (drop (Z.to_nat start) L)).
    { unfold page_of. rewrite Hp1. fold L. apply slice_window; lia. }
    eexists resp, w', _, _, page.
    split; [reflexivity|]. split; [done|].
    split.
    { rewrite Hres. unfold page. by rewrite !length_map. }
    split.
    { unfold page.
      rewrite <- (length_map (projectTask (list_historyLength p)
                                (list_includeArtifacts p))
                    (page_of p tf w start)).
      by apply read_tasks_fresh. }
    split.
    { unfold page. rewrite map_id_projectTask, Hpage.
      by rewrite fmap_take, fmap_drop. }
    split.
    { intros t Ht. unfold page in Ht.
      apply list_elem_of_fmap in Ht as (t0 & -> & Ht0).
      rewrite Hpage in Ht0.
      eapply elem_of_sublist in Ht0;
        [|etrans; [apply sublist_take | apply sublist_drop]].
      apply HL in Ht0 as [Ht0 _].
      apply (tasks_values_elem_of w t0 Hwf) in Ht0 as (r & Hin & Hr).
      destruct (projectTask_fields (list_historyLength p)
                  (list_includeArtifacts p) t0) as (-> & _ & -> & _).
      by exists r, t0. }
    rewrite length_map.
    destruct (Z.ltb_spec (start + size) (Z.of_nat (length L))) as [Hmore|Hlast].
    + destruct (parseInt_String_of_number (start + size)) as [_ Hne]; [lia|].
      split; [split; [done | lia] | done].
    + split; [split; [lia | done] | done].
  - intros fuel Hfuel.
    rewrite (collectPages_followPages fields Htok). fold p. cbn [default].
    rewrite (followPages_from rid p tf fuel Hv w 0 ""); try done; try lia.
    fold L. lia.
Qed.

End ServerProperties.

(** ** The relay client and a refused authentication *)

(** C4, what the code does: after an auth_error frame the socket is
    closed, but the promise of [connect] is neither resolved nor rejected,
    and when the socket has closed the reconnect timer is armed whenever
    [autoReconnect] is set, as it is by default. *)
Theorem relay_auth_error_leaves_connect_pending cfg e :
  let c := RelayClient.run (RelayClient.create cfg) (refused_connection e) in
  RelayClient.sockets c !! 0 = Some RelayClient.CLOSED
  ∧ RelayClient.ws c = None
  ∧ RelayClient.promises c !! 0
    = Some (RelayClient.mkConnectPromise RelayClient.Unsettled false)
  ∧ RelayClient.reconnectTimer c
    = (if RelayClient.autoReconnect cfg then Some 0 else None).
Proof.
  destruct cfg as [url tok ten agent card handler auto delay].
  destruct auto; repeat split; reflexivity.
Qed.

(** The two neighbouring paths, for comparison: a socket error before
    authentication rejects the promise of [connect], and [disconnect]
    closes the socket without a reconnect timer being armed. *)
Lemma relay_socket_error_rejects_connect cfg :
  let c := RelayClient.run (RelayClient.create cfg)
             [ RelayClient.Connect; RelayClient.OnError 0 ] in
  RelayClient.promises c !! 0
  = Some (RelayClient.mkConnectPromise RelayClient.Rejected false).
Proof. destruct cfg. reflexivity. Qed.

Lemma relay_disconnect_arms_no_timer cfg :
  let c := RelayClient.run (RelayClient.create cfg)
             [ RelayClient.Connect; RelayClient.OnOpen 0;
               RelayClient.Disconnect; RelayClient.OnClose 0 ] in
  RelayClient.sockets c !! 0 = Some RelayClient.CLOSED
  ∧ RelayClient.reconnectTimer c = None.
Proof. destruct cfg as [? ? ? ? ? ? auto ?]. by destruct auto. Qed.

(** ** The relay client: connecting, reconnecting and disconnecting *)

(** X25 on [sample_three]: the health check of a caller that
    [validateAuth] refuses, and a GET of a path that the server does not
    have. *)
Lemma http_routes_witness :
  @handleRequest sample_runtime "GET" (Some "/health") false None sample_three
  = (Answered (mkHttpResponse 200 (HealthBody 3)), sample_three)
  ∧ @handleRequest sample_runtime "GET" (Some "/tasks") true None sample_three
    = (Answered (mkHttpResponse 404 (ErrorBody "Not found")), sample_three).
Proof.
  destruct (@http_routes sample_runtime "GET" (Some "/health") false None
              sample_three) as (_ & _ & _ & Hhealth & _).
  destruct (@http_routes sample_runtime "GET" (Some "/tasks") true None
              sample_three) as (_ & _ & _ & _ & _ & Hother).
  split.
  - exact (Hhealth eq_refl eq_refl).
  - apply (Hother "/tasks" eq_refl); [done | |].
    + intros [_ Hin]. revert Hin. apply (bool_decide_unpack _).
      vm_compute. exact I.
    + intros [Hm _]. discriminate Hm.
Defined.

(** X26 ([RelayClient.handleMessage]): an auth_ok frame marks the client
    connected and resolves the promise of the [doConnect] whose socket
    received it; nothing is sent, no socket and no timer changes.  The
    frame is not checked against the current socket. *)
Theorem relay_auth_ok_resolves_connect c s msg from_timer :
  prop msg "type" = Some (JStr "auth_ok") ->
  RelayClient.promises c !! s
  = Some (RelayClient.mkConnectPromise RelayClient.Unsettled from_timer) ->
  let c' := RelayClient.step c (RelayClient.OnMessage s (Some msg)) in
  RelayClient.isConnected c' = true
  ∧ RelayClient.promises c' !! s
    = Some (RelayClient.mkConnectPromise RelayClient.Resolved from_timer)
  ∧ (forall p, p ≠ s ->
       RelayClient.promises c' !! p = RelayClient.promises c !! p)
  ∧ RelayClient.sent c' = RelayClient.sent c
  ∧ RelayClient.sockets c' = RelayClient.sockets c
  ∧ RelayClient.ws c' = RelayClient.ws c
  ∧ RelayClient.reconnectTimer c' = RelayClient.reconnectTimer c
  ∧ RelayClient.timers c' = RelayClient.timers c.
Proof.
  intros Hty Hp c'. subst c'. cbn [RelayClient.step].
  unfold RelayClient.handleMessage. rewrite Hty. cbn [strict_eq].
  rewrite bool_decide_eq_true_2 by done.
  unfold RelayClient.resolve, RelayClient.set_promises,
    RelayClient.set_isConnected. cbn.
  split; [done|]. split.
  { by rewrite list_lookup_alter_eq, Hp. }
  split; [|done].
  intros p Hne. by rewrite list_lookup_alter_ne.
Qed.

Lemma relay_step_stopped c e :
  is_connect e = false ->
  RelayClient.isStopping c = true ->
  RelayClient.reconnectTimer c = None ->
  RelayClient.ws c = None ->
  let c' := RelayClient.step c e in
  RelayClient.isStopping c' = true
  ∧ RelayClient.reconnectTimer c' = None
  ∧ RelayClient.ws c' = None
  ∧ RelayClient.timers c' = RelayClient.timers c
  ∧ length (RelayClient.sockets c') = length (RelayClient.sockets c)
  ∧ RelayClient.sent c' = RelayClient.sent c.
Proof.
  intros He Hs Ht Hw c'. subst c'.
  destruct e as [| |s|s [msg|]|s|s|]; try done; cbn [RelayClient.step].
  - unfold RelayClient.disconnect. cbn. by rewrite Hw.
  - unfold RelayClient.sendAuth. cbn. rewrite Hw. cbn.
    by rewrite length_insert.
  - unfold RelayClient.handleMessage.
    destruct (strict_eq (prop msg "type") (Some (JStr "auth_ok"))).
    { unfold RelayClient.resolve. by cbn. }
    destruct (strict_eq (prop msg "type") (Some (JStr "auth_error"))).
    { by rewrite Hw. }
    destruct (strict_eq (prop msg "type") (Some (JStr "a2a.request"))
              && truthy (prop msg "payload")).
    { destruct (prop_opt (prop msg "payload") "params") as [[]|]; try done;
        match goal with
        | |- context [RelayClient.onRequest ?cfg ?r] =>
            destruct (RelayClient.onRequest cfg r) as [?|[? ?]]
        end; unfold RelayClient.sendResponse; by rewrite Hw. }
    destruct (strict_eq (prop msg "type") (Some (JStr "ping"))); [|done].
    by rewrite Hw.
  - cbn. rewrite Hs. cbn. by rewrite length_insert.
  - destruct (RelayClient.isConnected c); cbn [negb]; [done|].
    unfold RelayClient.reject.
    destruct (RelayClient.promises c !! s) as [[[] b]|]; try done.
    cbn. rewrite Hs. by rewrite !andb_false_r.
  - by rewrite Ht.
Qed.

(** X27 ([RelayClient.disconnect] and the listeners): [disconnect] is
    final until [connect] is called again.  Whatever events of old
    sockets and timers arrive afterwards, no reconnect timer is armed, no
    socket is created, the client has no current socket, and nothing is
    sent. *)
Theorem relay_disconnect_stops_reconnecting c trace :
  Forall (fun e => is_connect e = false) trace ->
  let c0 := RelayClient.disconnect c in
  let c' := RelayClient.run c0 trace in
  RelayClient.isStopping c' = true
  ∧ RelayClient.reconnectTimer c' = None
  ∧ RelayClient.ws c' = None
  ∧ RelayClient.timers c' = RelayClient.timers c
  ∧ length (RelayClient.sockets c') = length (RelayClient.sockets c)
  ∧ RelayClient.sent c' = RelayClient.sent c.
Proof.
  intros Htrace c0 c'. subst c'.
  assert (H0 : RelayClient.isStopping c0 = true
               ∧ RelayClient.reconnectTimer c0 = None
               ∧ RelayClient.ws c0 = None
               ∧ RelayClient.timers c0 = RelayClient.timers c
               ∧ length (RelayClient.sockets c0) = length (RelayClient.sockets c)
               ∧ RelayClient.sent c0 = RelayClient.sent c).
  { subst c0. unfold RelayClient.disconnect. cbn.
    destruct (RelayClient.ws c) eqn:Hw; cbn; rewrite ?Hw, ?length_alter; done. }
  clearbody c0. revert c0 H0.
  induction Htrace as [|e trace He _ IH]; intros c0 H0; [done|].
  cbn. apply IH. destruct H0 as (Hs & Ht & Hw & Hn & Hl & Hsent).
  pose proof (relay_step_stopped c0 e He Hs Ht Hw) as K. cbv zeta in K.
  destruct K as (? & ? & ? & ? & ? & ?).
  repeat split; congruence.
Qed.

Lemma relay_step_no_autoReconnect c e :
  RelayClient.autoReconnect (RelayClient.config c) = false ->
  RelayClient.reconnectTimer c = None ->
  let c' := RelayClient.step c e in
  RelayClient.config c' = RelayClient.config c
  ∧ RelayClient.reconnectTimer c' = None
  ∧ RelayClient.timers c' = RelayClient.timers c
  ∧ length (RelayClient.sockets c')
    = length (RelayClient.sockets c) + (if is_connect e then 1 else 0).
Proof.
  intros Ha Ht c'. subst c'.
  destruct e as [| |s|s [msg|]|s|s|]; cbn [RelayClient.step is_connect].
  - cbn. rewrite length_app. cbn. done.
  - unfold RelayClient.disconnect. cbn.
    destruct (RelayClient.ws c); cbn; rewrite ?length_alter; auto with lia.
  - unfold RelayClient.sendAuth. cbn.
    destruct (RelayClient.ws c); cbn; rewrite length_insert; auto with lia.
  - unfold RelayClient.handleMessage.
    destruct (strict_eq (prop msg "type") (Some (JStr "auth_ok"))).
    { unfold RelayClient.resolve. cbn. auto with lia. }
    destruct (strict_eq (prop msg "type") (Some (JStr "auth_error"))).
    { destruct (RelayClient.ws c); cbn; rewrite ?length_alter; auto with lia. }
    destruct (strict_eq (prop msg "type") (Some (JStr "a2a.request"))
              && truthy (prop msg "payload")).
    { destruct (prop_opt (prop msg "payload") "params") as [[]|];
        try (auto with lia);
        match goal with
        | |- context [RelayClient.onRequest ?cfg ?r] =>
            destruct (RelayClient.onRequest cfg r) as [?|[? ?]]
        end; unfold RelayClient.sendResponse;
        destruct (RelayClient.ws c) as [cur|]; try (auto with lia);
        destruct (RelayClient.sockets c !! cur) as [[]|]; cbn; auto with lia. }
    destruct (strict_eq (prop msg "type") (Some (JStr "ping")));
      [|auto with lia].
    destruct (RelayClient.ws c); cbn; auto with lia.
  - auto with lia.
  - cbn. rewrite Ha, andb_false_r. cbn. rewrite length_insert. auto with lia.
  - destruct (RelayClient.isConnected c); cbn [negb]; [auto with lia|].
    unfold RelayClient.reject.
    destruct (RelayClient.promises c !! s) as [[[] b]|]; try (auto with lia).
    cbn. rewrite Ha. rewrite andb_false_r. cbn. auto with lia.
  - rewrite Ht. auto with lia.
Qed.

(** X28 ([RelayClient], with [autoReconnect: false]): the client never
    reconnects by itself.  Whatever happens, no reconnect timer is ever
    armed, and every socket it creates is created by a call of
    [connect()]. *)
Theorem relay_without_autoReconnect c trace :
  RelayClient.autoReconnect (RelayClient.config c) = false ->
  RelayClient.reconnectTimer c = None ->
  let c' := RelayClient.run c trace in
  RelayClient.reconnectTimer c' = None
  ∧ RelayClient.timers c' = RelayClient.timers c
  ∧ length (RelayClient.sockets c')
    = length (RelayClient.sockets c)
      + length (filter (fun e => is_connect e = true) trace).
Proof.
  intros Ha Ht c'. subst c'. revert c Ha Ht.
  induction trace as [|e trace IH]; intros c Ha Ht; [cbn; auto with lia|].
  pose proof (relay_step_no_autoReconnect c e Ha Ht) as K. cbv zeta in K.
  destruct K as (Hc & Ht' & Hn & Hl).
  cbn [RelayClient.run foldl].
  destruct (IH (RelayClient.step c e)) as (IH1 & IH2 & IH3);
    [by rewrite Hc | done |].
  fold (RelayClient.run (RelayClient.step c e) trace).
  split; [done|]. split; [congruence|].
  rewrite IH3, Hl. rewrite filter_cons.
  destruct (is_connect e); [rewrite decide_True by done|
                            rewrite decide_False by done]; cbn; lia.
Qed.

(** X29 ([RelayClient.scheduleReconnect]): with [autoReconnect] set and
    the client not stopping, the closing of a socket arms the reconnect
    timer; the timer makes a new socket and a new promise; and an error
    on that socket before authentication rejects the promise and arms the
    timer again, so the client goes on trying. *)
Theorem relay_reconnect_retries c s :
  RelayClient.isStopping c = false ->
  RelayClient.autoReconnect (RelayClient.config c) = true ->
  RelayClient.reconnectTimer c = None ->
  length (RelayClient.promises c) = length (RelayClient.sockets c) ->
  let s' := length (RelayClient.sockets c) in
  let c1 := RelayClient.step c (RelayClient.OnClose s) in
  let c2 := RelayClient.step c1 RelayClient.TimerFired in
  let c3 := RelayClient.step c2 (RelayClient.OnError s') in
  (RelayClient.reconnectTimer c1 = Some (RelayClient.timers c)
   ∧ RelayClient.isConnected c1 = false
   ∧ RelayClient.ws c1 = None)
  ∧ (RelayClient.ws c2 = Some s'
     ∧ RelayClient.sockets c2 !! s' = Some RelayClient.CONNECTING
     ∧ RelayClient.promises c2 !! s'
       = Some (RelayClient.mkConnectPromise RelayClient.Unsettled true)
     ∧ RelayClient.reconnectTimer c2 = None)
  ∧ (RelayClient.promises c3 !! s'
     = Some (RelayClient.mkConnectPromise RelayClient.Rejected true)
     ∧ RelayClient.reconnectTimer c3 = Some (S (RelayClient.timers c))).
Proof.
  intros Hs Ha Ht Hl s' c1 c2 c3.
  assert (E1 : c1 = RelayClient.mkClient (RelayClient.config c) None
                 (Some (RelayClient.timers c)) false false
                 (<[s := RelayClient.CLOSED]> (RelayClient.sockets c))
                 (RelayClient.promises c) (RelayClient.sent c)
                 (S (RelayClient.timers c))).
  { subst c1. cbn. rewrite Hs, Ha. cbn.
    unfold RelayClient.scheduleReconnect. cbn. by rewrite Ht, Hs. }
  assert (E2 : c2 = RelayClient.mkClient (RelayClient.config c) (Some s')
                 None false false
                 (<[s := RelayClient.CLOSED]> (RelayClient.sockets c)
                  ++ [RelayClient.CONNECTING])
                 (RelayClient.promises c
                  ++ [RelayClient.mkConnectPromise RelayClient.Unsettled true])
                 (RelayClient.sent c) (S (RelayClient.timers c))).
  { subst c2. rewrite E1. cbn. unfold RelayClient.doConnect. cbn.
    by rewrite length_insert. }
  split; [by rewrite E1|].
  assert (Hp : (RelayClient.promises c
                ++ [RelayClient.mkConnectPromise RelayClient.Unsettled true])
               !! s' = Some (RelayClient.mkConnectPromise
                               RelayClient.Unsettled true)).
  { apply list_lookup_middle. subst s'. by rewrite Hl. }
  split.
  { rewrite E2. cbn. split; [done|]. split; [|done].
    apply list_lookup_middle. subst s'. by rewrite length_insert. }
  subst c3. rewrite E2. cbn. unfold RelayClient.reject. cbn.
  rewrite Hp. cbn. rewrite Ha. cbn.
  unfold RelayClient.scheduleReconnect. cbn. split; [|done].
  rewrite list_lookup_insert_eq; [done|].
  rewrite length_app. cbn. subst s'. lia.
Qed.

(** ** The echo agent behind the relay *)

Lemma tasks_get_new u (t : Task) m h n c :
  tasks_get (mkWorld (map_set u (length h) m) (h ++ [t]) n c) (Some (JStr u))
  = Some (u, length h, t).
Proof.
  unfold tasks_get. cbn [tasks heap].
  by rewrite assoc_map_set, list_lookup_middle.
Qed.

Lemma relay_agent_cancel_found {R : Runtime} rid params w k r t :
  tasks_get w (prop_opt params "id") = Some (k, r, t) ->
  RelayAgent.handleTasksCancel rid params w
  = (RelayAgent.mkAgentResponse rid (Some (TaskResult r)) None,
     mkWorld (tasks w)
       (alter (with_status
                 (mkTaskStatus TASK_STATE_CANCELED None (Some (now_at (ticks w)))))
          r (heap w))
       (uuids w) (S (ticks w))).
Proof. intros Hg. unfold RelayAgent.handleTasksCancel. by rewrite Hg. Qed.

(** X30 ([test-relay-agent.ts], [handleMessageSend] and
    [handleTasksCancel]): every message/send that the echo agent answers
    with a result has made a new task under a fresh id, whatever [taskId]
    the message names; the task is born COMPLETED, with the message and
    the echo reply as its history.  The agent's tasks/cancel looks at no
    state: a tasks/cancel for that task succeeds and turns the COMPLETED
    task into a CANCELED one. *)
Theorem relay_agent_cancels_completed_task {R : Runtime}
  rid params w resp w' r :
  RelayAgent.handleMessageSend rid params w = Some (resp, w') ->
  RelayAgent.agent_result resp = Some (SendMessageResponse r) ->
  exists msg t reply,
    prop_opt params "message" = Some msg
    ∧ r = length (heap w)
    ∧ tasks w' = map_set (uuid_at (uuids w)) r (tasks w)
    ∧ heap w' = heap w ++ [t]
    ∧ id t = uuid_at (uuids w)
    ∧ state (status t) = TASK_STATE_COMPLETED
    ∧ is_terminal (state (status t)) = true
    ∧ message (status t) = Some reply
    ∧ history t = Some [msg; reply]
    ∧ forall rid2,
        let answer :=
          RelayAgent.handleTasksCancel rid2
            (Some (JObj [ ("id", JStr (id t)) ])) w' in
        RelayAgent.agent_result (fst answer) = Some (TaskResult r)
        ∧ RelayAgent.agent_error (fst answer) = None
        ∧ task_state_at (snd answer) r = Some TASK_STATE_CANCELED.
Proof.
  unfold RelayAgent.handleMessageSend. intros H Hres.
  destruct (prop_opt params "message") as [msg|] eqn:Hm.
  2:{ injection H as <- <-. discriminate. }
  destruct (prop msg "parts") as [parts|].
  2:{ injection H as <- <-. discriminate. }
  destruct (negb (truthy (Some msg)) || negb (truthy (Some parts))).
  { injection H as <- <-. discriminate. }
  destruct (RelayAgent.extractText parts) as [text|]; [|discriminate].
  cbn [randomUUID Date_now alloc] in H.
  assert (Hshape : exists cid n,
            w' = mkWorld (map_set (uuid_at (uuids w)) (length (heap w)) (tasks w))
                   (heap w ++ [mkTask (uuid_at (uuids w)) cid
                                 (mkTaskStatus TASK_STATE_COMPLETED
                                    (Some (RelayAgent.echoMessage text))
                                    (Some (now_at (ticks w))))
                                 (Some []) (Some [msg; RelayAgent.echoMessage text])
                                 None])
                   n (S (ticks w))
            ∧ r = length (heap w)).
  { destruct (truthy (prop msg "contextId")); cbn in H;
      injection H as <- <-; cbn in Hres; injection Hres as <-;
      by eexists _, _. }
  destruct Hshape as (cid & n & -> & ->).
  eexists msg, _, (RelayAgent.echoMessage text).
  cbn [tasks heap]. repeat (split; [reflexivity|]).
  intros rid2. cbn [id].
  erewrite relay_agent_cancel_found
    by (cbn [prop_opt assoc]; rewrite decide_True by done; apply tasks_get_new).
  cbn [fst snd RelayAgent.agent_result RelayAgent.agent_error].
  split; [done|]. split; [done|].
  unfold task_state_at. cbn [heap].
  by rewrite list_lookup_alter_eq, list_lookup_middle.
Qed.

(** ** Runs of the model *)

Lemma sample_uuid_inj : Inj (=) (=) sample_uuid.
Proof.
  intros a b H.
  assert (E : String_of_number (Z.of_nat a) = String_of_number (Z.of_nat b)).
  { unfold sample_uuid in H. cbn [String.append] in H. by injection H. }
  destruct (parseInt_String_of_number (Z.of_nat a)) as [Ha _]; [lia|].
  destruct (parseInt_String_of_number (Z.of_nat b)) as [Hb _]; [lia|].
  rewrite E, Hb in Ha. injection Ha. lia.
Qed.


Lemma sample_world_store_wf : store_wf sample_world.
Proof. apply (@run_store_wf sample_runtime), empty_world_store_wf. Qed.

Lemma sample_three_store_wf : store_wf sample_three.
Proof. apply (@run_store_wf sample_runtime), empty_world_store_wf. Qed.

(** C1 on the first request of [sample_trace], whose handler throws. *)
Lemma message_send_handler_throws_witness :
  @handleMessageSend sample_runtime (Some (IdNum 1))
    (Some (JObj [ ("message", text_message "m1" "one") ])) empty_world
  = (Awaits sample_pending, sample_started)
  ∧ task_state_at
      (snd (@resumeMessageSend sample_runtime sample_pending
              (Throws "Error: boom") sample_started)) 0
    = Some TASK_STATE_FAILED.
Proof.
  assert (H : @handleMessageSend sample_runtime (Some (IdNum 1))
                (Some (JObj [ ("message", text_message "m1" "one") ]))
                empty_world
              = (Awaits sample_pending, sample_started))
    by (vm_compute; reflexivity).
  split; [exact H|].
  pose proof (@message_send_handler_throws sample_runtime _ _ _ _ _ []
                "Error: boom" H) as K.
  cbv zeta in K. destruct K as (_ & _ & _ & _ & t & Ht & Hs).
  unfold task_state_at. change (target (pending_context sample_pending)) with 0 in Ht.
  change (@run sample_runtime sample_started []) with sample_started in Ht.
  rewrite Ht. simpl. by rewrite Hs.
Defined.

(** C2, as stated, fails: the task of [sample_canceled] is CANCELED, and
    each of three runs of server code moves it out of that state: a late
    [sendStatus] of the handler (as the echo agent of [test-server.ts]
    sends from its timer), the return of the handler callback with a
    message, and a [sendStatus] that reports progress. *)
Lemma terminal_state_left_counterexample :
  task_state_at sample_canceled 0 = Some TASK_STATE_CANCELED
  ∧ is_terminal TASK_STATE_CANCELED = true
  ∧ task_state_at
      (@step sample_runtime sample_canceled
         (SendStatus sample_context
            (mkTaskStatus TASK_STATE_COMPLETED
               (Some (text_message "r1" "Echo: one")) None))) 0
    = Some TASK_STATE_COMPLETED
  ∧ task_state_at
      (@step sample_runtime sample_canceled
         (CallbackReturn sample_pending
            (ReturnsMessage (text_message "r1" "Echo: one")))) 0
    = Some TASK_STATE_COMPLETED
  ∧ task_state_at
      (@step sample_runtime sample_canceled
         (SendStatus sample_context
            (mkTaskStatus TASK_STATE_WORKING None None))) 0
    = Some TASK_STATE_WORKING
  ∧ is_terminal TASK_STATE_WORKING = false.
Proof. repeat split; vm_compute; reflexivity. Qed.

(** C2 as amended, on the canceled task of [sample_canceled]. *)
Lemma terminal_task_refuses_requests_witness :
  "uuid-0" ≠ ""
  ∧ task_state_at sample_canceled 0 = Some TASK_STATE_CANCELED
  ∧ task_state_at
      (@run sample_runtime sample_canceled
         (map Request
            [ send_request 5 (continuation "m4" "four" "uuid-0");
              task_request 6 "tasks/cancel" "uuid-0";
              task_request 7 "tasks/get" "uuid-0" ])) 0
    = Some TASK_STATE_CANCELED.
Proof.
  assert (Hk : "uuid-0" ≠ "") by discriminate.
  assert (Hs : task_state_at sample_canceled 0 = Some TASK_STATE_CANCELED)
    by (vm_compute; reflexivity).
  split; [exact Hk|]. split; [exact Hs|].
  assert (Hget : exists t,
             tasks_get sample_canceled (Some (JStr "uuid-0"))
             = Some ("uuid-0", 0, t)
             ∧ is_terminal (state (status t)) = true
             ∧ state (status t) = TASK_STATE_CANCELED)
    by (vm_compute; eexists; repeat split; reflexivity).
  destruct Hget as (t & Hget & Hterm & Hstate).
  destruct (@terminal_task_refuses_requests sample_runtime sample_canceled
              "uuid-0" 0 t Hk Hget Hterm) as (_ & _ & Hruns).
  unfold task_state_at. rewrite Hruns. simpl. by rewrite Hstate.
Defined.

(** C5, as stated, fails: the response to a body that is not JSON, and
    the response to an envelope whose id is an array, carry a UUID as id,
    not null; and an envelope whose id is null is not refused at all. *)
Lemma null_id_counterexample :
  (exists resp w,
     @handleJsonRpc sample_runtime true None empty_world = (inl (200%Z, resp), w)
     ∧ (code <$> error resp) = Some (-32700)%Z
     ∧ response_id resp = Some (IdStr "uuid-0")
     ∧ response_id resp ≠ None)
  ∧ (exists resp w,
       @handleJsonRpc sample_runtime true
         (Some (JObj [ ("jsonrpc", JStr "2.0"); ("id", JArr []);
                       ("method", JStr "tasks/list") ])) empty_world
       = (inl (200%Z, resp), w)
       ∧ (code <$> error resp) = Some (-32600)%Z
       ∧ response_id resp = Some (IdStr "uuid-0")
       ∧ response_id resp ≠ None)
  ∧ (exists resp w,
       @handleJsonRpc sample_runtime true
         (Some (JObj [ ("jsonrpc", JStr "2.0"); ("id", JNull);
                       ("method", JStr "tasks/list") ])) empty_world
       = (inl (200%Z, resp), w)
       ∧ error resp = None
       ∧ result resp = Some (ListTasksResponse [] "" 0 0)).
Proof.
  split; [|split]; eexists _, _;
    (split; [vm_compute; reflexivity | repeat split; done]).
Qed.

(** C5 as amended, on an envelope whose id is an object. *)
Lemma undetermined_id_answered_with_uuid_witness :
  assoc "id" [ ("jsonrpc", JStr "2.0"); ("id", JObj []) ] = Some (JObj [])
  ∧ fst (@handleJsonRpc sample_runtime true
           (Some (JObj [ ("jsonrpc", JStr "2.0"); ("id", JObj []) ]))
           empty_world)
    = inl (200%Z,
           mkJsonRpcResponse (Some (IdStr "uuid-0")) None
             (Some (mkJsonRpcError (-32600)
                      "Invalid Request: id must be string or number"))).
Proof.
  assert (H : assoc "id" [ ("jsonrpc", JStr "2.0"); ("id", JObj []) ]
              = Some (JObj [])) by reflexivity.
  split; [exact H|].
  destruct (@undetermined_id_answered_with_uuid sample_runtime empty_world)
    as [_ K].
  rewrite (K _ _ H I). reflexivity.
Defined.


(** C7 on the task of [sample_world], which has three messages, asked
    for its last two. *)
Lemma tasks_get_historyLength_witness :
  exists t h r' h',
    tasks_get sample_world (Some (JStr "uuid-0")) = Some ("uuid-0", 0, t)
    ∧ history t = Some h
    ∧ length h = 3
    ∧ result (fst (@handleTasksGet sample_runtime (Some (IdNum 8))
                     (Some (JObj [ ("id", JStr "uuid-0");
                                   ("historyLength", JNum 2) ]))
                     sample_world))
      = Some (TaskResult r')
    ∧ h' `suffix_of` h
    ∧ length h' = 2.
Proof.
  assert (Hget : exists t h,
             tasks_get sample_world (Some (JStr "uuid-0"))
             = Some ("uuid-0", 0, t)
             ∧ history t = Some h ∧ length h = 3)
    by (vm_compute; eexists _, _; repeat split; reflexivity).
  destruct Hget as (t & h & Hget & Hh & Hlen).
  pose proof (@tasks_get_historyLength sample_runtime (Some (IdNum 8))
                (Some (JObj [ ("id", JStr "uuid-0");
                              ("historyLength", JNum 2) ]))
                sample_world "uuid-0" 0 t h eq_refl Hget Hh) as K.
  cbv zeta in K. destruct K as (_ & K & _).
  destruct (K 2%Z) as (r' & h' & Hres & _ & _ & Hlen' & Hsuf);
    [lia | reflexivity |].
  exists t, h, r', h'. repeat split; try done.
  rewrite Hlen', Hlen. reflexivity.
Defined.

(** C8 on the tasks of [sample_three], listed with a history of one
    message each. *)
Lemma tasks_list_projection_witness :
  exists resp w' (page : list Task),
    @handleTasksList sample_runtime (Some (IdNum 9))
      (Some (JObj [ ("pageSize", JNum 2); ("historyLength", JNum 1) ]))
      sample_three
    = (resp, w')
    ∧ result resp = Some (ListTasksResponse [3; 4] "2" 2 3)
    ∧ length page = 2.
Proof.
  destruct (@handleTasksList sample_runtime (Some (IdNum 9))
              (Some (JObj [ ("pageSize", JNum 2); ("historyLength", JNum 1) ]))
              sample_three) as [resp w'] eqn:E.
  assert (Hres : result resp = Some (ListTasksResponse [3; 4] "2" 2 3)).
  { apply (f_equal fst) in E. simpl in E. subst resp. vm_compute. reflexivity. }
  pose proof (@tasks_list_projection sample_runtime _ _ _ _ _ _ _ _ _ E Hres)
    as K.
  cbv zeta in K. destruct K as (page & Hpage).
  exists resp, w', page. split; [reflexivity|]. split; [exact Hres|].
  apply Forall2_length in Hpage. by rewrite <- Hpage.
Defined.

(** C9 on the task of [sample_world] and a tasks/get that truncates. *)
Lemma stored_history_never_shrinks_witness :
  exists t,
    heap sample_world !! 0 = Some t
    ∧ heap (@step sample_runtime sample_world
              (Request (mkJsonRpcRequest (Some (IdNum 8)) "tasks/get"
                          (Some (JObj [ ("id", JStr "uuid-0");
                                        ("historyLength", JNum 1) ])))))
        !! 0
      = Some t.
Proof.
  assert (Ht : exists t, heap sample_world !! 0 = Some t)
    by (vm_compute; eexists; reflexivity).
  destruct Ht as (t & Ht). exists t. split; [exact Ht|].
  destruct (@stored_history_never_shrinks sample_runtime sample_world
              (Request (mkJsonRpcRequest (Some (IdNum 8)) "tasks/get"
                          (Some (JObj [ ("id", JStr "uuid-0");
                                        ("historyLength", JNum 1) ]))))
              0 t Ht) as (_ & _ & Hread & _).
  destruct Hread as [Hsame _]; [reflexivity | exact Hsame].
Defined.

(** C10 on the task of [sample_world], which is WORKING. *)
Lemma tasks_cancel_replaces_status_witness :
  exists t t',
    tasks_get sample_world (Some (JStr "uuid-0")) = Some ("uuid-0", 0, t)
    ∧ is_terminal (state (status t)) = false
    ∧ heap sample_canceled !! 0 = Some t'
    ∧ state (status t') = TASK_STATE_CANCELED
    ∧ history t' = history t.
Proof.
  assert (Hget : exists t,
             tasks_get sample_world (Some (JStr "uuid-0"))
             = Some ("uuid-0", 0, t)
             ∧ is_terminal (state (status t)) = false)
    by (vm_compute; eexists; repeat split; reflexivity).
  destruct Hget as (t & Hget & Hterm).
  pose proof (@tasks_cancel_replaces_status sample_runtime (Some (IdNum 4))
                (Some (JObj [ ("id", JStr "uuid-0") ])) sample_world
                "uuid-0" 0 t eq_refl Hget Hterm) as K.
  cbv zeta in K. destruct K as (_ & _ & _ & t' & Ht' & Hst & _ & _ & Hh & _).
  exists t, t'. repeat split; try done. by rewrite Hst.
Defined.

(** *** Runs for the further properties *)

Lemma sample_started_store_wf : store_wf sample_started.
Proof.
  apply (@run_store_wf sample_runtime empty_world
           [ Request (send_request 1 (text_message "m1" "one")) ]),
    empty_world_store_wf.
Qed.

Lemma sample_world_keys_generated : @keys_generated sample_runtime sample_world.
Proof.
  apply (@run_keys_generated sample_runtime), (@empty_world_keys_generated sample_runtime).
Qed.

(** X1 on the alias sendMessage. *)
Lemma normalizeMethodName_idempotent_witness :
  ("sendMessage" ∉ Object_prototype_names)
  ∧ normalizeMethodName "sendMessage" = "message/send"
  ∧ normalizeMethodName (normalizeMethodName "sendMessage") = "message/send".
Proof.
  assert (H : "sendMessage" ∉ Object_prototype_names)
    by (apply (bool_decide_unpack _); vm_compute; exact I).
  split; [exact H|]. split; [reflexivity|].
  destruct (normalizeMethodName_idempotent "sendMessage" H) as [E _].
  rewrite E. reflexivity.
Defined.

(** X2 on the alias CancelTask. *)
Lemma routeMethod_alias_witness :
  assoc "CancelTask" methodMap = Some "tasks/cancel"
  ∧ @routeMethod sample_runtime
      (mkJsonRpcRequest (Some (IdNum 4)) "CancelTask"
         (Some (JObj [ ("id", JStr "uuid-0") ]))) sample_world
    = @routeMethod sample_runtime
        (mkJsonRpcRequest (Some (IdNum 4)) "tasks/cancel"
           (Some (JObj [ ("id", JStr "uuid-0") ]))) sample_world.
Proof.
  split; [reflexivity|].
  apply (@routeMethod_alias sample_runtime). reflexivity.
Defined.

(** X3 on a method of the protocol that the server does not have. *)
Lemma unknown_method_not_found_witness :
  exists resp w',
    @routeMethod sample_runtime
      (mkJsonRpcRequest (Some (IdNum 5)) "tasks/resubscribe" None) sample_world
    = (Responds resp, w')
    ∧ error resp
      = Some (mkJsonRpcError (-32601) "Method not found: tasks/resubscribe")
    ∧ heap w' = heap sample_world.
Proof.
  destruct (@unknown_method_not_found sample_runtime
              (mkJsonRpcRequest (Some (IdNum 5)) "tasks/resubscribe" None)
              sample_world)
    as (resp & w' & E & _ & He & _ & Hh & _).
  { apply (bool_decide_unpack _). vm_compute. exact I. }
  exists resp, w'. split; [exact E|]. split; [exact He | exact Hh].
Defined.

(** X5 on an envelope with the wrong protocol version. *)
Lemma invalid_envelope_refused_witness :
  valid (validateJsonRpcRequestDetailed
           (JObj [ ("jsonrpc", JStr "1.0"); ("id", JNum 7);
                   ("method", JStr "tasks/get") ])) = false
  ∧ exists resp w',
      @handleJsonRpc sample_runtime true
        (Some (JObj [ ("jsonrpc", JStr "1.0"); ("id", JNum 7);
                      ("method", JStr "tasks/get") ])) sample_world
      = (inl (200%Z, resp), w')
      ∧ result resp = None
      ∧ heap w' = heap sample_world.
Proof.
  assert (H : valid (validateJsonRpcRequestDetailed
                       (JObj [ ("jsonrpc", JStr "1.0"); ("id", JNum 7);
                               ("method", JStr "tasks/get") ])) = false)
    by (vm_compute; reflexivity).
  split; [exact H|].
  destruct (@invalid_envelope_refused sample_runtime _ sample_world H)
    as (resp & w' & e & E & Hr & _ & _ & _ & Hh & _).
  exists resp, w'. split; [exact E|]. split; [exact Hr | exact Hh].
Defined.

(** X7 on a tasks/get for a task that does not exist. *)
Lemma request_error_has_no_effect_witness :
  exists resp w',
    @routeMethod sample_runtime (task_request 5 "tasks/get" "nope") sample_world
    = (Responds resp, w')
    ∧ error resp ≠ None
    ∧ tasks w' = tasks sample_world
    ∧ heap w' = heap sample_world.
Proof.
  assert (H : exists resp w',
             @routeMethod sample_runtime (task_request 5 "tasks/get" "nope")
               sample_world = (Responds resp, w')
             ∧ error resp ≠ None)
    by (vm_compute; eexists _, _; split; [reflexivity | discriminate]).
  destruct H as (resp & w' & E & He).
  destruct (@request_error_has_no_effect sample_runtime _ _ _ _ E)
    as (_ & Hsame).
  destruct (Hsame He) as (Ht & Hh & _).
  exists resp, w'. split; [exact E|]. split; [exact He|].
  split; [exact Ht | exact Hh].
Defined.

(** X8 on a tasks/list whose id is a string, and on one whose id is the
    largest integer that a number holds exactly. *)
Lemma response_echoes_request_id_witness :
  (exists st resp w',
     @handleJsonRpc sample_runtime true
       (Some (JObj [ ("jsonrpc", JStr "2.0"); ("id", JStr "abc");
                     ("method", JStr "tasks/list") ])) sample_world
     = (inl (st, resp), w')
     ∧ response_id resp = Some (IdStr "abc"))
  ∧ (exists st resp w',
       @handleJsonRpc sample_runtime true
         (Some (JObj [ ("jsonrpc", JStr "2.0");
                       ("id", JNum 9007199254740991);
                       ("method", JStr "tasks/list") ])) sample_world
       = (inl (st, resp), w')
       ∧ response_id resp = Some (IdNum 9007199254740991)).
Proof.
  split.
  - pose proof (@response_echoes_request_id sample_runtime
                  (JObj [ ("jsonrpc", JStr "2.0"); ("id", JStr "abc");
                          ("method", JStr "tasks/list") ])
                  sample_world (IdStr "abc") eq_refl) as K.
    destruct (@handleJsonRpc sample_runtime true
                (Some (JObj [ ("jsonrpc", JStr "2.0"); ("id", JStr "abc");
                              ("method", JStr "tasks/list") ])) sample_world)
      as [[[st resp]|p] w'] eqn:E.
    + exists st, resp, w'. split; [reflexivity | exact K].
    + vm_compute in E. discriminate E.
  - assert (Hid : IdNum 9007199254740991 = IdNum 9007199254740991
                  ∧ (- MAX_SAFE_INTEGER <= 9007199254740991
                     <= MAX_SAFE_INTEGER)%Z)
      by (split; [reflexivity | unfold MAX_SAFE_INTEGER; lia]).
    pose proof (@response_echoes_request_id sample_runtime
                  (JObj [ ("jsonrpc", JStr "2.0");
                          ("id", JNum 9007199254740991);
                          ("method", JStr "tasks/list") ])
                  sample_world (IdNum 9007199254740991) Hid) as K.
    destruct (@handleJsonRpc sample_runtime true
                (Some (JObj [ ("jsonrpc", JStr "2.0");
                              ("id", JNum 9007199254740991);
                              ("method", JStr "tasks/list") ])) sample_world)
      as [[[st resp]|p] w'] eqn:E.
    + exists st, resp, w'. split; [reflexivity | exact K].
    + vm_compute in E. discriminate E.
Defined.

(** X9 on the first request of [sample_trace]. *)
Lemma handler_sees_checked_message_witness :
  @handleMessageSend sample_runtime (Some (IdNum 1))
    (Some (JObj [ ("message", text_message "m1" "one") ])) empty_world
  = (Awaits sample_pending, sample_started)
  ∧ exists fields part parts,
      pending_message sample_pending = JObj fields
      ∧ assoc "parts" fields = Some (JArr (part :: parts)).
Proof.
  assert (H : @handleMessageSend sample_runtime (Some (IdNum 1))
                (Some (JObj [ ("message", text_message "m1" "one") ]))
                empty_world
              = (Awaits sample_pending, sample_started))
    by (vm_compute; reflexivity).
  split; [exact H|].
  destruct (@handler_sees_checked_message sample_runtime _ _ _ _ _ H)
    as (fields & part & parts & Hp & _ & Hparts & _).
  exists fields, part, parts. split; [exact Hp | exact Hparts].
Defined.

(** X10 on a continuation of the canceled task of [sample_canceled]. *)
Lemma message_send_refusals_witness :
  exists resp w',
    @handleMessageSend sample_runtime (Some (IdNum 8))
      (Some (JObj [ ("message", continuation "m9" "late" "uuid-0") ]))
      sample_canceled
    = (Responds resp, w')
    ∧ result resp = None
    ∧ (code <$> error resp) = Some (-32004)%Z.
Proof.
  assert (H : exists resp w',
             @handleMessageSend sample_runtime (Some (IdNum 8))
               (Some (JObj [ ("message", continuation "m9" "late" "uuid-0") ]))
               sample_canceled
             = (Responds resp, w')
             ∧ (code <$> error resp) = Some (-32004)%Z)
    by (vm_compute; eexists _, _; split; reflexivity).
  destruct H as (resp & w' & E & Hc).
  destruct (@message_send_refusals sample_runtime _ _ _ _ _ E)
    as (c & m & Hr & _).
  exists resp, w'. split; [exact E|]. split; [exact Hr | exact Hc].
Defined.

(** X11 on the second request of [sample_trace]. *)
Lemma message_send_continues_task_witness :
  validateSendParams
    (Some (JObj [ ("message", continuation "m2" "two" "uuid-0") ]))
  = inr (continuation "m2" "two" "uuid-0")
  ∧ exists p w' t,
      @handleMessageSend sample_runtime (Some (IdNum 2))
        (Some (JObj [ ("message", continuation "m2" "two" "uuid-0") ]))
        sample_started
      = (Awaits p, w')
      ∧ target (pending_context p) = 0
      ∧ tasks w' = tasks sample_started
      ∧ heap w' !! 0 = Some t
      ∧ state (status t) = TASK_STATE_WORKING.
Proof.
  assert (Hv : validateSendParams
                 (Some (JObj [ ("message", continuation "m2" "two" "uuid-0") ]))
               = inr (continuation "m2" "two" "uuid-0"))
    by (vm_compute; reflexivity).
  split; [exact Hv|].
  assert (Hg : exists t,
             tasks_get sample_started
               (prop (continuation "m2" "two" "uuid-0") "taskId")
             = Some ("uuid-0", 0, t)
             ∧ is_terminal (state (status t)) = false)
    by (vm_compute; eexists; split; reflexivity).
  destruct Hg as (t & Hg & Hterm).
  destruct (@message_send_continues_task sample_runtime (Some (IdNum 2))
              _ _ sample_started "uuid-0" 0 t Hv)
    as (p & w' & E & _ & _ & Hr & Ht & _ & Hh & _).
  - vm_compute. reflexivity.
  - exact Hg.
  - exact Hterm.
  - intros Hc. vm_compute in Hc. discriminate Hc.
  - exists p, w'. eexists. split; [exact E|]. split; [exact Hr|].
    split; [exact Ht|]. split; [exact Hh | reflexivity].
Defined.

(** X12 on the handler of the first request of [sample_trace] returning a
    message. *)
Lemma handler_reply_completes_task_witness :
  exists t,
    heap sample_started !! target (pending_context sample_pending) = Some t
    ∧ history t = Some [text_message "m1" "one"]
    ∧ task_state_at
        (snd (@resumeMessageSend sample_runtime sample_pending
                (ReturnsMessage (text_message "r1" "Echo: one"))
                sample_started)) 0
      = Some TASK_STATE_COMPLETED.
Proof.
  assert (H : exists t,
             heap sample_started !! target (pending_context sample_pending)
             = Some t
             ∧ history t = Some [text_message "m1" "one"])
    by (vm_compute; eexists; split; reflexivity).
  destruct H as (t & Ht & Hh).
  exists t. split; [exact Ht|]. split; [exact Hh|].
  pose proof (@handler_reply_completes_task sample_runtime sample_pending
                (text_message "r1" "Echo: one") sample_started t _ Ht Hh) as K.
  cbv zeta in K. destruct K as (_ & _ & _ & _ & Hl & _).
  unfold task_state_at.
  change (target (pending_context sample_pending)) with 0 in Hl.
  rewrite Hl. reflexivity.
Defined.

(** X13 on the handler of the first request of [sample_trace] returning
    [working]. *)
Lemma handler_task_result_not_stored_witness :
  store_wf sample_started
  ∧ tasks (snd (@resumeMessageSend sample_runtime sample_pending
                  ReturnsWorking sample_started))
    = tasks sample_started
  ∧ heap (snd (@resumeMessageSend sample_runtime sample_pending
                 ReturnsWorking sample_started))
    = heap sample_started.
Proof.
  split; [exact sample_started_store_wf|].
  pose proof (@handler_task_result_not_stored sample_runtime sample_pending
                ReturnsWorking sample_started sample_started_store_wf
                (or_introl eq_refl)) as K.
  cbv zeta in K. destruct K as (Ht & _ & _ & _ & _ & Hh).
  split; [exact Ht | exact Hh].
Defined.

(** X14 on the tasks/cancel that makes [sample_canceled]. *)
Lemma tasks_cancel_not_repeatable_witness :
  exists resp w',
    @handleTasksCancel sample_runtime (Some (IdNum 4))
      (Some (JObj [ ("id", JStr "uuid-0") ])) sample_world
    = (resp, w')
    ∧ result resp = Some (TaskResult 0)
    ∧ @handleTasksCancel sample_runtime (Some (IdNum 5))
        (Some (JObj [ ("id", JStr "uuid-0") ])) w'
      = @jsonRpcError sample_runtime (Some (IdNum 5)) (-32002)
          "Task already in terminal state" w'.
Proof.
  assert (H : exists resp w',
             @handleTasksCancel sample_runtime (Some (IdNum 4))
               (Some (JObj [ ("id", JStr "uuid-0") ])) sample_world
             = (resp, w')
             ∧ result resp = Some (TaskResult 0))
    by (vm_compute; eexists _, _; split; reflexivity).
  destruct H as (resp & w' & E & Hr).
  destruct (@tasks_cancel_not_repeatable sample_runtime _ _ _ _ _ _ E Hr)
    as (_ & Hagain).
  exists resp, w'. split; [exact E|]. split; [exact Hr | apply Hagain].
Defined.


(** X17 on the token 2xyz. *)
Lemma page_token_numeric_prefix_witness :
  (0 <= 2 <= MAX_SAFE_INTEGER)%Z
  ∧ digit_val "x" = None
  ∧ decodePageToken (Some (String.append (String_of_number 2) "xyz")) = Some 2%Z.
Proof.
  split; [unfold MAX_SAFE_INTEGER; lia|]. split; [reflexivity|].
  apply (page_token_numeric_prefix 2 "x" "yz");
    [unfold MAX_SAFE_INTEGER; lia | reflexivity].
Defined.

(** X19 on the task of [sample_world], through a tasks/cancel and a
    message/send that makes another task. *)
Lemma stored_task_stays_in_map_witness :
  assoc "uuid-0" (tasks sample_world) = Some 0
  ∧ assoc "uuid-0"
      (tasks (@run sample_runtime sample_world
                [ Request (task_request 4 "tasks/cancel" "uuid-0");
                  Request (send_request 5 (text_message "m5" "five")) ]))
    = Some 0.
Proof.
  assert (H : assoc "uuid-0" (tasks sample_world) = Some 0)
    by (vm_compute; reflexivity).
  split; [exact H|].
  apply (@stored_task_stays_in_map sample_runtime).
  - exact sample_uuid_inj.
  - exact sample_world_keys_generated.
  - repeat constructor; discriminate.
  - exact H.
Defined.

(** X20 on the handler of the first request of [sample_trace] finishing
    after [clearTasks]. *)
Lemma only_message_send_adds_tasks_witness :
  Forall (fun e => is_send_request e = false)
    [ CallbackReturn sample_pending
        (ReturnsMessage (text_message "r1" "Echo: one"));
      SendStatus sample_context
        (mkTaskStatus TASK_STATE_COMPLETED None None) ]
  ∧ tasks
      (@run sample_runtime (@step sample_runtime sample_started ClearTasks)
         [ CallbackReturn sample_pending
             (ReturnsMessage (text_message "r1" "Echo: one"));
           SendStatus sample_context
             (mkTaskStatus TASK_STATE_COMPLETED None None) ])
    = [].
Proof.
  assert (H : Forall (fun e => is_send_request e = false)
                [ CallbackReturn sample_pending
                    (ReturnsMessage (text_message "r1" "Echo: one"));
                  SendStatus sample_context
                    (mkTaskStatus TASK_STATE_COMPLETED None None) ])
    by (repeat constructor).
  split; [exact H|].
  destruct (@only_message_send_adds_tasks sample_runtime sample_started _ H)
    as (_ & Hempty & _).
  exact Hempty.
Defined.

(** X21 on the task of [sample_started] and an artifact sent by its
    handler. *)
Lemma artifacts_only_appended_witness :
  exists t,
    heap sample_started !! 0 = Some t
    ∧ exists t',
        heap (sendArtifact sample_context
                (JObj [ ("name", JStr "report") ]) sample_started) !! 0
        = Some t'
        ∧ artifacts t'
          = Some (default [] (artifacts t) ++ [ JObj [ ("name", JStr "report") ] ]).
Proof.
  assert (H : exists t, heap sample_started !! 0 = Some t)
    by (vm_compute; eexists; reflexivity).
  destruct H as (t & Ht). exists t. split; [exact Ht|].
  destruct (@artifacts_only_appended sample_runtime sample_started 0 t Ht)
    as (_ & _ & Hsend).
  apply (Hsend sample_context). reflexivity.
Defined.

(** X22 on the task of [sample_started] through the rest of
    [sample_trace]. *)
Lemma task_identity_never_changes_witness :
  exists t t',
    heap sample_started !! 0 = Some t
    ∧ heap (@run sample_runtime sample_started
              [ Request (send_request 2 (continuation "m2" "two" "uuid-0"));
                Request (send_request 3 (continuation "m3" "three" "uuid-0")) ])
        !! 0 = Some t'
    ∧ id t' = id t ∧ contextId t' = contextId t.
Proof.
  assert (H : exists t, heap sample_started !! 0 = Some t)
    by (vm_compute; eexists; reflexivity).
  destruct H as (t & Ht).
  destruct (@task_identity_never_changes sample_runtime sample_started
              [ Request (send_request 2 (continuation "m2" "two" "uuid-0"));
                Request (send_request 3 (continuation "m3" "three" "uuid-0")) ]
              0 t Ht) as (t' & Ht' & Hi & Hc & _).
  exists t, t'. split; [exact Ht|]. split; [exact Ht'|].
  split; [exact Hi | exact Hc].
Defined.

(** X23 on the task of [sample_world]. *)
Lemma stored_tasks_are_complete_witness :
  exists t,
    t ∈ tasks_values (@run sample_runtime empty_world sample_trace)
    ∧ is_Some (artifacts t)
    ∧ metadata t = None.
Proof.
  assert (H : exists t,
             t ∈ tasks_values (@run sample_runtime empty_world sample_trace))
    by (vm_compute; eexists; apply list_elem_of_here).
  destruct H as (t & Ht). exists t. split; [exact Ht|].
  destruct (@stored_tasks_are_complete sample_runtime sample_trace t Ht)
    as (_ & _ & Ha & _ & Hm).
  split; [exact Ha | exact Hm].
Defined.

(** X24 on a late [sendStatus] for the task of [sample_started]. *)
Lemma sendStatus_overwrites_status_witness :
  exists t,
    heap sample_started !! target sample_context = Some t
    ∧ task_state_at
        (@sendStatus sample_runtime sample_context
           (mkTaskStatus TASK_STATE_INPUT_REQUIRED None (Some 0%Z))
           sample_started) 0
      = Some TASK_STATE_INPUT_REQUIRED.
Proof.
  assert (H : exists t, heap sample_started !! target sample_context = Some t)
    by (vm_compute; eexists; reflexivity).
  destruct H as (t & Ht). exists t. split; [exact Ht|].
  pose proof (@sendStatus_overwrites_status sample_runtime sample_context
                (mkTaskStatus TASK_STATE_INPUT_REQUIRED None (Some 0%Z))
                sample_started t Ht) as K.
  cbv zeta in K. destruct K as (Hl & _).
  unfold task_state_at. change (target sample_context) with 0 in Hl.
  rewrite Hl. reflexivity.
Defined.

(** X26 on [sample_client] and the frame [{ type: 'auth_ok' }]. *)
Lemma relay_auth_ok_resolves_connect_witness :
  RelayClient.promises sample_client !! 0
  = Some (RelayClient.mkConnectPromise RelayClient.Unsettled false)
  ∧ RelayClient.isConnected
      (RelayClient.step sample_client
         (RelayClient.OnMessage 0 (Some (JObj [ ("type", JStr "auth_ok") ]))))
    = true.
Proof.
  assert (H : RelayClient.promises sample_client !! 0
              = Some (RelayClient.mkConnectPromise RelayClient.Unsettled false))
    by reflexivity.
  split; [exact H|].
  pose proof (relay_auth_ok_resolves_connect sample_client 0
                (JObj [ ("type", JStr "auth_ok") ]) false eq_refl H) as K.
  cbv zeta in K. destruct K as (Hc & _). exact Hc.
Defined.

(** X27 on [sample_client], disconnected, and the events of its socket
    that follow. *)
Lemma relay_disconnect_stops_reconnecting_witness :
  Forall (fun e => is_connect e = false)
    [ RelayClient.OnClose 0; RelayClient.OnError 0; RelayClient.TimerFired ]
  ∧ RelayClient.reconnectTimer
      (RelayClient.run (RelayClient.disconnect sample_client)
         [ RelayClient.OnClose 0; RelayClient.OnError 0;
           RelayClient.TimerFired ])
    = None.
Proof.
  assert (H : Forall (fun e => is_connect e = false)
                [ RelayClient.OnClose 0; RelayClient.OnError 0;
                  RelayClient.TimerFired ])
    by (repeat constructor).
  split; [exact H|].
  pose proof (relay_disconnect_stops_reconnecting sample_client _ H) as K.
  cbv zeta in K. destruct K as (_ & Ht & _). exact Ht.
Defined.

(** X28 on a client made with [autoReconnect: false] whose socket
    closes. *)
Lemma relay_without_autoReconnect_witness :
  RelayClient.autoReconnect
    (RelayClient.config (RelayClient.create sample_config_once)) = false
  ∧ RelayClient.reconnectTimer (RelayClient.create sample_config_once) = None
  ∧ RelayClient.reconnectTimer
      (RelayClient.run (RelayClient.create sample_config_once)
         [ RelayClient.Connect; RelayClient.OnOpen 0; RelayClient.OnClose 0;
           RelayClient.TimerFired ])
    = None.
Proof.
  split; [reflexivity|]. split; [reflexivity|].
  pose proof (relay_without_autoReconnect
                (RelayClient.create sample_config_once)
                [ RelayClient.Connect; RelayClient.OnOpen 0;
                  RelayClient.OnClose 0; RelayClient.TimerFired ]
                eq_refl eq_refl) as K.
  cbv zeta in K. destruct K as (Ht & _). exact Ht.
Defined.

(** X29 on [sample_client], whose socket closes. *)
Lemma relay_reconnect_retries_witness :
  RelayClient.isStopping sample_client = false
  ∧ RelayClient.autoReconnect (RelayClient.config sample_client) = true
  ∧ RelayClient.reconnectTimer sample_client = None
  ∧ length (RelayClient.promises sample_client)
    = length (RelayClient.sockets sample_client)
  ∧ RelayClient.reconnectTimer
      (RelayClient.step
         (RelayClient.step
            (RelayClient.step sample_client (RelayClient.OnClose 0))
            RelayClient.TimerFired)
         (RelayClient.OnError (length (RelayClient.sockets sample_client))))
    = Some (S (RelayClient.timers sample_client)).
Proof.
  split; [reflexivity|]. split; [reflexivity|]. split; [reflexivity|].
  split; [reflexivity|].
  pose proof (relay_reconnect_retries sample_client 0
                eq_refl eq_refl eq_refl eq_refl) as K.
  cbv zeta in K. destruct K as (_ & _ & _ & Ht). exact Ht.
Defined.

(** X30 on a first message to the echo agent. *)
Lemma relay_agent_cancels_completed_task_witness :
  exists resp w' t,
    @RelayAgent.handleMessageSend sample_runtime (Some (JNum 1))
      (Some (JObj [ ("message", text_message "m1" "one") ])) empty_world
    = Some (resp, w')
    ∧ RelayAgent.agent_result resp = Some (SendMessageResponse 0)
    ∧ heap w' = [t]
    ∧ state (status t) = TASK_STATE_COMPLETED
    ∧ task_state_at
        (snd (@RelayAgent.handleTasksCancel sample_runtime (Some (JNum 2))
                (Some (JObj [ ("id", JStr (id t)) ])) w')) 0
      = Some TASK_STATE_CANCELED.
Proof.
  assert (H : exists resp w',
             @RelayAgent.handleMessageSend sample_runtime (Some (JNum 1))
               (Some (JObj [ ("message", text_message "m1" "one") ]))
               empty_world
             = Some (resp, w')
             ∧ RelayAgent.agent_result resp = Some (SendMessageResponse 0))
    by (vm_compute; eexists _, _; split; reflexivity).
  destruct H as (resp & w' & E & Hr).
  destruct (@relay_agent_cancels_completed_task sample_runtime _ _ _ _ _ _ E Hr)
    as (msg & t & reply & _ & _ & _ & Hh & _ & Hs & _ & _ & _ & Hcancel).
  exists resp, w', t. split; [exact E|]. split; [exact Hr|].
  split; [exact Hh|]. split; [exact Hs|].
  pose proof (Hcancel (Some (JNum 2))) as K. cbv zeta in K.
  destruct K as (_ & _ & K). exact K.
Defined.

(** C3 as amended, on [sample_mixed] with pages of one and the filter
    [status = "TASK_STATE_WORKING"]: the two working tasks, the later one first,
    where the map has them in the other order. *)
Lemma tasks_list_sorted_and_paginated_witness :
  map fst (tasks sample_mixed) = ["uuid-0"; "uuid-2"; "uuid-4"]
  ∧ exists ids,
      ids = ["uuid-4"; "uuid-0"]
      ∧ @collectPages sample_runtime 4 (Some (IdNum 9))
          [ ("pageSize", JNum 1); ("status", JStr "TASK_STATE_WORKING");
            ("statusTimestampAfter", JStr "2023-11-14T22:13:21.000Z") ] None
          sample_mixed
        = Some ids
      ∧ NoDup ids.
Proof.
  split; [vm_compute; reflexivity|].
  destruct (@tasks_list_sorted_and_paginated sample_runtime (Some (IdNum 9))
              [ ("pageSize", JNum 1); ("status", JStr "TASK_STATE_WORKING");
            ("statusTimestampAfter", JStr "2023-11-14T22:13:21.000Z") ]
              sample_mixed (Some 1%Z) None (Some TASK_STATE_WORKING)
              (Some ("2023-11-14T22:13:21.000Z", 1700000001000%Z)))
    as (ids & Hnd & _ & _ & _ & Hall).
  - apply (@run_store_wf sample_runtime sample_three
             [ Request (task_request 4 "tasks/cancel" "uuid-2") ]),
      sample_three_store_wf.
  - reflexivity.
  - reflexivity.
  - simpl. lia.
  - intros n Hn. vm_compute in Hn. discriminate Hn.
  - reflexivity.
  - reflexivity.
  - reflexivity.
  - intros x a Hx. injection Hx as <- <-. split; [|reflexivity].
    eexists _, _, _, _, _, _, _, _, _. split; [reflexivity|].
    repeat constructor; vm_compute; lia.
  - assert (Hfuel : length (tasks sample_mixed) < 4) by (vm_compute; lia).
    exists ids. pose proof (Hall 4 Hfuel) as Hids.
    split; [|split; [exact Hids | exact Hnd]].
    vm_compute in Hids. injection Hids as Hi. symmetry. exact Hi.
Defined.

(** C3, as stated, fails for the filter [contextId = ""]: no task of
    [sample_three] has the empty string as its contextId, so the filtered
    set is empty, yet the listing holds all three tasks. *)
Lemma empty_contextId_filter_counterexample :
  Forall (fun t => contextId t ≠ Some (JStr "")) (heap sample_three)
  ∧ exists resp w page,
      @handleTasksList sample_runtime (Some (IdNum 9))
        (Some (JObj [ ("contextId", JStr "") ])) sample_three
      = (resp, w)
      ∧ result resp = Some (ListTasksResponse [3; 4; 5] "" 3 3)
      ∧ read_tasks w [3; 4; 5] = Some page
      ∧ map id page = ["uuid-4"; "uuid-2"; "uuid-0"].
Proof.
  split.
  - vm_compute. by repeat constructor.
  - eexists _, _, _. split; [vm_compute; reflexivity|].
    split; [reflexivity|]. split; vm_compute; reflexivity.
Qed.
